(** * Transition animations for 2D shapes: the animation-timing core

    A shallow embedding of [simpleTransitions.js]: the [Animation]
    container, the [AnimatableShape] with its [tween] and [stretchIn]
    triggers, the two easing functions and the per-frame [draw] update.

    The program is written once, over an interface of the JavaScript
    number operations it uses ([Number]).  Two instances follow:

    - [PrimFloat.float]: binary64, the numbers the program runs on.
    - [Exact.num]: the same formulas read in exact arithmetic, over the
      rationals extended with [+Infinity], [-Infinity] and [NaN].  Nothing
      is rounded and there is one zero, the positive one.  It is not
      binary64: what is proved over it alone is a statement about the
      formulas without rounding, and is worded so.

    Three kinds of statements follow:

    - the control flow (which flag is set when, which clock reading is
      stored) is proved for every instance of [Number];
    - what depends on the arithmetic only through a few laws
      ([NumberLaws]: multiplying by 1 and -1, dividing by the zero of the
      literal [0], [NaN]) is proved for every instance with these laws;
      the laws are proved for binary64 from the specification of the
      primitive floats, and for [Exact.num];
    - the algebra of the easing polynomials is proved in exact arithmetic,
      and binary64 runs show where rounding departs from it. *)

From Stdlib Require Import ZArith QArith Qcanon Lqa Bool Lia List.
From Stdlib Require Import PrimFloat Floats.

Set Implicit Arguments.

(** ** JavaScript number operations used by the program *)

Class Number (N : Type) : Type := {
  num_add : N -> N -> N;
  num_sub : N -> N -> N;
  num_mul : N -> N -> N;
  num_div : N -> N -> N;
  num_lt  : N -> N -> bool;
  num_gt  : N -> N -> bool;
  num_of_Z : Z -> N
}.

Declare Scope js_scope.
Delimit Scope js_scope with js.
Infix "+" := num_add : js_scope.
Infix "-" := num_sub : js_scope.
Infix "*" := num_mul : js_scope.
Infix "/" := num_div : js_scope.
Infix "<?" := num_lt : js_scope.
Infix ">?" := num_gt (at level 70) : js_scope.

(** ** Exact arithmetic

    Rationals with [+Infinity], [-Infinity] and [NaN].  The operations
    follow the IEEE-754 rules for the special values; a finite result is
    the exact rational.  There is one zero, [Fin 0], which stands for the
    positive zero: the negative zero of binary64 has no counterpart here,
    so nothing is stated in this model about a quotient by [-0]. *)

Module Exact.

Inductive num : Type :=
| Fin (q : Qc)
| PInf
| NInf
| NaN.

Definition Qcltb (a b : Qc) : bool :=
  match (a ?= b)%Qc with Lt => true | _ => false end.

Definition of_Z (z : Z) : num := Fin (Q2Qc (inject_Z z)).

Definition neg (a : num) : num :=
  match a with
  | Fin q => Fin (- q)%Qc
  | PInf => NInf
  | NInf => PInf
  | NaN => NaN
  end.

Definition add (a b : num) : num :=
  match a, b with
  | NaN, _ | _, NaN => NaN
  | Fin p, Fin q => Fin (p + q)%Qc
  | PInf, NInf | NInf, PInf => NaN
  | PInf, _ | _, PInf => PInf
  | NInf, _ | _, NInf => NInf
  end.

Definition sub (a b : num) : num := add a (neg b).

(** An infinity times a finite factor: the sign of the factor decides,
    and [Infinity * 0] is [NaN]. *)
Definition scale_inf (inf : num) (q : Qc) : num :=
  match (q ?= 0)%Qc with
  | Eq => NaN
  | Gt => inf
  | Lt => neg inf
  end.

Definition mul (a b : num) : num :=
  match a, b with
  | NaN, _ | _, NaN => NaN
  | Fin p, Fin q => Fin (p * q)%Qc
  | Fin p, inf => scale_inf inf p
  | inf, Fin q => scale_inf inf q
  | PInf, PInf | NInf, NInf => PInf
  | PInf, NInf | NInf, PInf => NInf
  end.

(** Division.  A finite numerator over the zero gives an infinity of the
    numerator's sign, as a quotient by [+0] does, and [0 / 0] is [NaN]. *)
Definition div (a b : num) : num :=
  match a, b with
  | NaN, _ | _, NaN => NaN
  | Fin p, Fin q =>
      match (q ?= 0)%Qc with
      | Eq => match (p ?= 0)%Qc with
              | Eq => NaN
              | Gt => PInf
              | Lt => NInf
              end
      | _ => Fin (p / q)%Qc
      end
  | Fin _, _ => Fin 0%Qc
  | inf, Fin q => if Qcltb q 0%Qc then neg inf else inf
  | _, _ => NaN
  end.

Definition ltb (a b : num) : bool :=
  match a, b with
  | NaN, _ | _, NaN => false
  | Fin p, Fin q => Qcltb p q
  | NInf, (Fin _ | PInf) => true
  | Fin _, PInf => true
  | _, _ => false
  end.

Definition gtb (a b : num) : bool := ltb b a.


End Exact.

#[export] Instance Exact_Number : Number Exact.num := {
  num_add := Exact.add;
  num_sub := Exact.sub;
  num_mul := Exact.mul;
  num_div := Exact.div;
  num_lt := Exact.ltb;
  num_gt := Exact.gtb;
  num_of_Z := Exact.of_Z
}.

(** ** Binary64 *)

(** Integer literals: exact below 2^53. *)
Fixpoint float_of_pos (p : positive) : float :=
  match p with
  | xH => PrimFloat.one
  | xO p => PrimFloat.mul PrimFloat.two (float_of_pos p)
  | xI p => PrimFloat.add (PrimFloat.mul PrimFloat.two (float_of_pos p)) PrimFloat.one
  end.

#[export] Instance Binary64_Number : Number float := {
  num_add := PrimFloat.add;
  num_sub := PrimFloat.sub;
  num_mul := PrimFloat.mul;
  num_div := PrimFloat.div;
  num_lt := PrimFloat.ltb;
  num_gt := fun a b => PrimFloat.ltb b a;
  num_of_Z := fun z =>
    match z with
    | Z0 => PrimFloat.zero
    | Zpos p => float_of_pos p
    | Zneg p => PrimFloat.opp (float_of_pos p)
    end
}.

(** ** Laws of the arithmetic

    What the statements about a finished animation and about a duration
    of zero need of the numbers, beyond the operations themselves.  The
    laws are proved below for both instances. *)

Section Laws.

Context (N : Type) {NumN : Number N}.
Local Open Scope js_scope.

(** [NaN], as the quotient [0 / 0] of the literal [0] by itself. *)
Definition js_NaN : N := num_of_Z 0 / num_of_Z 0.

Class NumberLaws : Prop := {
  (** the factor of ease-out at percentage 1:
      [-1 * a * 1 * (1 - 2)] is [a] *)
  ease_out_full : forall a : N,
    num_of_Z (-1) * a * num_of_Z 1 * (num_of_Z 1 - num_of_Z 2) = a;
  (** the factor of ease-in at percentage 1: [a * (1 * 1)] is [a] *)
  ease_in_full : forall a : N, a * (num_of_Z 1 * num_of_Z 1) = a;
  (** a number above zero, divided by the zero of the literal [0], is
      above 1 (it is [+Infinity]) *)
  div_zero_above_one : forall t : N,
    (t >? num_of_Z 0) = true -> (t / num_of_Z 0 >? num_of_Z 1) = true;
  (** a number above a number above zero, divided by it, is above 1 or
      is 1 *)
  div_above_one : forall t d : N,
    (d >? num_of_Z 0) = true -> (t >? d) = true ->
    (t / d >? num_of_Z 1) = true \/ t / d = num_of_Z 1;
  (** [NaN] is not above and not below anything, and the operations
      propagate it *)
  nan_not_above : forall a : N, (js_NaN >? a) = false;
  nan_not_below : forall a : N, (a >? js_NaN) = false;
  mul_nan_l : forall a : N, js_NaN * a = js_NaN;
  mul_nan_r : forall a : N, a * js_NaN = js_NaN;
  add_nan_r : forall a : N, a + js_NaN = js_NaN;
  div_nan_r : forall a : N, a / js_NaN = js_NaN
}.

End Laws.

Arguments js_NaN {N NumN}.
Arguments NumberLaws N {NumN}.

(** The float 1 in the specification of the floats, and the floats that
    are 1 or above 1. *)
Definition SF_one : spec_float := S754_finite false 4503599627370496 (-52).

Definition at_least_one (r : spec_float) : Prop :=
  SFcompare SF_one r = Some Lt \/ r = SF_one.

(** ** The host clock

    [millis()] is the host's millisecond timer.  Every call reads it
    afresh, and the host may have advanced it since the previous call:
    a clock is the sequence of its readings and the number of readings
    taken so far.  Code that calls [millis()] runs in the state monad
    [M] over the clock. *)

Section Host.

Context {N : Type}.

Record Clock : Type := mkClock {
  ticks : nat -> N;
  reads : nat
}.

Definition M (A : Type) : Type := Clock -> A * Clock.

Definition ret {A : Type} (a : A) : M A := fun c => (a, c).

Definition bind {A B : Type} (m : M A) (k : A -> M B) : M B :=
  fun c => let (a, c') := m c in k a c'.

Definition millis : M N :=
  fun c => (ticks c (reads c), mkClock (ticks c) (S (reads c))).

End Host.

Arguments Clock : clear implicits.
Arguments M : clear implicits.

Notation "x <- m ;; k" := (bind m (fun x => k))
  (at level 61, m at next level, right associativity) : js_scope.

(** ** The program *)

Section Program.

Context {N : Type} {NumN : Number N}.
Local Open Scope js_scope.

Definition MILLISECONDS_IN_SECOND : N := num_of_Z 1000.

(** *** Animation *)

Record Animation : Type := mkAnimation {
  animDuration : N;
  animDestinationX : N;
  animDestinationY : N;
  animStartX : N;
  animStartY : N;
  animStartTime : N;
  isAnimating : bool;
  animDistanceX : N;
  animDistanceY : N
}.

(** [new Animation(duration, startTime, destinationX, destinationY,
    startX, startY)] *)
Definition new_Animation (duration startTime destinationX destinationY
                          startX startY : N) : Animation :=
  {| animDuration := duration;
     animDestinationX := destinationX;
     animDestinationY := destinationY;
     animStartX := startX;
     animStartY := startY;
     animStartTime := startTime;
     isAnimating := false;
     animDistanceX := destinationX - startX;
     animDistanceY := destinationY - startY |}.

(** Assignments to the two fields written after construction. *)
Definition set_isAnimating (b : bool) (a : Animation) : Animation :=
  {| animDuration := animDuration a;
     animDestinationX := animDestinationX a;
     animDestinationY := animDestinationY a;
     animStartX := animStartX a;
     animStartY := animStartY a;
     animStartTime := animStartTime a;
     isAnimating := b;
     animDistanceX := animDistanceX a;
     animDistanceY := animDistanceY a |}.

Definition set_animStartTime (t : N) (a : Animation) : Animation :=
  {| animDuration := animDuration a;
     animDestinationX := animDestinationX a;
     animDestinationY := animDestinationY a;
     animStartX := animStartX a;
     animStartY := animStartY a;
     animStartTime := t;
     isAnimating := isAnimating a;
     animDistanceX := animDistanceX a;
     animDistanceY := animDistanceY a |}.

(** *** AnimatableShape

    The fields [x], [y], [width], [height] of the source are [shape_x],
    [shape_y], [shape_width], [shape_height].  Each slot holds its own
    Animation object: no two slots alias. *)

Record AnimatableShape : Type := mkShape {
  shape_x : N;
  shape_y : N;
  shape_width : N;
  shape_height : N;
  animationTween : Animation;
  animationStretch : Animation;
  animationShrink : Animation
}.

Definition set_x (v : N) (s : AnimatableShape) : AnimatableShape :=
  mkShape v (shape_y s) (shape_width s) (shape_height s)
          (animationTween s) (animationStretch s) (animationShrink s).

Definition set_y (v : N) (s : AnimatableShape) : AnimatableShape :=
  mkShape (shape_x s) v (shape_width s) (shape_height s)
          (animationTween s) (animationStretch s) (animationShrink s).

Definition set_width (v : N) (s : AnimatableShape) : AnimatableShape :=
  mkShape (shape_x s) (shape_y s) v (shape_height s)
          (animationTween s) (animationStretch s) (animationShrink s).

Definition set_height (v : N) (s : AnimatableShape) : AnimatableShape :=
  mkShape (shape_x s) (shape_y s) (shape_width s) v
          (animationTween s) (animationStretch s) (animationShrink s).

Definition set_animationTween (a : Animation) (s : AnimatableShape) :=
  mkShape (shape_x s) (shape_y s) (shape_width s) (shape_height s)
          a (animationStretch s) (animationShrink s).

Definition set_animationStretch (a : Animation) (s : AnimatableShape) :=
  mkShape (shape_x s) (shape_y s) (shape_width s) (shape_height s)
          (animationTween s) a (animationShrink s).

Definition set_animationShrink (a : Animation) (s : AnimatableShape) :=
  mkShape (shape_x s) (shape_y s) (shape_width s) (shape_height s)
          (animationTween s) (animationStretch s) a.

(** [new AnimatableShape(x, y, shapeWidth, shapeHeight)].  The stretch
    and shrink slots are initialised from the identifiers [width] and
    [height], which in the constructor's scope are the host's globals
    (the canvas size), not the parameters [shapeWidth], [shapeHeight]. *)
Definition new_AnimatableShape (width height : N)
           (x y shapeWidth shapeHeight : N) : M N AnimatableShape :=
  t1 <- millis ;;
  t2 <- millis ;;
  t3 <- millis ;;
  ret {| shape_x := x;
         shape_y := y;
         shape_width := shapeWidth;
         shape_height := shapeHeight;
         animationTween := new_Animation (num_of_Z 0) t1 x y x y;
         animationStretch :=
           new_Animation (num_of_Z 0) t2 width height width height;
         animationShrink :=
           new_Animation (num_of_Z 0) t3 width height width height |}.

(** [tween(finalX, finalY, duration)].  The two [PVector] temporaries of
    the source are never read. *)
Definition tween (this : AnimatableShape) (finalX finalY duration : N)
  : M N AnimatableShape :=
  now <- millis ;;
  let a := new_Animation duration now finalX finalY
                         (shape_x this) (shape_y this) in
  ret (set_animationTween (set_isAnimating true a) this).

(** [stretchIn(maxScale, duration)] *)
Definition stretchIn (this : AnimatableShape) (maxScale duration : N)
  : M N AnimatableShape :=
  let maxScale := if maxScale <? num_of_Z 1 then num_of_Z 1 else maxScale in
  let totalScaleChange := maxScale + maxScale - num_of_Z 1 in
  let durationOfStretch := (maxScale / totalScaleChange) * duration in
  now1 <- millis ;;
  let stretch := new_Animation durationOfStretch now1
                   (maxScale * shape_width this)
                   (maxScale * shape_height this)
                   (num_of_Z 0) (num_of_Z 0) in
  let this := set_animationStretch (set_isAnimating true stretch) this in
  now2 <- millis ;;
  let shrink := new_Animation (duration - durationOfStretch) now2
                  (shape_width this) (shape_height this)
                  (maxScale * shape_width this)
                  (maxScale * shape_height this) in
  ret (set_animationShrink shrink this).

(** [Math.pow(percentage, 2)], taken as the product. *)
Definition Math_pow2 (p : N) : N := p * p.

Definition calculateEaseIn (time duration distance position : N) : N :=
  let percentage := time / duration in
  let percentage := if percentage >? num_of_Z 1 then num_of_Z 1
                    else percentage in
  position + distance * Math_pow2 percentage.

Definition calculateEaseOut (time duration distance position : N) : N :=
  let percentage := time / duration in
  let percentage := if percentage >? num_of_Z 1 then num_of_Z 1
                    else percentage in
  position
  + (num_of_Z (-1) * distance * percentage * (percentage - num_of_Z 2)).

(** [draw()] is three blocks in a row, one per slot. *)

Definition draw_tween (this : AnimatableShape) : M N AnimatableShape :=
  if isAnimating (animationTween this) then
    now <- millis ;;
    let a := animationTween this in
    let timePassed := (now / MILLISECONDS_IN_SECOND)
                      - (animStartTime a / MILLISECONDS_IN_SECOND) in
    let this := set_y (calculateEaseOut timePassed (animDuration a)
                         (animDistanceY a) (animStartY a)) this in
    let this := set_x (calculateEaseOut timePassed (animDuration a)
                         (animDistanceX a) (animStartX a)) this in
    if timePassed >? animDuration a
    then ret (set_animationTween (set_isAnimating false a) this)
    else ret this
  else ret this.

Definition draw_stretch (this : AnimatableShape) : M N AnimatableShape :=
  if isAnimating (animationStretch this) then
    now <- millis ;;
    let a := animationStretch this in
    let timePassed := (now / MILLISECONDS_IN_SECOND)
                      - (animStartTime a / MILLISECONDS_IN_SECOND) in
    let this := set_width (calculateEaseOut timePassed (animDuration a)
                             (animDistanceY a) (animStartY a)) this in
    let this := set_height (calculateEaseOut timePassed (animDuration a)
                              (animDistanceX a) (animStartX a)) this in
    if timePassed >? animDuration a
    then
      let this := set_animationStretch (set_isAnimating false a) this in
      stamp <- millis ;;
      ret (set_animationShrink
             (set_isAnimating true
                (set_animStartTime stamp (animationShrink this)))
             this)
    else ret this
  else ret this.

Definition draw_shrink (this : AnimatableShape) : M N AnimatableShape :=
  if isAnimating (animationShrink this) then
    now <- millis ;;
    let a := animationShrink this in
    let timePassed := (now / MILLISECONDS_IN_SECOND)
                      - (animStartTime a / MILLISECONDS_IN_SECOND) in
    let this := set_width (calculateEaseIn timePassed (animDuration a)
                             (animDistanceY a) (animStartY a)) this in
    let this := set_height (calculateEaseIn timePassed (animDuration a)
                              (animDistanceX a) (animStartX a)) this in
    if timePassed >? animDuration a
    then ret (set_animationShrink (set_isAnimating false a) this)
    else ret this
  else ret this.

Definition draw (this : AnimatableShape) : M N AnimatableShape :=
  this <- draw_tween this ;;
  this <- draw_stretch this ;;
  draw_shrink this.

End Program.

Arguments Animation : clear implicits.
Arguments AnimatableShape : clear implicits.

(** * Vocabulary of the statements *)

Section Vocabulary.

Context {N : Type} {NumN : Number N}.
Local Open Scope js_scope.

(** Seconds between a clock reading and a stored start time, as [draw]
    computes it. *)
Definition elapsed (now startTime : N) : N :=
  (now / MILLISECONDS_IN_SECOND) - (startTime / MILLISECONDS_IN_SECOND).

(** States reachable from a fresh shape by the three operations, each at
    an arbitrary state of the clock. *)
Inductive reachable : AnimatableShape N -> Prop :=
| reach_new (width height x y w h : N) (c : Clock N) :
    reachable (fst (new_AnimatableShape width height x y w h c))
| reach_tween (s : AnimatableShape N) (finalX finalY duration : N)
              (c : Clock N) :
    reachable s -> reachable (fst (tween s finalX finalY duration c))
| reach_stretchIn (s : AnimatableShape N) (maxScale duration : N)
                  (c : Clock N) :
    reachable s -> reachable (fst (stretchIn s maxScale duration c))
| reach_draw (s : AnimatableShape N) (c : Clock N) :
    reachable s -> reachable (fst (draw s c)).

End Vocabulary.

(** * Concrete runs

    Scenarios written once over [Number] and replayed in both
    instances.  Clock readings are integers; the other literals are
    integers or quotients of integers. *)

Section Scenarios.

Context {N : Type} {NumN : Number N}.
Local Open Scope js_scope.

(** A clock that returns the listed readings (milliseconds) in order, and
    0 once they are used up. *)
Definition clock_of (readings : list Z) : Clock N :=
  mkClock (fun n => num_of_Z (nth n readings 0%Z)) 0.

(** [new AnimatableShape(100, 100, w, h)] on a 400 x 400 canvas. *)
Definition shape_100_100 (w h : Z) : M N (AnimatableShape N) :=
  new_AnimatableShape (num_of_Z 400) (num_of_Z 400)
                      (num_of_Z 100) (num_of_Z 100) (num_of_Z w) (num_of_Z h).

(** [s.tween(200, 300, duration)] on a fresh 20 x 20 shape: the shape and
    the clock when the call returns. *)
Definition tween_triggered (duration : N) (readings : list Z)
  : AnimatableShape N * Clock N :=
  (s <- shape_100_100 20 20 ;;
   tween s (num_of_Z 200) (num_of_Z 300) duration) (clock_of readings).

(** [n] successive updates. *)
Fixpoint draws (n : nat) (s : AnimatableShape N) : M N (AnimatableShape N) :=
  match n with
  | O => ret s
  | S n => s <- draw s ;; draws n s
  end.

(** [s.stretchIn(1.5, 1.0)] on a fresh 20 x 40 shape. *)
Definition stretch_triggered (readings : list Z)
  : AnimatableShape N * Clock N :=
  (s <- shape_100_100 20 40 ;;
   stretchIn s (num_of_Z 3 / num_of_Z 2) (num_of_Z 1)) (clock_of readings).

(** [s.tween(x1, x1, 1.0)] on a fresh shape at (x0, x0). *)
Definition tween_between (x0 x1 : N) (readings : list Z)
  : AnimatableShape N * Clock N :=
  (s <- new_AnimatableShape (num_of_Z 400) (num_of_Z 400) x0 x0
                            (num_of_Z 20) (num_of_Z 20) ;;
   tween s x1 x1 (num_of_Z 1)) (clock_of readings).

Definition after_draws (n : nat) (st : AnimatableShape N * Clock N)
  : AnimatableShape N :=
  fst (draws n (fst st) (snd st)).

End Scenarios.

Import Exact.
Local Open Scope Qc_scope.

(** The percentage after the clamp at 1. *)
Definition clamp1 (p : Qc) : Qc := if Qcltb 1 p then 1 else p.

(** Clock readings of the concrete runs. *)
Definition stretch_readings : list Z :=
  (0 :: 0 :: 0 :: 0 :: 0 :: 1000 :: 1000 :: 1000 :: 2000 :: nil)%Z.

Definition stretch_readings_750 : list Z :=
  (0 :: 0 :: 0 :: 0 :: 0 :: 750 :: nil)%Z.

Definition tween_readings : list Z := (0 :: 0 :: 0 :: 2000 :: 3100 :: nil)%Z.

Definition tween_readings_same : list Z :=
  (0 :: 0 :: 0 :: 2000 :: 2000 :: nil)%Z.

Definition tween_readings_16 : list Z :=
  (0 :: 0 :: 0 :: 2000 :: 2016 :: nil)%Z.

Definition hand_off_readings_late : list Z :=
  (0 :: 0 :: 0 :: 0 :: 0 :: 1001 :: 1001 :: 1002 :: nil)%Z.

(** The tween of the end-to-end example in binary64: (100, 100) to
    (200, 300) in one second, triggered at 2000 ms, to be updated at
    3100 ms. *)
Definition tween_1s_b64 : AnimatableShape float * Clock float :=
  tween_triggered 1%float tween_readings.

(** The same tween with a duration of -1 second, to be updated at once. *)
Definition tween_minus_1s_b64 : AnimatableShape float * Clock float :=
  tween_triggered (-1)%float tween_readings_same.

(** The same tween with a duration of -0, to be updated 16 ms later. *)
Definition tween_neg_zero_b64 : AnimatableShape float * Clock float :=
  tween_triggered (-0)%float tween_readings_16.

(** A tween from (0.7, 0.7) to (0.1, 0.1) in one second, to be updated
    past its duration. *)
Definition tween_07_01_b64 : AnimatableShape float * Clock float :=
  tween_between (7 / 10)%float (1 / 10)%float tween_readings.

(** [s.stretchIn(0.5, 1.0)] on a fresh 20 x 40 shape in binary64,
    triggered at 0 ms; the update reads 1001 ms in the stretch block and
    for the stamp, and 1002 ms in the shrink block. *)
Definition stretch_half_b64 : AnimatableShape float * Clock float :=
  (s <- shape_100_100 20 40 ;;
   stretchIn s (1 / 2)%float 1%float)%js (clock_of hand_off_readings_late).

(** The stretch of [stretch_readings] in binary64: triggered at 0 ms,
    updated at 1000 ms. *)
Definition stretch_b64 : AnimatableShape float * Clock float :=
  stretch_triggered stretch_readings.

(** * Further vocabulary *)

Section Idle.

Context {N : Type}.

(** No animation of the shape is running. *)
Definition idle (s : AnimatableShape N) : bool :=
  negb (isAnimating (animationTween s))
  && negb (isAnimating (animationStretch s))
  && negb (isAnimating (animationShrink s)).

End Idle.

Section EndsAt.

Context {N : Type} {NumN : Number N}.
Local Open Scope js_scope.

(** The animation [a] lasts a time that is above zero or is the zero of
    the literal [0], and start + distance of its X slots is [vx], of its Y
    slots [vy]. *)
Definition ends_at (a : Animation N) (vx vy : N) : Prop :=
  ((animDuration a >? num_of_Z 0) = true \/ animDuration a = num_of_Z 0)
  /\ animStartX a + animDistanceX a = vx
  /\ animStartY a + animDistanceY a = vy.

End EndsAt.

(** * The widgets and the sketch

    The rest of [simpleTransitions.js]: [Button], [TextField] and the
    main program.  The drawing calls ([rect], [text], [fill], [ellipse],
    ...) only write to the canvas and are left out; everything that
    reads or writes the program's own state is kept.

    - A closure stored in [onClick] is one of the closures the source
      builds; they are the constructors of [Action].
    - Strings are sequences of one-byte code units.  The only characters
      the program itself produces come from [String.fromCharCode(key)]
      with [46 <= key <= 57].
    - Counts of characters ([numChar], [maxChar]), key codes, the frame
      counter and the scene number are integers.
    - [parseInt] and [parseFloat] are functions of the host, taken as
      parameters, as are the key codes [DELETE] and [BACKSPACE] and the
      canvas size [width], [height]. *)

From Stdlib Require String Ascii.

(** Whether a number is truthy: every number but 0 and [NaN]. *)
Class Truthy (N : Type) : Type := {
  num_truthy : N -> bool
}.

#[export] Instance Exact_Truthy : Truthy Exact.num := {
  num_truthy := fun a =>
    match a with
    | Exact.Fin q => negb (Qeq_bool q 0)
    | Exact.NaN => false
    | _ => true
    end
}.

#[export] Instance Binary64_Truthy : Truthy float := {
  num_truthy := fun a =>
    negb (PrimFloat.eqb a PrimFloat.zero || PrimFloat.is_nan a)
}.

(** The closures of the source that end up in an [onClick]. *)
Inductive Action : Type :=
| NoAction                      (* function() {} *)
| CallInitAnimation             (* function() { initAnimation(); } *)
| CallSetScene (scene : Z).     (* function() { setScene(scene); } *)

Module Widgets.

Import String Ascii.

Section Widgets.

Context {N : Type} {NumN : Number N} {TruthN : Truthy N}.
Local Open Scope js_scope.

(** [v || d] for a number, an integer, a string and an object.  [None]
    is a property the config object does not have. *)
Definition or_number (v : option N) (d : N) : N :=
  match v with
  | Some a => if num_truthy a then a else d
  | None => d
  end.

Definition or_integer (v : option Z) (d : Z) : Z :=
  match v with
  | Some a => if (a =? 0)%Z then d else a
  | None => d
  end.

Definition or_string (v : option String.string) (d : String.string)
  : String.string :=
  match v with
  | Some String.EmptyString => d
  | Some s => s
  | None => d
  end.

Definition or_object {A : Type} (v : option A) (d : A) : A :=
  match v with
  | Some a => a
  | None => d
  end.

Record Config : Type := mkConfig {
  cfg_x : option N;
  cfg_y : option N;
  cfg_width : option N;
  cfg_height : option N;
  cfg_radius : option N;
  cfg_label : option String.string;
  cfg_onClick : option Action;
  cfg_backgroundColour : option (list Z);
  cfg_textColour : option (list Z);
  cfg_strokeColour : option (list Z);
  cfg_maxChars : option Z;
  cfg_value : option String.string
}.

(** ** Button *)

Record Button : Type := mkButton {
  btn_x : N;
  btn_y : N;
  btn_width : N;
  btn_height : N;
  btn_radius : N;
  btn_label : String.string;
  btn_onClick : Action;
  btn_backgroundColour : list Z;
  btn_textColour : list Z;
  btn_strokeColour : list Z;
  btn_isEnabled : bool
}.

Definition new_Button (config : Config) : Button :=
  {| btn_x := or_number (cfg_x config) (num_of_Z 0);
     btn_y := or_number (cfg_y config) (num_of_Z 0);
     btn_width := or_number (cfg_width config) (num_of_Z 150);
     btn_height := or_number (cfg_height config) (num_of_Z 50);
     btn_radius := or_number (cfg_radius config) (num_of_Z 5);
     btn_label := or_string (cfg_label config) "Button"%string;
     btn_onClick := or_object (cfg_onClick config) NoAction;
     btn_backgroundColour :=
       or_object (cfg_backgroundColour config) (255 :: 255 :: 255 :: nil)%Z;
     btn_textColour := or_object (cfg_textColour config) (0 :: 0 :: 0 :: nil)%Z;
     btn_strokeColour :=
       or_object (cfg_strokeColour config) (255 :: 255 :: 255 :: nil)%Z;
     btn_isEnabled := true |}.

Definition set_btn_isEnabled (e : bool) (b : Button) : Button :=
  mkButton (btn_x b) (btn_y b) (btn_width b) (btn_height b) (btn_radius b)
           (btn_label b) (btn_onClick b) (btn_backgroundColour b)
           (btn_textColour b) (btn_strokeColour b) e.

Definition set_btn_textColour (col : list Z) (b : Button) : Button :=
  mkButton (btn_x b) (btn_y b) (btn_width b) (btn_height b) (btn_radius b)
           (btn_label b) (btn_onClick b) (btn_backgroundColour b)
           col (btn_strokeColour b) (btn_isEnabled b).

(** [Button.prototype.isMouseInside], with the host's [mouseX], [mouseY]. *)
Definition isMouseInside (b : Button) (mouseX mouseY : N) : bool :=
  (mouseX >? btn_x b)
  && (mouseX <? btn_x b + btn_width b)
  && (mouseY >? btn_y b)
  && (mouseY <? btn_y b + btn_height b).

(** ** TextField

    [Button.call(this, config)] gives a text field all the fields of a
    button; [isMouseInside] is inherited. *)

Record TextField : Type := mkTextField {
  tf_button : Button;
  tf_isActive : bool;
  tf_isBlack : bool;
  tf_maxChar : Z;
  tf_value : String.string;
  tf_numChar : Z
}.

Definition new_TextField (config : Config) : TextField :=
  let value := or_string (cfg_value config) EmptyString in
  {| tf_button := new_Button config;
     tf_isActive := false;
     tf_isBlack := false;
     tf_maxChar := or_integer (cfg_maxChars config) 10;
     tf_value := value;
     tf_numChar := Z.of_nat (String.length value) |}.

Definition set_tf_isEnabled (e : bool) (t : TextField) : TextField :=
  mkTextField (set_btn_isEnabled e (tf_button t)) (tf_isActive t)
              (tf_isBlack t) (tf_maxChar t) (tf_value t) (tf_numChar t).

Definition set_tf_isActive (a : bool) (t : TextField) : TextField :=
  mkTextField (tf_button t) a (tf_isBlack t) (tf_maxChar t) (tf_value t)
              (tf_numChar t).

Definition set_tf_isBlack (b : bool) (t : TextField) : TextField :=
  mkTextField (tf_button t) (tf_isActive t) b (tf_maxChar t) (tf_value t)
              (tf_numChar t).

Definition set_tf_value (v : String.string) (t : TextField) : TextField :=
  mkTextField (tf_button t) (tf_isActive t) (tf_isBlack t) (tf_maxChar t) v
              (tf_numChar t).

Definition set_tf_numChar (n : Z) (t : TextField) : TextField :=
  mkTextField (tf_button t) (tf_isActive t) (tf_isBlack t) (tf_maxChar t)
              (tf_value t) n.

Definition FRAME_RATE : Z := 60.

(** [TextField.prototype.draw]: the blinker.  [BLINK_RATE] is
    [FRAME_RATE * 0.5]. *)
Definition TextField_draw (this : TextField) (frameCount : Z) : TextField :=
  let BLINK_RATE := (FRAME_RATE / 2)%Z in
  if tf_isActive this && (Z.rem frameCount BLINK_RATE =? 0)%Z
  then (if tf_isBlack this
        then set_tf_isBlack false this
        else set_tf_isBlack true this)
  else this.

(** [TextField.prototype.handleMouseClick] *)
Definition TextField_handleMouseClick (this : TextField) (mouseX mouseY : N)
  : TextField :=
  if isMouseInside (tf_button this) mouseX mouseY
     && btn_isEnabled (tf_button this)
  then set_tf_isActive true this
  else if tf_isActive this
       then set_tf_isActive false this
       else this.

(** [String.fromCharCode(key)] for a one-byte code. *)
Definition fromCharCode (key : Z) : String.string :=
  String.String (Ascii.ascii_of_N (Z.to_N key)) String.EmptyString.

(** [TextField.prototype.handleKeyPressed], with the host's [keyCode] and
    [key]. *)
Definition TextField_handleKeyPressed (DELETE BACKSPACE : Z)
           (this : TextField) (keyCode key : Z) : TextField :=
  let KEY_0 := 48%Z in
  let KEY_9 := 57%Z in
  let KEY_DOT := 46%Z in
  if ((keyCode =? DELETE) || (keyCode =? BACKSPACE))%Z
     && tf_isActive this && (tf_numChar this >? 0)%Z
  then
    let this := set_tf_numChar (tf_numChar this - 1)%Z this in
    set_tf_value
      (String.substring 0 (Z.to_nat (tf_numChar this)) (tf_value this)) this
  else if (tf_numChar this <? tf_maxChar this)%Z && tf_isActive this
          && ((key >=? KEY_DOT) && (key <=? KEY_9))%Z
  then
    let this := set_tf_numChar (tf_numChar this + 1)%Z this in
    set_tf_value (String.append (tf_value this) (fromCharCode key)) this
  else this.

End Widgets.

Arguments Config : clear implicits.
Arguments Button : clear implicits.
Arguments TextField : clear implicits.

End Widgets.

Import Widgets.

(** ** The main program *)

Module Main.

Import String Ascii.

Section Main.

Context {N : Type} {NumN : Number N} {TruthN : Truthy N}.
Local Open Scope js_scope.

(** The canvas size, the host's parsers and the host's key codes. *)
Variables (width height : N).
Variables (parseInt parseFloat : string -> N).
Variables (DELETE BACKSPACE : Z).

(** The global variables of the sketch. *)
Record Sketch : Type := mkSketch {
  animatingEllipse : AnimatableShape N;
  sceneNumber : Z;
  xTextField : TextField N;
  yTextField : TextField N;
  durationTextField : TextField N;
  scaleTextField : TextField N;
  resetButton : Button N;
  tweenButton : Button N;
  growthButton : Button N
}.

Definition set_animatingEllipse (e : AnimatableShape N) (g : Sketch) :=
  mkSketch e (sceneNumber g) (xTextField g) (yTextField g)
           (durationTextField g) (scaleTextField g) (resetButton g)
           (tweenButton g) (growthButton g).

Definition set_sceneNumber (n : Z) (g : Sketch) :=
  mkSketch (animatingEllipse g) n (xTextField g) (yTextField g)
           (durationTextField g) (scaleTextField g) (resetButton g)
           (tweenButton g) (growthButton g).

Definition set_xTextField (t : TextField N) (g : Sketch) :=
  mkSketch (animatingEllipse g) (sceneNumber g) t (yTextField g)
           (durationTextField g) (scaleTextField g) (resetButton g)
           (tweenButton g) (growthButton g).

Definition set_yTextField (t : TextField N) (g : Sketch) :=
  mkSketch (animatingEllipse g) (sceneNumber g) (xTextField g) t
           (durationTextField g) (scaleTextField g) (resetButton g)
           (tweenButton g) (growthButton g).

Definition set_durationTextField (t : TextField N) (g : Sketch) :=
  mkSketch (animatingEllipse g) (sceneNumber g) (xTextField g)
           (yTextField g) t (scaleTextField g) (resetButton g)
           (tweenButton g) (growthButton g).

Definition set_scaleTextField (t : TextField N) (g : Sketch) :=
  mkSketch (animatingEllipse g) (sceneNumber g) (xTextField g)
           (yTextField g) (durationTextField g) t (resetButton g)
           (tweenButton g) (growthButton g).

Definition set_tweenButton (b : Button N) (g : Sketch) :=
  mkSketch (animatingEllipse g) (sceneNumber g) (xTextField g)
           (yTextField g) (durationTextField g) (scaleTextField g)
           (resetButton g) b (growthButton g).

Definition set_growthButton (b : Button N) (g : Sketch) :=
  mkSketch (animatingEllipse g) (sceneNumber g) (xTextField g)
           (yTextField g) (durationTextField g) (scaleTextField g)
           (resetButton g) (tweenButton g) b.

(** The literal [0.5]. *)
Definition half : N := num_of_Z 1 / num_of_Z 2.

Definition no_config : Config N :=
  mkConfig None None None None None None None None None None None None.

Definition TEXT_FIELD_WIDTH : N := num_of_Z 70.
Definition TEXT_FIELD_HEIGHT : N := num_of_Z 30.
Definition TEXT_FIELD_PADDING : N := num_of_Z 10.

(** The config object shared by the four text fields, up to [x], the
    label and the default value. *)
Definition text_field_config (x : N) (label value : string) : Config N :=
  {| cfg_x := Some x;
     cfg_y := Some (height - TEXT_FIELD_HEIGHT - TEXT_FIELD_PADDING);
     cfg_width := Some TEXT_FIELD_WIDTH;
     cfg_height := Some TEXT_FIELD_HEIGHT;
     cfg_radius := None;
     cfg_label := Some label;
     cfg_onClick := None;
     cfg_backgroundColour := None;
     cfg_textColour := None;
     cfg_strokeColour := Some (0 :: 0 :: 0 :: nil)%Z;
     cfg_maxChars := Some 5%Z;
     cfg_value := Some value |}.

Definition initial_xTextField : TextField N :=
  new_TextField
    (text_field_config (width / num_of_Z 4 - TEXT_FIELD_WIDTH / num_of_Z 2)
                       "Final x" "200").

Definition initial_yTextField : TextField N :=
  new_TextField
    (text_field_config ((width / num_of_Z 2) - TEXT_FIELD_WIDTH / num_of_Z 2)
                       "Final y" "200").

Definition initial_durationTextField : TextField N :=
  new_TextField
    (text_field_config
       (num_of_Z 3 * (width / num_of_Z 4) - TEXT_FIELD_WIDTH / num_of_Z 2)
       "Duration" "0.5").

Definition initial_scaleTextField : TextField N :=
  new_TextField
    (text_field_config
       (num_of_Z 1 * (width / num_of_Z 4) - TEXT_FIELD_WIDTH / num_of_Z 2)
       "Scale" "1.5").

Definition RESET_BTTN_WIDTH : N := num_of_Z 70.
Definition RESET_BTTN_HEIGHT : N := num_of_Z 30.
Definition RESET_BTTN_PADDING : N := num_of_Z 10.
Definition BTTN_WIDTH : N := num_of_Z 70.
Definition BTTN_HEIGHT : N := num_of_Z 30.
Definition BTTN_PADDING : N := num_of_Z 10.

Definition button_config (x y w h : N) (label : string) (onClick : Action)
  : Config N :=
  {| cfg_x := Some x;
     cfg_y := Some y;
     cfg_width := Some w;
     cfg_height := Some h;
     cfg_radius := None;
     cfg_label := Some label;
     cfg_onClick := Some onClick;
     cfg_backgroundColour := None;
     cfg_textColour := None;
     cfg_strokeColour := None;
     cfg_maxChars := None;
     cfg_value := None |}.

Definition initial_resetButton : Button N :=
  new_Button (button_config (width - RESET_BTTN_WIDTH - RESET_BTTN_PADDING)
                            RESET_BTTN_PADDING
                            RESET_BTTN_WIDTH RESET_BTTN_HEIGHT
                            "Replay" CallInitAnimation).

Definition initial_tweenButton : Button N :=
  new_Button (button_config (width - BTTN_WIDTH - BTTN_PADDING)
                            (num_of_Z 100) BTTN_WIDTH BTTN_HEIGHT
                            "Tween" (CallSetScene 1)).

Definition initial_growthButton : Button N :=
  new_Button (button_config (width - BTTN_WIDTH - BTTN_PADDING)
                            (btn_y initial_tweenButton
                             + btn_height initial_tweenButton + BTTN_PADDING)
                            BTTN_WIDTH BTTN_HEIGHT
                            "Growth" (CallSetScene 2)).

(** [initAnimation] *)
Definition initAnimation (g : Sketch) : M N Sketch :=
  if (sceneNumber g =? 1)%Z then
    let e := set_x (width * half) (animatingEllipse g) in
    let e := set_y (num_of_Z 0) e in
    let xInput := parseInt (tf_value (xTextField g)) in
    let yInput := parseInt (tf_value (yTextField g)) in
    let durationInput := parseFloat (tf_value (durationTextField g)) in
    e <- tween e xInput yInput durationInput ;;
    ret (set_animatingEllipse e g)
  else if (sceneNumber g =? 2)%Z then
    let e := set_x (width * half) (animatingEllipse g) in
    let e := set_y (height * half) e in
    let scaleInput := parseFloat (tf_value (scaleTextField g)) in
    let durationInput := parseFloat (tf_value (durationTextField g)) in
    let clamped := scaleInput <? num_of_Z 1 in
    let g := if clamped
             then set_scaleTextField (set_tf_value "1" (scaleTextField g)) g
             else g in
    let scaleInput := if clamped then num_of_Z 1 else scaleInput in
    e <- stretchIn e scaleInput durationInput ;;
    ret (set_animatingEllipse e g)
  else ret g.

(** [setScene(scene)] *)
Definition setScene (scene : Z) (g : Sketch) : M N Sketch :=
  let g := set_sceneNumber scene g in
  if (scene =? 1)%Z then
    let g := set_tweenButton
               (set_btn_textColour (0 :: 200 :: 0 :: nil)%Z (tweenButton g))
               g in
    let g := set_growthButton
               (set_btn_textColour (0 :: 0 :: 0 :: nil)%Z (growthButton g))
               g in
    initAnimation g
  else if (scene =? 2)%Z then
    let g := set_growthButton
               (set_btn_textColour (0 :: 200 :: 0 :: nil)%Z (growthButton g))
               g in
    let g := set_tweenButton
               (set_btn_textColour (0 :: 0 :: 0 :: nil)%Z (tweenButton g))
               g in
    initAnimation g
  else ret g.

(** Calling a closure stored in [onClick]. *)
Definition call (a : Action) (g : Sketch) : M N Sketch :=
  match a with
  | NoAction => ret g
  | CallInitAnimation => initAnimation g
  | CallSetScene scene => setScene scene g
  end.

(** [Button.prototype.handleMouseClick] *)
Definition Button_handleMouseClick (this : Button N) (mouseX mouseY : N)
           (g : Sketch) : M N Sketch :=
  if isMouseInside this mouseX mouseY && btn_isEnabled this
  then call (btn_onClick this) g
  else ret g.

(** [mouseClicked] *)
Definition mouseClicked (mouseX mouseY : N) (g : Sketch) : M N Sketch :=
  g <- Button_handleMouseClick (resetButton g) mouseX mouseY g ;;
  g <- Button_handleMouseClick (tweenButton g) mouseX mouseY g ;;
  g <- Button_handleMouseClick (growthButton g) mouseX mouseY g ;;
  let g := set_xTextField
             (TextField_handleMouseClick (xTextField g) mouseX mouseY) g in
  let g := set_yTextField
             (TextField_handleMouseClick (yTextField g) mouseX mouseY) g in
  let g := set_durationTextField
             (TextField_handleMouseClick (durationTextField g) mouseX mouseY)
             g in
  let g := set_scaleTextField
             (TextField_handleMouseClick (scaleTextField g) mouseX mouseY)
             g in
  ret g.

(** [keyPressed] *)
Definition keyPressed (keyCode key : Z) (g : Sketch) : Sketch :=
  let press t := TextField_handleKeyPressed DELETE BACKSPACE t keyCode key in
  let g := set_xTextField (press (xTextField g)) g in
  let g := set_yTextField (press (yTextField g)) g in
  let g := set_durationTextField (press (durationTextField g)) g in
  let g := set_scaleTextField (press (scaleTextField g)) g in
  g.

(** [drawUI] *)
Definition drawUI (frameCount : Z) (g : Sketch) : Sketch :=
  if (sceneNumber g =? 1)%Z then
    let g := set_xTextField (TextField_draw (xTextField g) frameCount) g in
    let g := set_xTextField (set_tf_isEnabled true (xTextField g)) g in
    let g := set_yTextField (TextField_draw (yTextField g) frameCount) g in
    let g := set_yTextField (set_tf_isEnabled true (yTextField g)) g in
    let g := set_durationTextField
               (TextField_draw (durationTextField g) frameCount) g in
    let g := set_scaleTextField
               (set_tf_isEnabled false (scaleTextField g)) g in
    g
  else if (sceneNumber g =? 2)%Z then
    let g := set_durationTextField
               (TextField_draw (durationTextField g) frameCount) g in
    let g := set_scaleTextField
               (TextField_draw (scaleTextField g) frameCount) g in
    let g := set_scaleTextField (set_tf_isEnabled true (scaleTextField g)) g in
    let g := set_xTextField (set_tf_isEnabled false (xTextField g)) g in
    let g := set_xTextField (set_tf_isEnabled false (xTextField g)) g in
    g
  else g.

(** The sketch's [draw]: the ellipse's update, then [drawUI]. *)
Definition sketch_draw (frameCount : Z) (g : Sketch) : M N Sketch :=
  e <- draw (animatingEllipse g) ;;
  ret (drawUI frameCount (set_animatingEllipse e g)).

(** Loading the sketch: the global variables, then [setScene(1)] and
    [drawUI()]. *)
Definition load (frameCount : Z) : M N Sketch :=
  e <- new_AnimatableShape width height (width * half) (num_of_Z 0)
                           (num_of_Z 20) (num_of_Z 20) ;;
  let g := {| animatingEllipse := e;
              sceneNumber := 1;
              xTextField := initial_xTextField;
              yTextField := initial_yTextField;
              durationTextField := initial_durationTextField;
              scaleTextField := initial_scaleTextField;
              resetButton := initial_resetButton;
              tweenButton := initial_tweenButton;
              growthButton := initial_growthButton |} in
  g <- setScene 1 g ;;
  ret (drawUI frameCount g).

(** The events the host delivers after loading. *)
Inductive Event : Type :=
| MouseClicked (mouseX mouseY : N)
| KeyPressed (keyCode key : Z)
| Draw (frameCount : Z).

Definition handle (ev : Event) (g : Sketch) : M N Sketch :=
  match ev with
  | MouseClicked mouseX mouseY => mouseClicked mouseX mouseY g
  | KeyPressed keyCode key => ret (keyPressed keyCode key g)
  | Draw frameCount => sketch_draw frameCount g
  end.

(** The states of the sketch: after loading, and after every event, at an
    arbitrary state of the clock. *)
Inductive running : Sketch -> Prop :=
| run_load (frameCount : Z) (c : Clock N) :
    running (fst (load frameCount c))
| run_event (ev : Event) (g : Sketch) (c : Clock N) :
    running g -> running (fst (handle ev g c)).

End Main.

Arguments Sketch : clear implicits.
Arguments Event : clear implicits.

End Main.

Import Main.

(** ** What reaches a text field *)

Section FieldOps.

Context {N : Type} {NumN : Number N} {TruthN : Truthy N}.

(** The calls a text field receives: a key, a click, a frame. *)
Inductive FieldOp : Type :=
| OpKey (keyCode key : Z)
| OpClick (mouseX mouseY : N)
| OpDraw (frameCount : Z).

Definition field_op (DELETE BACKSPACE : Z) (t : TextField N) (op : FieldOp)
  : TextField N :=
  match op with
  | OpKey keyCode key => TextField_handleKeyPressed DELETE BACKSPACE t keyCode key
  | OpClick mouseX mouseY => TextField_handleMouseClick t mouseX mouseY
  | OpDraw frameCount => TextField_draw t frameCount
  end.

(** The text and the character count agree. *)
Definition counted (t : TextField N) : Prop :=
  tf_numChar t = Z.of_nat (String.length (tf_value t)).

(** The characters that can be typed: ['.'], ['/'] and the digits. *)
Definition typable (ch : Ascii.ascii) : bool :=
  (46 <=? Ascii.N_of_ascii ch)%N && (Ascii.N_of_ascii ch <=? 57)%N.

End FieldOps.

Arguments FieldOp : clear implicits.

(** ** What the running sketch keeps *)

Section Settled.

Context {N : Type} {NumN : Number N} {TruthN : Truthy N}.
Variables (width height : N).

(** Every character of the text can be typed. *)
Definition typed (s : String.string) : Prop :=
  Forall (fun ch => typable ch = true) (String.list_ascii_of_string s).

(** The button [b] is where [b0] is and does what [b0] does. *)
Definition placed (b b0 : Button N) : Prop :=
  btn_x b = btn_x b0 /\ btn_y b = btn_y b0
  /\ btn_width b = btn_width b0 /\ btn_height b = btn_height b0
  /\ btn_onClick b = btn_onClick b0.

(** The text field [t] is where [t0] is, takes five characters, and its
    text can be typed. *)
Definition kept (t t0 : TextField N) : Prop :=
  placed (tf_button t) (tf_button t0)
  /\ tf_maxChar t = 5%Z
  /\ typed (tf_value t).

Definition highlighted (on : bool) (b : Button N) : Prop :=
  btn_textColour b = if on then (0 :: 200 :: 0 :: nil)%Z
                     else (0 :: 0 :: 0 :: nil)%Z.

Definition settled (g : Sketch N) : Prop :=
  (sceneNumber g = 1%Z \/ sceneNumber g = 2%Z)
  /\ placed (resetButton g) (initial_resetButton width)
  /\ placed (tweenButton g) (initial_tweenButton width)
  /\ placed (growthButton g) (initial_growthButton width)
  /\ btn_isEnabled (resetButton g) = true
  /\ btn_isEnabled (tweenButton g) = true
  /\ btn_isEnabled (growthButton g) = true
  /\ highlighted (sceneNumber g =? 1)%Z (tweenButton g)
  /\ highlighted (sceneNumber g =? 2)%Z (growthButton g)
  /\ kept (xTextField g) (initial_xTextField width height)
  /\ kept (yTextField g) (initial_yTextField width height)
  /\ kept (durationTextField g) (initial_durationTextField width height)
  /\ kept (scaleTextField g) (initial_scaleTextField width height)
  /\ btn_isEnabled (tf_button (yTextField g)) = true
  /\ btn_isEnabled (tf_button (durationTextField g)) = true
  /\ btn_isEnabled (tf_button (xTextField g))
     && btn_isEnabled (tf_button (scaleTextField g)) = false
  /\ counted (xTextField g)
  /\ counted (yTextField g)
  /\ counted (durationTextField g).

(** At most one of the four text fields takes the keys. *)
Definition one_active (g : Sketch N) : Prop :=
  tf_isActive (xTextField g) && tf_isActive (yTextField g) = false
  /\ tf_isActive (xTextField g) && tf_isActive (durationTextField g) = false
  /\ tf_isActive (xTextField g) && tf_isActive (scaleTextField g) = false
  /\ tf_isActive (yTextField g) && tf_isActive (durationTextField g) = false
  /\ tf_isActive (yTextField g) && tf_isActive (scaleTextField g) = false
  /\ tf_isActive (durationTextField g) && tf_isActive (scaleTextField g)
     = false.

End Settled.

(** * Concrete shapes and sketches *)

(** A fresh 20 x 20 shape: nothing runs. *)
Definition idle_shape : AnimatableShape num :=
  fst (shape_100_100 20 20 (clock_of nil)).

Definition tween_readings_mid : list Z :=
  (0 :: 0 :: 0 :: 2000 :: 2500 :: 2800 :: nil)%Z.

(** The tween of one second triggered at 2000 ms, to be updated at
    2500 ms and at 2800 ms. *)
Definition tween_mid : AnimatableShape num * Clock num :=
  tween_triggered (of_Z 1) tween_readings_mid.

Definition tween_readings_3000 : list Z :=
  (0 :: 0 :: 0 :: 2000 :: 3000 :: nil)%Z.

(** The tween of one second in binary64, triggered at 2000 ms, to be
    updated at 3000 ms: the elapsed time is the duration. *)
Definition tween_at_duration_b64 : AnimatableShape float * Clock float :=
  tween_triggered 1%float tween_readings_3000.

(** The same tween in binary64 with the duration [NaN]. *)
Definition tween_NaN_b64 : AnimatableShape float * Clock float :=
  tween_triggered (0 / 0)%float tween_readings.

(** A fresh 20 x 40 shape in binary64 with the clock of
    [stretch_readings]; [stretch_b64] is [stretchIn(1.5, 1.0)] on it, and
    this is its first update, at 1000 ms.  The next update is at 2000 ms. *)
Definition cycle_start_b64 : AnimatableShape float * Clock float :=
  shape_100_100 20 40 (clock_of stretch_readings).

Definition cycle_frame_b64 : AnimatableShape float * Clock float :=
  draw (fst stretch_b64) (snd stretch_b64).

(** A fresh 20 x 40 shape, and [stretchIn(1.5, 1.0)] on it at 0 ms, to
    be updated at 1000 ms. *)
Definition cycle_start : AnimatableShape num * Clock num :=
  shape_100_100 20 40 (clock_of stretch_readings).

Definition cycle_stretched : AnimatableShape num * Clock num :=
  stretchIn (fst cycle_start) (Fin (Q2Qc (3 # 2))) (Fin (Q2Qc 1))
            (snd cycle_start).

Definition hand_off_readings : list Z :=
  (0 :: 0 :: 0 :: 0 :: 0 :: 1500 :: 1500 :: 1500 :: nil)%Z.

(** A fresh 20 x 40 shape, [stretchIn(0.5, 1.0)] on it at 0 ms, and the
    update at 1500 ms, the clock standing still during the update. *)
Definition hand_off_start : AnimatableShape num * Clock num :=
  shape_100_100 20 40 (clock_of hand_off_readings).

Definition hand_off_stretched : AnimatableShape num * Clock num :=
  stretchIn (fst hand_off_start) (Fin (Q2Qc (1 # 2))) (Fin (Q2Qc 1))
            (snd hand_off_start).

Definition hand_off_frame : AnimatableShape num * Clock num :=
  draw (fst hand_off_stretched) (snd hand_off_stretched).

(** A host whose [parseInt] and [parseFloat] give [v] for every text. *)
Definition parse_const (v : num) (s : String.string) : num := v.

Definition sketch_readings : list Z :=
  (0 :: 0 :: 0 :: 0 :: 1000 :: 2000 :: 3000 :: nil)%Z.

(** The sketch on a 400 x 400 canvas when the file has been loaded;
    the key codes of delete and backspace are 127 and 8. *)
Definition sketch_loaded : Sketch num * Clock num :=
  load (Fin (Q2Qc 400)) (Fin (Q2Qc 400))
       (parse_const (of_Z 0)) (parse_const (of_Z 0)) 0
       (clock_of sketch_readings).

Definition sketch_event (ev : Event num) (st : Sketch num * Clock num)
  : Sketch num * Clock num :=
  handle (Fin (Q2Qc 400)) (Fin (Q2Qc 400))
         (parse_const (of_Z 0)) (parse_const (of_Z 0)) 127 8
         ev (fst st) (snd st).

(** A click on the Growth button, a frame, and a click into the scale
    field. *)
Definition sketch_growth : Sketch num * Clock num :=
  sketch_event (MouseClicked (Fin (Q2Qc 350)) (Fin (Q2Qc 155))) sketch_loaded.

Definition sketch_growth_drawn : Sketch num * Clock num :=
  sketch_event (@Draw num 1%Z) sketch_growth.

Definition sketch_scale_active : Sketch num * Clock num :=
  sketch_event (MouseClicked (Fin (Q2Qc 100)) (Fin (Q2Qc 375)))
               sketch_growth_drawn.

(** The x field of the 400 x 400 canvas after a click into it. *)
Definition x_field_active : TextField num :=
  TextField_handleMouseClick
    (initial_xTextField (Fin (Q2Qc 400)) (Fin (Q2Qc 400)))
    (Fin (Q2Qc 100)) (Fin (Q2Qc 375)).

(** * Laws of the exact model *)

(** ** From canonical rationals to rationals *)

Lemma this_plus (a b : Qc) : (this (a + b) == this a + this b)%Q.
Proof. unfold Qcplus, Q2Qc; cbn [this]. apply Qred_correct. Qed.

Lemma this_mult (a b : Qc) : (this (a * b) == this a * this b)%Q.
Proof. unfold Qcmult, Q2Qc; cbn [this]. apply Qred_correct. Qed.

Lemma this_opp (a : Qc) : (this (- a) == - this a)%Q.
Proof. unfold Qcopp, Q2Qc; cbn [this]. apply Qred_correct. Qed.

Lemma this_minus (a b : Qc) : (this (a - b) == this a - this b)%Q.
Proof. unfold Qcminus. rewrite this_plus, this_opp. reflexivity. Qed.

Lemma this_inv (a : Qc) : (this (/ a) == / this a)%Q.
Proof. unfold Qcinv, Q2Qc; cbn [this]. apply Qred_correct. Qed.

Lemma this_div (a b : Qc) : (this (a / b) == this a / this b)%Q.
Proof. unfold Qcdiv. rewrite this_mult, this_inv. reflexivity. Qed.

Lemma this_Q2Qc (q : Q) : (this (Q2Qc q) == q)%Q.
Proof. unfold Q2Qc; cbn [this]. apply Qred_correct. Qed.

Ltac to_Q :=
  unfold Qclt, Qcle in *;
  repeat match goal with
  | H : @eq Qc _ _ |- _ => apply (f_equal this) in H
  end;
  try apply Qc_is_canon;
  repeat (rewrite ?this_plus, ?this_mult, ?this_opp, ?this_minus,
                  ?this_div, ?this_inv, ?this_Q2Qc in * ).

(** ** Comparisons and division *)

Lemma Qcltb_true_iff (a b : Qc) : Qcltb a b = true <-> a < b.
Proof.
  unfold Qcltb. rewrite Qclt_alt.
  destruct (a ?= b); split; congruence.
Qed.

Lemma Qcltb_false_iff (a b : Qc) : Qcltb a b = false <-> b <= a.
Proof.
  split; intro H.
  - apply Qcnot_lt_le. intro L. apply Qcltb_true_iff in L. congruence.
  - destruct (Qcltb a b) eqn:E; trivial.
    apply Qcltb_true_iff in E. exfalso. exact (Qcle_not_lt _ _ H E).
Qed.

Lemma div_Fin_pos (p q : Qc) : 0 < q -> div (Fin p) (Fin q) = Fin (p / q).
Proof.
  intro H. unfold div.
  replace (q ?= 0) with Gt by (symmetry; apply Qcgt_alt; exact H).
  reflexivity.
Qed.

Ltac js_ops :=
  cbn [num_div num_gt num_lt num_add num_mul num_sub num_of_Z Exact_Number].

Lemma easeOut_Fin (t d D s : Qc) :
  0 < d ->
  calculateEaseOut (Fin t) (Fin d) (Fin D) (Fin s)
  = Fin (s + (Q2Qc (inject_Z (-1)) * D * clamp1 (t / d)
              * (clamp1 (t / d) - Q2Qc (inject_Z 2)))).
Proof.
  intro H. unfold calculateEaseOut. js_ops.
  rewrite (div_Fin_pos _ H). unfold clamp1, gtb, ltb, of_Z.
  change (Q2Qc (inject_Z 1)) with 1.
  destruct (Qcltb 1 (t / d)); reflexivity.
Qed.

Lemma easeIn_Fin (t d D s : Qc) :
  0 < d ->
  calculateEaseIn (Fin t) (Fin d) (Fin D) (Fin s)
  = Fin (s + D * (clamp1 (t / d) * clamp1 (t / d))).
Proof.
  intro H. unfold calculateEaseIn, Math_pow2. js_ops.
  rewrite (div_Fin_pos _ H). unfold clamp1, gtb, ltb, of_Z.
  change (Q2Qc (inject_Z 1)) with 1.
  destruct (Qcltb 1 (t / d)); reflexivity.
Qed.

Lemma div_Fin_neg (p q : Qc) : q < 0 -> div (Fin p) (Fin q) = Fin (p / q).
Proof.
  intro H. unfold div.
  replace (q ?= 0) with Lt by (symmetry; apply Qclt_alt; exact H).
  reflexivity.
Qed.

Lemma easeOut_Fin_neg (t d D s : Qc) :
  d < 0 ->
  calculateEaseOut (Fin t) (Fin d) (Fin D) (Fin s)
  = Fin (s + (Q2Qc (inject_Z (-1)) * D * clamp1 (t / d)
              * (clamp1 (t / d) - Q2Qc (inject_Z 2)))).
Proof.
  intro H. unfold calculateEaseOut. js_ops.
  rewrite (div_Fin_neg _ H). unfold clamp1, gtb, ltb, of_Z.
  change (Q2Qc (inject_Z 1)) with 1.
  destruct (Qcltb 1 (t / d)); reflexivity.
Qed.

Lemma easeIn_Fin_neg (t d D s : Qc) :
  d < 0 ->
  calculateEaseIn (Fin t) (Fin d) (Fin D) (Fin s)
  = Fin (s + D * (clamp1 (t / d) * clamp1 (t / d))).
Proof.
  intro H. unfold calculateEaseIn, Math_pow2. js_ops.
  rewrite (div_Fin_neg _ H). unfold clamp1, gtb, ltb, of_Z.
  change (Q2Qc (inject_Z 1)) with 1.
  destruct (Qcltb 1 (t / d)); reflexivity.
Qed.

Lemma clamp1_le (p : Qc) : p <= 1 -> clamp1 p = p.
Proof.
  intro H. unfold clamp1.
  now rewrite (proj2 (Qcltb_false_iff 1 p) H).
Qed.

Lemma clamp1_gt (p : Qc) : 1 < p -> clamp1 p = 1.
Proof.
  intro H. unfold clamp1.
  now rewrite (proj2 (Qcltb_true_iff 1 p) H).
Qed.

(** C7.  For every start, distance and duration [d > 0], ease-out at time
    0 is the start and at time [d] is start + distance, and so is
    ease-in. *)
Theorem easing_boundary_values (start distance d : Qc) :
  0 < d ->
  calculateEaseOut (Fin 0) (Fin d) (Fin distance) (Fin start) = Fin start
  /\ calculateEaseOut (Fin d) (Fin d) (Fin distance) (Fin start)
     = Fin (start + distance)
  /\ calculateEaseIn (Fin 0) (Fin d) (Fin distance) (Fin start) = Fin start
  /\ calculateEaseIn (Fin d) (Fin d) (Fin distance) (Fin start)
     = Fin (start + distance).
Proof.
  intro H.
  assert (P0 : clamp1 (0 / d) = 0).
  { assert (E : 0 / d = 0) by (to_Q; field; intro; lra).
    rewrite E. apply clamp1_le. to_Q. lra. }
  assert (P1 : clamp1 (d / d) = 1).
  { assert (E : d / d = 1) by (to_Q; field; intro; lra).
    rewrite E. apply clamp1_le. to_Q. lra. }
  rewrite !easeOut_Fin, !easeIn_Fin, P0, P1 by exact H.
  repeat split; f_equal; to_Q; ring.
Qed.



Lemma Qcdiv_le_mono (a b d : Qc) : 0 < d -> a <= b -> a / d <= b / d.
Proof.
  intros Hd Hab. to_Q.
  assert (I : (0 < / d)%Q) by (apply Qinv_lt_0_compat; exact Hd).
  unfold Qdiv. nra.
Qed.

Lemma Qcdiv_self (d : Qc) : 0 < d -> d / d = 1.
Proof. intro H. to_Q. field. intro; lra. Qed.








(** * Control flow of the triggers and of the per-frame update

    These properties do not depend on the arithmetic: they hold for every
    instance of [Number], binary64 included. *)

Section Control.

Context {N : Type} {NumN : Number N}.
Local Open Scope js_scope.

Ltac run := unfold bind, millis, ret; cbn [fst snd].

Lemma draw_tween_frame (this : AnimatableShape N) (c : Clock N) :
  let r := draw_tween this c in
  animationStretch (fst r) = animationStretch this
  /\ animationShrink (fst r) = animationShrink this
  /\ shape_width (fst r) = shape_width this
  /\ shape_height (fst r) = shape_height this
  /\ ticks (snd r) = ticks c
  /\ reads (snd r)
     = (reads c + if isAnimating (animationTween this) then 1 else 0)%nat.
Proof.
  unfold draw_tween.
  destruct (isAnimating (animationTween this)); run.
  - match goal with |- context [if ?b then _ else _] => destruct b end;
      cbn; repeat split; lia.
  - cbn; repeat split; lia.
Qed.

Lemma draw_stretch_frame (this : AnimatableShape N) (c : Clock N) :
  let r := draw_stretch this c in
  animationTween (fst r) = animationTween this
  /\ shape_x (fst r) = shape_x this
  /\ shape_y (fst r) = shape_y this
  /\ ticks (snd r) = ticks c.
Proof.
  unfold draw_stretch.
  destruct (isAnimating (animationStretch this)); run.
  - match goal with |- context [if ?b then _ else _] => destruct b end;
      cbn; repeat split.
  - cbn; repeat split.
Qed.

Lemma draw_shrink_frame (this : AnimatableShape N) (c : Clock N) :
  let r := draw_shrink this c in
  animationTween (fst r) = animationTween this
  /\ animationStretch (fst r) = animationStretch this
  /\ shape_x (fst r) = shape_x this
  /\ shape_y (fst r) = shape_y this
  /\ animStartTime (animationShrink (fst r))
     = animStartTime (animationShrink this)
  /\ ticks (snd r) = ticks c.
Proof.
  unfold draw_shrink.
  destruct (isAnimating (animationShrink this)); run.
  - match goal with |- context [if ?b then _ else _] => destruct b end;
      cbn; repeat split.
  - cbn; repeat split.
Qed.

Lemma draw_unfold (this : AnimatableShape N) (c : Clock N) :
  draw this c
  = draw_shrink (fst (draw_stretch (fst (draw_tween this c))
                                   (snd (draw_tween this c))))
                (snd (draw_stretch (fst (draw_tween this c))
                                   (snd (draw_tween this c)))).
Proof.
  unfold draw, bind.
  destruct (draw_tween this c) as [s1 c1]. cbn [fst snd].
  destruct (draw_stretch s1 c1) as [s2 c2]. reflexivity.
Qed.

(** C4.  [tween(finalX, finalY, duration)] replaces the tween slot with a
    new Animation that starts at the shape's current (x, y), ends at
    (finalX, finalY), is stamped with the current clock reading and is
    running.  The shape is arbitrary: also one whose prior tween is
    mid-flight. *)
Theorem tween_replaces_slot (this : AnimatableShape N)
        (finalX finalY duration : N) (c : Clock N) :
  let a := animationTween (fst (tween this finalX finalY duration c)) in
  animStartX a = shape_x this
  /\ animStartY a = shape_y this
  /\ animDestinationX a = finalX
  /\ animDestinationY a = finalY
  /\ animStartTime a = ticks c (reads c)
  /\ isAnimating a = true
  /\ animDuration a = duration
  /\ animDistanceX a = finalX - shape_x this
  /\ animDistanceY a = finalY - shape_y this.
Proof. unfold tween. run. cbn. repeat split. Qed.

(** C3.  In an update in which the stretch animation is
    running and its elapsed time exceeds its duration, the stretch block
    clears the stretch flag, stamps the shrink animation with the next
    clock reading and sets the shrink flag; the stretch flag and the stamp
    are still so when the update returns.  The shrink block of the same
    update then runs with a clock reading of its own: when the update
    returns, the shrink flag is set if and only if the time from the stamp
    to that reading does not exceed the shrink duration. *)
Theorem stretch_hand_off (this : AnimatableShape N) (c : Clock N) :
  let a := animationStretch this in
  let r1 := draw_tween this c in
  let now := ticks c (reads (snd r1)) in
  let stamp := ticks c (S (reads (snd r1))) in
  isAnimating a = true ->
  (elapsed now (animStartTime a) >? animDuration a) = true ->
  let r2 := draw_stretch (fst r1) (snd r1) in
  isAnimating (animationStretch (fst r2)) = false
  /\ animStartTime (animationShrink (fst r2)) = stamp
  /\ isAnimating (animationShrink (fst r2)) = true
  /\ draw this c = draw_shrink (fst r2) (snd r2)
  /\ isAnimating (animationStretch (fst (draw this c))) = false
  /\ animStartTime (animationShrink (fst (draw this c))) = stamp
  /\ isAnimating (animationShrink (fst (draw this c)))
     = negb (elapsed (ticks c (S (S (reads (snd r1))))) stamp
             >? animDuration (animationShrink this)).
Proof.
  intros a r1 now stamp Hrun Hgt r2.
  destruct (draw_tween_frame this c) as (F1 & F2 & _ & _ & F3 & _).
  fold r1 in F1, F2, F3.
  assert (R2 : isAnimating (animationStretch (fst r2)) = false
               /\ animStartTime (animationShrink (fst r2)) = stamp
               /\ isAnimating (animationShrink (fst r2)) = true).
  { subst r2. unfold draw_stretch. rewrite F1. fold a. rewrite Hrun. run.
    rewrite F3. fold now. unfold elapsed in Hgt. rewrite Hgt.
    cbn. rewrite ?F3. repeat split. }
  assert (R3 : animDuration (animationShrink (fst r2))
               = animDuration (animationShrink this)
               /\ ticks (snd r2) = ticks c
               /\ reads (snd r2) = S (S (reads (snd r1)))).
  { subst r2. unfold draw_stretch. rewrite F1. fold a. rewrite Hrun. run.
    rewrite F3. fold now. unfold elapsed in Hgt. rewrite Hgt.
    cbn. rewrite ?F2, ?F3. repeat split. }
  destruct R2 as (A & B & C). destruct R3 as (D1 & D2 & D3).
  assert (D : draw this c = draw_shrink (fst r2) (snd r2))
    by apply draw_unfold.
  destruct (draw_shrink_frame (fst r2) (snd r2)) as (_ & G1 & _ & _ & G2 & _).
  rewrite D, G1, G2. repeat split; try assumption.
  unfold draw_shrink. rewrite C. run.
  rewrite D1, D2, D3, B. unfold elapsed.
  match goal with |- context [if ?b then _ else _] => destruct b end;
    cbn; try exact C; reflexivity.
Qed.

(** C10.  In every reachable state the stretch flag and the shrink flag
    are not both set. *)
Theorem stretch_shrink_exclusive (s : AnimatableShape N) :
  reachable s ->
  isAnimating (animationStretch s) && isAnimating (animationShrink s) = false.
Proof.
  induction 1 as [ | s fx fy d c R IH | s m d c R IH | s c R IH ].
  - reflexivity.
  - exact IH.
  - reflexivity.
  - rewrite draw_unfold.
    destruct (draw_tween_frame s c) as (F1 & F2 & _).
    set (r1 := draw_tween s c) in *.
    assert (I1 : isAnimating (animationStretch (fst r1))
                 && isAnimating (animationShrink (fst r1)) = false)
      by (rewrite F1, F2; exact IH).
    clearbody r1. destruct r1 as [s1 c1]. cbn [fst snd] in *.
    clear F1 F2 IH R.
    unfold draw_stretch.
    destruct (isAnimating (animationStretch s1)) eqn:E1.
    + cbn [andb] in I1. run.
      match goal with |- context [if ?b then _ else _] => destruct b end.
      * cbn [fst snd]. unfold draw_shrink. cbn [animationShrink
          set_animationShrink set_isAnimating isAnimating]. run.
        match goal with |- context [if ?b then _ else _] => destruct b end;
          reflexivity.
      * cbn [fst snd]. unfold draw_shrink. cbn [animationShrink
          set_height set_width]. rewrite I1. cbn.
        rewrite E1, I1. reflexivity.
    + run. unfold draw_shrink.
      destruct (isAnimating (animationShrink s1)); run.
      * match goal with |- context [if ?b then _ else _] => destruct b end;
          cbn; rewrite E1; reflexivity.
      * cbn. rewrite E1. reflexivity.
Qed.

End Control.

(** * A finished tween and a duration of zero

    These properties use the arithmetic only through [NumberLaws]: they
    hold for binary64 and for the exact model alike. *)

Section Completion.

Context {N : Type} {NumN : Number N} {LawsN : NumberLaws N}.
Local Open Scope js_scope.

(** At a percentage of 1, from the clamp or by itself, both easings return
    position + distance. *)
Lemma easeOut_full (t d dist pos : N) :
  (t / d >? num_of_Z 1) = true \/ t / d = num_of_Z 1 ->
  calculateEaseOut t d dist pos = pos + dist.
Proof.
  intro H. unfold calculateEaseOut.
  assert (P : (if t / d >? num_of_Z 1 then num_of_Z 1 else t / d)
              = num_of_Z 1).
  { destruct H as [H | H]; [now rewrite H | ].
    rewrite H. now destruct (num_of_Z 1 >? num_of_Z 1). }
  rewrite P. now rewrite (ease_out_full (NumberLaws := LawsN)).
Qed.

Lemma easeIn_full (t d dist pos : N) :
  (t / d >? num_of_Z 1) = true \/ t / d = num_of_Z 1 ->
  calculateEaseIn t d dist pos = pos + dist.
Proof.
  intro H. unfold calculateEaseIn, Math_pow2.
  assert (P : (if t / d >? num_of_Z 1 then num_of_Z 1 else t / d)
              = num_of_Z 1).
  { destruct H as [H | H]; [now rewrite H | ].
    rewrite H. now destruct (num_of_Z 1 >? num_of_Z 1). }
  rewrite P. now rewrite (ease_in_full (NumberLaws := LawsN)).
Qed.

(** Past a duration that is above zero, or is the zero of the literal
    [0], the quotient time / duration exceeds 1 or is 1. *)
Lemma past_duration_percentage (t d : N) :
  (d >? num_of_Z 0) = true \/ d = num_of_Z 0 ->
  (t >? d) = true ->
  (t / d >? num_of_Z 1) = true \/ t / d = num_of_Z 1.
Proof.
  intros [Hd | Hd] Ht.
  - exact (div_above_one (NumberLaws := LawsN) _ _ Hd Ht).
  - subst d. left. exact (div_zero_above_one (NumberLaws := LawsN) _ Ht).
Qed.

(** Past the duration: the flag is cleared and the position is the
    ease-out value; at a percentage of 1 it is start + distance. *)
Lemma tween_past_duration (this : AnimatableShape N) (c : Clock N) :
  let a := animationTween this in
  let t := elapsed (ticks c (reads c)) (animStartTime a) in
  isAnimating a = true ->
  (t >? animDuration a) = true ->
  let this' := fst (draw this c) in
  isAnimating (animationTween this') = false
  /\ shape_x this'
     = calculateEaseOut t (animDuration a) (animDistanceX a) (animStartX a)
  /\ shape_y this'
     = calculateEaseOut t (animDuration a) (animDistanceY a) (animStartY a)
  /\ ((t / animDuration a >? num_of_Z 1) = true
      \/ t / animDuration a = num_of_Z 1 ->
      shape_x this' = animStartX a + animDistanceX a
      /\ shape_y this' = animStartY a + animDistanceY a)
  /\ ((animDuration a >? num_of_Z 0) = true
      \/ animDuration a = num_of_Z 0 ->
      shape_x this' = animStartX a + animDistanceX a
      /\ shape_y this' = animStartY a + animDistanceY a).
Proof.
  intros a t Hrun Hgt this'.
  assert (XY : isAnimating (animationTween this') = false
               /\ shape_x this'
                  = calculateEaseOut t (animDuration a) (animDistanceX a)
                                     (animStartX a)
               /\ shape_y this'
                  = calculateEaseOut t (animDuration a) (animDistanceY a)
                                     (animStartY a)).
  { subst this'. rewrite draw_unfold.
    destruct (draw_shrink_frame
                (fst (draw_stretch (fst (draw_tween this c))
                                   (snd (draw_tween this c))))
                (snd (draw_stretch (fst (draw_tween this c))
                                   (snd (draw_tween this c)))))
      as (T3 & _ & X3 & Y3 & _).
    destruct (draw_stretch_frame (fst (draw_tween this c))
                                 (snd (draw_tween this c)))
      as (T2 & X2 & Y2 & _).
    rewrite T3, X3, Y3, T2, X2, Y2.
    unfold draw_tween. fold a. rewrite Hrun.
    unfold bind, millis, ret. cbn [fst snd].
    subst t. unfold elapsed in Hgt |- *. rewrite Hgt.
    cbn [fst snd shape_x shape_y animationTween isAnimating
         set_animationTween set_isAnimating set_x set_y].
    repeat split. }
  destruct XY as (F & X & Y).
  split; [exact F | split; [exact X | split; [exact Y | ]]].
  assert (K : (t / animDuration a >? num_of_Z 1) = true
              \/ t / animDuration a = num_of_Z 1 ->
              shape_x this' = animStartX a + animDistanceX a
              /\ shape_y this' = animStartY a + animDistanceY a).
  { intro P. rewrite X, Y. split; apply easeOut_full; exact P. }
  split; [exact K | ].
  intro Hd. apply K. eapply past_duration_percentage; eassumption.
Qed.

(** C6.  With a duration that is the zero of the literal [0]
    and an elapsed time above zero, the quotient exceeds 1, the percentage
    is clamped to 1 and both easings return position + distance, in the
    arithmetic of the program.  With that duration and an elapsed time that
    is the same zero, the quotient [0 / 0] is [NaN] and so is the result
    of both easings. *)
Theorem easing_zero_duration (time distance position : N) :
  (time >? num_of_Z 0) = true ->
  calculateEaseIn time (num_of_Z 0) distance position = position + distance
  /\ calculateEaseOut time (num_of_Z 0) distance position
     = position + distance
  /\ calculateEaseIn (num_of_Z 0) (num_of_Z 0) distance position = js_NaN
  /\ calculateEaseOut (num_of_Z 0) (num_of_Z 0) distance position = js_NaN.
Proof.
  intro Hgt.
  pose proof (div_zero_above_one (NumberLaws := LawsN) _ Hgt) as P.
  split; [apply easeIn_full; left; exact P | ].
  split; [apply easeOut_full; left; exact P | ].
  split.
  - unfold calculateEaseIn, Math_pow2. fold (@js_NaN N _).
    rewrite (nan_not_above (NumberLaws := LawsN)),
            (mul_nan_l (NumberLaws := LawsN)),
            (mul_nan_r (NumberLaws := LawsN)).
    apply (add_nan_r (NumberLaws := LawsN)).
  - unfold calculateEaseOut. fold (@js_NaN N _).
    rewrite (nan_not_above (NumberLaws := LawsN)),
            (mul_nan_r (NumberLaws := LawsN)),
            (mul_nan_l (NumberLaws := LawsN)).
    apply (add_nan_r (NumberLaws := LawsN)).
Qed.

End Completion.

(** C5.  For every running tween, an update whose elapsed
    time, as the update computes it, strictly exceeds the duration clears
    the running flag and sets x and y to the ease-out value of that
    elapsed time.  If the duration is above zero, or is the zero of the
    literal [0], x and y are then start + distance, in the arithmetic of
    the program: the quotient elapsed / duration exceeds 1 or is 1, and
    the percentage is 1.  The same holds whenever the quotient, as the
    easing computes it, exceeds 1 or is 1.  All this for every arithmetic
    with the laws of [NumberLaws], binary64 among them.  In particular, in
    binary64: the shape at (100, 100) after [tween(200, 300, 1.0)] at
    2000 ms, updated at 3100 ms, is exactly at (200, 300) and its tween
    has stopped. *)
Theorem tween_completion :
  (forall (N : Type) (NumN : Number N) (LawsN : NumberLaws N)
          (this : AnimatableShape N) (c : Clock N),
      let a := animationTween this in
      let t := elapsed (ticks c (reads c)) (animStartTime a) in
      isAnimating a = true ->
      (t >? animDuration a)%js = true ->
      let this' := fst (draw this c) in
      isAnimating (animationTween this') = false
      /\ shape_x this'
         = calculateEaseOut t (animDuration a) (animDistanceX a)
                            (animStartX a)
      /\ shape_y this'
         = calculateEaseOut t (animDuration a) (animDistanceY a)
                            (animStartY a)
      /\ ((t / animDuration a >? num_of_Z 1)%js = true
          \/ (t / animDuration a)%js = num_of_Z 1 ->
          shape_x this' = (animStartX a + animDistanceX a)%js
          /\ shape_y this' = (animStartY a + animDistanceY a)%js)
      /\ ((animDuration a >? num_of_Z 0)%js = true
          \/ animDuration a = num_of_Z 0 ->
          shape_x this' = (animStartX a + animDistanceX a)%js
          /\ shape_y this' = (animStartY a + animDistanceY a)%js))
  /\ (shape_x (fst (draw (fst tween_1s_b64) (snd tween_1s_b64))) = 200%float
      /\ shape_y (fst (draw (fst tween_1s_b64) (snd tween_1s_b64)))
         = 300%float
      /\ isAnimating
           (animationTween (fst (draw (fst tween_1s_b64) (snd tween_1s_b64))))
         = false).
Proof.
  split.
  - intros N NumN LawsN this c. apply tween_past_duration.
  - repeat split.
Qed.

(** * The triggers and the update in the exact model *)

Lemma mul_2_twice (m : num) : mul (of_Z 2) m = add m m.
Proof.
  destruct m as [q | | | ]; try reflexivity.
  cbn. f_equal. to_Q. ring.
Qed.

(** C2.  [stretchIn(maxScale, duration)] first replaces a [maxScale] below
    1 by 1; the stretch lasts [(maxScale / (2 * maxScale - 1)) * duration]
    and the shrink [duration] minus that.  [stretchIn(1.5, 1.0)] gives 0.75
    and 0.25. *)
Theorem stretchIn_durations (this : AnimatableShape num)
        (maxScale duration : num) (c : Clock num) :
  let m := if ltb maxScale (of_Z 1) then of_Z 1 else maxScale in
  let s' := fst (stretchIn this maxScale duration c) in
  let s15 := fst (stretchIn this (Fin (Q2Qc 1.5)) (Fin (Q2Qc 1)) c) in
  animDuration (animationStretch s')
  = mul (div m (sub (mul (of_Z 2) m) (of_Z 1))) duration
  /\ animDuration (animationShrink s')
     = sub duration (animDuration (animationStretch s'))
  /\ animDuration (animationStretch s15) = Fin (Q2Qc 0.75)
  /\ animDuration (animationShrink s15) = Fin (Q2Qc 0.25).
Proof.
  intros m s' s15. subst s' s15. unfold stretchIn.
  unfold bind, millis, ret. cbn [fst snd]. js_ops. fold m.
  rewrite mul_2_twice.
  split; [reflexivity | split; [reflexivity | ]].
  split; cbn; f_equal; apply Qc_is_canon; reflexivity.
Qed.

(** ** Past the duration *)

Lemma percentage_past_duration (tp : num) (d : Qc) :
  0 <= d -> gtb tp (Fin d) = true ->
  (if gtb (div tp (Fin d)) (of_Z 1) then of_Z 1 else div tp (Fin d)) = of_Z 1.
Proof.
  intros Hd Hgt.
  destruct tp as [t | | | ]; cbn in Hgt; try discriminate.
  - apply Qcltb_true_iff in Hgt.
    destruct (Qcle_lt_or_eq _ _ Hd) as [Hpos | H0].
    + rewrite (div_Fin_pos _ Hpos).
      assert (L : 1 < t / d).
      { rewrite <- (Qcdiv_self Hpos). to_Q.
        assert (I : (0 < / d)%Q) by (apply Qinv_lt_0_compat; exact Hpos).
        unfold Qdiv. nra. }
      unfold gtb, ltb, of_Z. change (Q2Qc (inject_Z 1)) with 1.
      now rewrite (proj2 (Qcltb_true_iff _ _) L).
    + subst d. unfold div.
      replace (t ?= 0) with Gt by (symmetry; apply Qcgt_alt; exact Hgt).
      reflexivity.
  - unfold div.
    replace (Qcltb d 0) with false
      by (symmetry; apply Qcltb_false_iff; exact Hd).
    reflexivity.
Qed.

Lemma mul_1_1 (a : num) : mul a (mul (of_Z 1) (of_Z 1)) = a.
Proof.
  destruct a as [q | | | ]; try reflexivity.
  cbn. f_equal. to_Q. ring.
Qed.

Lemma mul_neg1_1_neg1 (a : num) :
  mul (mul (mul (of_Z (-1)) a) (of_Z 1)) (sub (of_Z 1) (of_Z 2)) = a.
Proof.
  destruct a as [q | | | ]; try reflexivity.
  cbn. f_equal. to_Q. ring.
Qed.

Lemma add_sub_Fin (dest : num) (s : Qc) : add (Fin s) (sub dest (Fin s)) = dest.
Proof.
  destruct dest as [q | | | ]; try reflexivity.
  cbn. f_equal. to_Q. ring.
Qed.

(** Past a duration that is not negative the percentage is clamped to 1
    and both easings return start + distance. *)
Lemma easeOut_past_duration (tp dist pos : num) (d : Qc) :
  0 <= d -> gtb tp (Fin d) = true ->
  calculateEaseOut tp (Fin d) dist pos = add pos dist.
Proof.
  intros Hd Hgt. unfold calculateEaseOut. js_ops.
  rewrite (percentage_past_duration _ Hd Hgt).
  now rewrite mul_neg1_1_neg1.
Qed.

Lemma easeIn_past_duration (tp dist pos : num) (d : Qc) :
  0 <= d -> gtb tp (Fin d) = true ->
  calculateEaseIn tp (Fin d) dist pos = add pos dist.
Proof.
  intros Hd Hgt. unfold calculateEaseIn, Math_pow2. js_ops.
  rewrite (percentage_past_duration _ Hd Hgt). now rewrite mul_1_1.
Qed.

(** In exact arithmetic, with a negative duration and an elapsed time that
    is not negative the percentage [t / duration] is at most 0 and is not
    clamped. *)
Lemma easing_negative_duration (t d D s : Qc) :
  d < 0 -> 0 <= t ->
  calculateEaseIn (Fin t) (Fin d) (Fin D) (Fin s)
  = Fin (s + D * ((t / d) * (t / d)))
  /\ calculateEaseOut (Fin t) (Fin d) (Fin D) (Fin s)
     = Fin (s + Q2Qc (inject_Z (-1)) * D * (t / d)
                * (t / d - Q2Qc (inject_Z 2))).
Proof.
  intros Hneg Ht.
  assert (Hp : t / d <= 1).
  { to_Q.
    assert (E : (d * / d == 1)%Q) by (apply Qmult_inv_r; intro; lra).
    assert (I : (/ d < 0)%Q) by nra.
    unfold Qdiv. nra. }
  rewrite easeIn_Fin_neg, easeOut_Fin_neg by exact Hneg.
  now rewrite (clamp1_le Hp).
Qed.

(** ** The stretch and shrink blocks read the axes crosswise *)

(** What the stretch block does past the duration: the width takes the Y
    destination of the stretch animation and the height its X
    destination. *)
Lemma draw_stretch_reaches_crosswise (this : AnimatableShape num)
      (c : Clock num) (sx sy d : Qc) :
  let a := animationStretch this in
  isAnimating a = true ->
  animStartX a = Fin sx ->
  animStartY a = Fin sy ->
  animDistanceX a = sub (animDestinationX a) (animStartX a) ->
  animDistanceY a = sub (animDestinationY a) (animStartY a) ->
  animDuration a = Fin d ->
  0 <= d ->
  gtb (elapsed (ticks c (reads c)) (animStartTime a)) (animDuration a) = true ->
  let this' := fst (draw_stretch this c) in
  shape_width this' = animDestinationY a
  /\ shape_height this' = animDestinationX a.
Proof.
  intros a Hrun Hsx Hsy HdX HdY Hdur Hd Hgt this'.
  subst this'. unfold draw_stretch. fold a. rewrite Hrun.
  unfold bind, millis, ret. cbn [fst snd].
  unfold elapsed in Hgt. cbn [num_gt Exact_Number].
  rewrite Hgt. cbn [fst snd shape_width shape_height set_animationShrink
                    set_animationStretch set_width set_height].
  rewrite Hdur in Hgt |- *.
  rewrite !(easeOut_past_duration _ _ _ Hd Hgt).
  rewrite HdX, HdY, Hsx, Hsy, !add_sub_Fin.
  split; reflexivity.
Qed.

Ltac exact_eval :=
  vm_compute; repeat (f_equal; try (apply Qc_is_canon; reflexivity)).

(** C1.  A 20 x 40 shape after [stretchIn(1.5, 1.0)].  An update at
    750 ms (percentage exactly 1, stretch still running) and an update at
    1000 ms (percentage clamped to 1, hand-off) both leave the width at
    60 = 1.5 * height and the height at 30 = 1.5 * width; the update at
    2000 ms (shrink, percentage clamped to 1) leaves the width at 40, the
    old height, and the height at 20, the old width.  Binary64 computes
    the same values. *)
Theorem stretch_swaps_width_and_height :
  (shape_width (after_draws 1 (@stretch_triggered num _ stretch_readings_750))
   = of_Z 60
   /\ shape_height (after_draws 1 (@stretch_triggered num _ stretch_readings_750))
      = of_Z 30
   /\ isAnimating (animationStretch
        (after_draws 1 (@stretch_triggered num _ stretch_readings_750))) = true)
  /\ (shape_width (after_draws 1 (@stretch_triggered num _ stretch_readings))
      = of_Z 60
      /\ shape_height (after_draws 1 (@stretch_triggered num _ stretch_readings))
         = of_Z 30
      /\ isAnimating (animationShrink
           (after_draws 1 (@stretch_triggered num _ stretch_readings))) = true)
  /\ (shape_width (after_draws 2 (@stretch_triggered num _ stretch_readings))
      = of_Z 40
      /\ shape_height (after_draws 2 (@stretch_triggered num _ stretch_readings))
         = of_Z 20
      /\ isAnimating (animationShrink
           (after_draws 2 (@stretch_triggered num _ stretch_readings))) = false)
  /\ (shape_width (after_draws 1 (@stretch_triggered float _ stretch_readings_750))
      = 60%float
      /\ shape_height
           (after_draws 1 (@stretch_triggered float _ stretch_readings_750))
         = 30%float
      /\ shape_width (after_draws 1 (@stretch_triggered float _ stretch_readings))
         = 60%float
      /\ shape_height (after_draws 1 (@stretch_triggered float _ stretch_readings))
         = 30%float
      /\ shape_width (after_draws 2 (@stretch_triggered float _ stretch_readings))
         = 40%float
      /\ shape_height (after_draws 2 (@stretch_triggered float _ stretch_readings))
         = 20%float).
Proof.
  repeat split; try (vm_compute; reflexivity); exact_eval.
Qed.

(** * The laws in the two instances *)

(** ** Exact arithmetic *)

#[export] Instance Exact_Laws : NumberLaws num.
Proof.
  split.
  - exact mul_neg1_1_neg1.
  - exact mul_1_1.
  - intros t H. destruct t as [q | | | ]; cbn in H; try discriminate.
    + apply Qcltb_true_iff in H. cbn.
      match goal with
      | |- context [q ?= ?z] =>
          replace (q ?= z) with Gt by (symmetry; apply Qcgt_alt; exact H)
      end.
      reflexivity.
    + reflexivity.
  - intros t d Hd Ht.
    destruct d as [q | | | ]; cbn in Hd; try discriminate.
    + apply Qcltb_true_iff in Hd.
      change (Q2Qc (inject_Z 0)) with (Q2Qc 0) in Hd.
      destruct t as [p | | | ]; cbn in Ht; try discriminate.
      * apply Qcltb_true_iff in Ht. left.
        cbn [num_div num_gt num_of_Z Exact_Number].
        rewrite (div_Fin_pos _ Hd). unfold gtb, ltb, of_Z.
        apply Qcltb_true_iff.
        change (Q2Qc (inject_Z 1)) with 1.
        rewrite <- (Qcdiv_self Hd). to_Q.
        assert (I : (0 < / q)%Q) by (apply Qinv_lt_0_compat; exact Hd).
        unfold Qdiv. nra.
      * left. cbn [num_div num_gt num_of_Z Exact_Number]. unfold div.
        replace (Qcltb q 0) with false
          by (symmetry; apply Qcltb_false_iff; apply Qclt_le_weak; exact Hd).
        reflexivity.
    + destruct t; discriminate Ht.
  - intro a. destruct a; reflexivity.
  - intro a. destruct a; reflexivity.
  - intro a. destruct a; reflexivity.
  - intro a. destruct a; reflexivity.
  - intro a. destruct a; reflexivity.
  - intro a. destruct a; reflexivity.
Qed.

(** ** Binary64

    From the specification of the primitive floats: an operation on
    floats is the operation of [SpecFloat] on their images under
    [Prim2SF]. *)

(** A mantissa times 2^52, at an exponent lowered by 52, rounds back to
    the float it came from. *)
Lemma digits2_shift52 (m : positive) :
  Zpos (digits2_pos (4503599627370496 * m)%positive)
  = (Zpos (digits2_pos m) + 52)%Z.
Proof. cbn [Pos.mul digits2_pos]. lia. Qed.

Lemma round_aux_shift52 (s : bool) (m : positive) (e : Z) :
  bounded prec emax m e = true ->
  binary_round_aux prec emax s (Zpos (4503599627370496 * m)%positive)
                   (e + -52)%Z loc_Exact
  = S754_finite s m e.
Proof.
  intro B. unfold bounded in B. apply andb_prop in B. destruct B as [C L].
  unfold canonical_mantissa in C. apply Z.eqb_eq in C.
  unfold binary_round_aux, shr_fexp.
  unfold Zdigits2 at 1. rewrite digits2_shift52.
  replace (Zpos (digits2_pos m) + 52 + (e + -52))%Z
    with (Zpos (digits2_pos m) + e)%Z by lia.
  rewrite C.
  replace (e - (e + -52))%Z with 52%Z by lia.
  cbn [shr shr_record_of_loc Pos.mul].
  cbn [iter_pos shr_1 orb].
  cbn [loc_of_shr_record shr_m round_nearest_even Zdigits2].
  replace (e + -52 + 52)%Z with e by lia.
  rewrite C, Z.sub_diag. cbn [shr shr_record_of_loc shr_m].
  rewrite L. reflexivity.
Qed.

Lemma Prim2SF_one :
  Prim2SF 1%float = S754_finite false 4503599627370496 (-52).
Proof. reflexivity. Qed.

Lemma Prim2SF_neg_one :
  Prim2SF (-1)%float = S754_finite true 4503599627370496 (-52).
Proof. reflexivity. Qed.

Lemma Prim2SF_nan : Prim2SF (0 / 0)%float = S754_nan.
Proof. reflexivity. Qed.

Lemma float_mul_1_r (x : float) : (x * 1)%float = x.
Proof.
  apply Prim2SF_inj. rewrite mul_spec, Prim2SF_one.
  pose proof (Prim2SF_valid x) as V.
  destruct (Prim2SF x) as [s | s | | s m e]; try (destruct s; reflexivity);
    try reflexivity.
  unfold SF64mul, SFmul. rewrite xorb_false_r, Pos.mul_comm.
  apply round_aux_shift52. exact V.
Qed.

Lemma float_mul_neg1_l (x : float) : ((-1) * x)%float = (- x)%float.
Proof.
  apply Prim2SF_inj. rewrite mul_spec, opp_spec, Prim2SF_neg_one.
  pose proof (Prim2SF_valid x) as V.
  destruct (Prim2SF x) as [s | s | | s m e]; try (destruct s; reflexivity);
    try reflexivity.
  unfold SF64mul, SFmul. cbn [xorb SFopp].
  replace (-52 + e)%Z with (e + -52)%Z by lia.
  replace (if s then false else true) with (negb s)
    by (destruct s; reflexivity).
  apply round_aux_shift52. exact V.
Qed.

Lemma float_mul_neg1_r (x : float) : (x * (-1))%float = (- x)%float.
Proof.
  apply Prim2SF_inj. rewrite mul_spec, opp_spec, Prim2SF_neg_one.
  pose proof (Prim2SF_valid x) as V.
  destruct (Prim2SF x) as [s | s | | s m e]; try (destruct s; reflexivity);
    try reflexivity.
  unfold SF64mul, SFmul. cbn [SFopp]. rewrite xorb_true_r, Pos.mul_comm.
  apply round_aux_shift52. exact V.
Qed.

Lemma float_opp_involutive (x : float) : (- - x)%float = x.
Proof.
  apply Prim2SF_inj. rewrite !opp_spec.
  destruct (Prim2SF x) as [s | s | | s m e]; cbn; rewrite ?negb_involutive;
    reflexivity.
Qed.

Lemma float_div_zero_above_one (t : float) :
  (0 <? t)%float = true -> (1 <? t / 0)%float = true.
Proof.
  intro H. rewrite ltb_spec in H. rewrite ltb_spec, div_spec.
  change (Prim2SF 0%float) with (S754_zero false) in *.
  rewrite Prim2SF_one.
  destruct (Prim2SF t) as [s | s | | s m e]; try (destruct s); cbn in *;
    try discriminate; reflexivity.
Qed.

(** *** Division of a larger by a smaller positive float *)

Section Binary64_Division.

Local Open Scope Z_scope.

(** Digits of a positive number. *)
Lemma digits2_pos_bounds (p : positive) :
  2 ^ (Zpos (digits2_pos p) - 1) <= Zpos p < 2 ^ Zpos (digits2_pos p).
Proof.
  induction p as [p IH | p IH | ]; cbn [digits2_pos].
  - rewrite Pos2Z.inj_succ.
    replace (Z.succ (Zpos (digits2_pos p)) - 1)
      with (Z.succ (Zpos (digits2_pos p) - 1)) by lia.
    rewrite !Z.pow_succ_r by lia. lia.
  - rewrite Pos2Z.inj_succ.
    replace (Z.succ (Zpos (digits2_pos p)) - 1)
      with (Z.succ (Zpos (digits2_pos p) - 1)) by lia.
    rewrite !Z.pow_succ_r by lia. lia.
  - cbn. lia.
Qed.

Lemma digits2_pos_unique (p : positive) (d : Z) :
  2 ^ (d - 1) <= Zpos p < 2 ^ d -> 0 < d -> Zpos (digits2_pos p) = d.
Proof.
  intros [L U] Hd. destruct (digits2_pos_bounds p) as [L' U'].
  set (d' := Zpos (digits2_pos p)) in *.
  assert (Hd' : 0 < d') by (subst d'; lia).
  destruct (Z.lt_trichotomy d' d) as [H | [H | H]]; [ | exact H | ].
  - exfalso. assert (2 ^ d' <= 2 ^ (d - 1)) by (apply Z.pow_le_mono_r; lia).
    lia.
  - exfalso. assert (2 ^ d <= 2 ^ (d' - 1)) by (apply Z.pow_le_mono_r; lia).
    lia.
Qed.

Lemma digits_53 (p : positive) :
  4503599627370496 <= Zpos p < 9007199254740992 ->
  Zpos (digits2_pos p) = 53.
Proof.
  intro H. apply digits2_pos_unique; [ | lia].
  change (2 ^ (53 - 1)) with 4503599627370496.
  change (2 ^ 53) with 9007199254740992. exact H.
Qed.

Lemma digits_54 (p : positive) :
  9007199254740992 <= Zpos p < 18014398509481984 ->
  Zpos (digits2_pos p) = 54.
Proof.
  intro H. apply digits2_pos_unique; [ | lia].
  change (2 ^ (54 - 1)) with 9007199254740992.
  change (2 ^ 54) with 18014398509481984. exact H.
Qed.

Lemma fexp_above (z : Z) : -1021 <= z -> fexp prec emax z = z - 53.
Proof. intro H. unfold fexp, emin, prec, emax. lia. Qed.

Lemma finite_at_least_one (p : positive) (e : Z) :
  4503599627370496 <= Zpos p -> -52 <= e ->
  at_least_one (S754_finite false p e).
Proof.
  intros Hp He. unfold at_least_one, SF_one. cbn [SFcompare].
  destruct (Z.compare_spec (-52) e) as [E | L | G]; [ | left; reflexivity | lia].
  subst e.
  destruct (Pos.compare_spec 4503599627370496 p) as [E | L | G].
  - right. subst p. reflexivity.
  - left. rewrite Pos.compare_cont_spec.
    now rewrite (proj2 (Pos.compare_lt_iff _ _) L).
  - exfalso. apply Pos2Z.pos_lt_pos in G. apply Z.le_ngt in Hp. exact (Hp G).
Qed.

Lemma round_nearest_even_range (m : Z) (l : location) :
  m <= round_nearest_even m l <= m + 1.
Proof.
  unfold round_nearest_even.
  destruct l as [ | [ | | ]]; try destruct (Z.even m); lia.
Qed.

Lemma loc_of_shr_record_of_loc (m : Z) (l : location) :
  loc_of_shr_record (shr_record_of_loc m l) = l.
Proof. destruct l as [ | [ | | ]]; reflexivity. Qed.

Lemma shr_m_of_loc (m : Z) (l : location) : shr_m (shr_record_of_loc m l) = m.
Proof. destruct l as [ | [ | | ]]; reflexivity. Qed.

Lemma shr_1_halves (p : positive) (r s : bool) :
  2 * shr_m (shr_1 (Build_shr_record (Zpos p) r s)) <= Zpos p
  /\ Zpos p <= 2 * shr_m (shr_1 (Build_shr_record (Zpos p) r s)) + 1.
Proof. destruct p; cbn; lia. Qed.

(** The second half of [binary_round_aux]: a mantissa of 53 bits, or
    2^53 after rounding up, at an exponent of -52 or more. *)
Lemma round_finish (a E : Z) :
  4503599627370496 <= a <= 9007199254740992 -> -52 <= E ->
  at_least_one
    (let '(mrs, e) := shr_fexp prec emax a E loc_Exact in
     match shr_m mrs with
     | Z0 => S754_zero false
     | Zpos m => if e <=? emax - prec then S754_finite false m e
                 else S754_infinity false
     | Zneg _ => S754_nan
     end).
Proof.
  intros Ha HE. destruct a as [ | p | p]; try lia.
  destruct (Z.eq_dec (Zpos p) 9007199254740992) as [Top | NotTop].
  - injection Top as Top. subst p.
    unfold shr_fexp. cbn [Zdigits2 digits2_pos Pos.succ].
    rewrite fexp_above by lia.
    replace (54 + E - 53 - E) with 1 by lia.
    cbn [shr shr_record_of_loc iter_pos shr_1 shr_m orb].
    destruct (E + 1 <=? emax - prec).
    + apply finite_at_least_one; lia.
    + left. reflexivity.
  - unfold shr_fexp. unfold Zdigits2. rewrite digits_53 by lia.
    rewrite fexp_above by lia.
    replace (53 + E - 53 - E) with 0 by lia.
    cbn [shr shr_record_of_loc shr_m].
    destruct (E <=? emax - prec).
    + apply finite_at_least_one; lia.
    + left. reflexivity.
Qed.

(** Rounding a quotient of 53 or 54 bits. *)
Lemma round_quotient (q e : Z) (l : location) :
  (4503599627370496 <= q < 9007199254740992 /\ -52 <= e)
  \/ (9007199254740992 <= q < 18014398509481984 /\ -53 <= e) ->
  at_least_one (binary_round_aux prec emax false q e l).
Proof.
  intro H. unfold binary_round_aux.
  destruct H as [[Hq He] | [Hq He]].
  - destruct q as [ | p | p]; try lia.
    unfold shr_fexp at 1. unfold Zdigits2. rewrite digits_53 by lia.
    rewrite fexp_above by lia.
    replace (53 + e - 53 - e) with 0 by lia.
    cbn [shr]. rewrite loc_of_shr_record_of_loc, shr_m_of_loc.
    pose proof (round_nearest_even_range (Zpos p) l).
    apply round_finish; lia.
  - destruct q as [ | p | p]; try lia.
    unfold shr_fexp at 1. unfold Zdigits2. rewrite digits_54 by lia.
    rewrite fexp_above by lia.
    replace (54 + e - 53 - e) with 1 by lia.
    cbn [shr iter_pos].
    destruct (shr_record_of_loc (Zpos p) l) as [m r s] eqn:R.
    assert (Em : m = Zpos p).
    { rewrite <- (shr_m_of_loc (Zpos p) l), R. reflexivity. }
    subst m.
    pose proof (shr_1_halves p r s) as Hh.
    set (h := shr_1 {| shr_m := Zpos p; shr_r := r; shr_s := s |}) in *.
    pose proof (round_nearest_even_range (shr_m h) (loc_of_shr_record h)).
    apply round_finish; lia.
Qed.

Lemma bounded_canonical (m : positive) (e : Z) :
  bounded prec emax m e = true ->
  Zpos (digits2_pos m) <= 53
  /\ (-1074 < e -> Zpos (digits2_pos m) = 53)
  /\ -1074 <= e.
Proof.
  intro B. unfold bounded in B. apply andb_prop in B. destruct B as [C _].
  unfold canonical_mantissa in C. apply Z.eqb_eq in C.
  unfold fexp, emin, prec, emax in C. lia.
Qed.

(** A positive finite float divided by a smaller positive finite float is
    1 or above. *)
Lemma SFdiv_at_least_one (m1 m2 : positive) (e1 e2 : Z) :
  bounded prec emax m1 e1 = true ->
  bounded prec emax m2 e2 = true ->
  SFltb (S754_finite false m2 e2) (S754_finite false m1 e1) = true ->
  at_least_one
    (SFdiv prec emax (S754_finite false m1 e1) (S754_finite false m2 e2)).
Proof.
  intros B1 B2 L.
  destruct (bounded_canonical _ _ B1) as (D1 & N1 & E1).
  destruct (bounded_canonical _ _ B2) as (D2 & N2 & E2).
  destruct (digits2_pos_bounds m1) as (L1 & U1).
  destruct (digits2_pos_bounds m2) as (L2 & U2).
  set (d1 := Zpos (digits2_pos m1)) in *.
  set (d2 := Zpos (digits2_pos m2)) in *.
  assert (P1 : 0 < d1) by (subst d1; lia).
  assert (P2 : 0 < d2) by (subst d2; lia).
  (* what the comparison says *)
  assert (Cmp : e2 < e1 \/ (e2 = e1 /\ Zpos m2 < Zpos m1)).
  { unfold SFltb in L. cbn [SFcompare] in L.
    destruct (Z.compare_spec e2 e1) as [E | Lt | Gt];
      [right | left; exact Lt | discriminate L].
    split; [exact E | ].
    rewrite Pos.compare_cont_spec in L. cbn [Pos.switch_Eq] in L.
    destruct (Pos.compare_spec m2 m1) as [ | Lt | ]; try discriminate L.
    apply Pos2Z.pos_lt_pos. exact Lt. }
  (* the digits of the larger are at least those of the smaller *)
  assert (Dig : e2 = e1 -> d2 <= d1).
  { intro E. destruct Cmp as [C | [_ C]]; [lia | ].
    destruct (Z_le_gt_dec d2 d1) as [ | G]; [assumption | exfalso].
    assert (2 ^ d1 <= 2 ^ (d2 - 1)) by (apply Z.pow_le_mono_r; lia).
    lia. }
  assert (Dig1 : e2 < e1 -> d1 = 53) by (intro; apply N1; lia).
  unfold SFdiv, SFdiv_core_binary. cbn [xorb].
  change (Zdigits2 (Zpos m1)) with d1. change (Zdigits2 (Zpos m2)) with d2.
  rewrite fexp_above by lia.
  rewrite Z.min_l by lia.
  replace (e1 - e2 - (d1 + e1 - (d2 + e2) - 53)) with (53 - d1 + d2) by lia.
  set (s := 53 - d1 + d2).
  assert (Ps : 0 < s) by (subst s; lia).
  destruct s as [ | ps | ps] eqn:Es; try lia. rewrite <- Es.
  rewrite Z.shiftl_mul_pow2 by lia.
  (* the shifted numerator against the denominator *)
  assert (Pow : 2 ^ s * 2 ^ (d1 - 1) = 9007199254740992 * 2 ^ (d2 - 1)).
  { change 9007199254740992 with (2 ^ 53).
    rewrite <- !Z.pow_add_r by lia. f_equal. lia. }
  assert (T0 : 0 < 2 ^ s) by (apply Z.pow_pos_nonneg; lia).
  assert (Q0 : 0 < 2 ^ (d2 - 1)) by (apply Z.pow_pos_nonneg; lia).
  assert (U1' : Zpos m1 < 2 * 2 ^ (d1 - 1)).
  { replace d1 with (Z.succ (d1 - 1)) in U1 at 1 by lia.
    rewrite Z.pow_succ_r in U1 by lia. exact U1. }
  assert (U2' : Zpos m2 < 2 * 2 ^ (d2 - 1)).
  { replace d2 with (Z.succ (d2 - 1)) in U2 at 1 by lia.
    rewrite Z.pow_succ_r in U2 by lia. exact U2. }
  pose proof (Z_div_mod (Zpos m1 * 2 ^ s) (Zpos m2) eq_refl)
    as DM.
  destruct (Z.div_eucl (Zpos m1 * 2 ^ s) (Zpos m2)) as [q r].
  destruct DM as (DM & R0 & R1).
  set (T := 2 ^ s) in *. set (A := 2 ^ (d1 - 1)) in *.
  set (B := 2 ^ (d2 - 1)) in *.
  assert (W1 : 9007199254740992 * B <= Zpos m1 * T) by nia.
  assert (W2 : Zpos m1 * T < 18014398509481984 * B) by nia.
  assert (Qlo : 4503599627370496 <= q) by nia.
  assert (Qhi : q < 18014398509481984) by nia.
  apply round_quotient.
  destruct (Z_lt_ge_dec q 9007199254740992) as [Small | Big].
  - left. split; [lia | ].
    destruct Cmp as [C | [E C]].
    + specialize (Dig1 C). lia.
    + specialize (Dig E).
      destruct (Z.eq_dec d1 d2) as [Same | Diff]; [exfalso | lia].
      (* same exponent and digits: the quotient has 54 bits *)
      assert (Es' : s = 53) by lia.
      assert (T53 : T = 9007199254740992).
      { subst T. rewrite Es'. reflexivity. }
      assert (M2 : Zpos m2 < 9007199254740992).
      { assert (2 ^ d2 <= 2 ^ 53) by (apply Z.pow_le_mono_r; lia).
        change (2 ^ 53) with 9007199254740992 in *. lia. }
      nia.
  - right. split; [lia | ].
    destruct Cmp as [C | [E C]].
    + specialize (Dig1 C). lia.
    + specialize (Dig E). lia.
Qed.

(** A float above a positive float, divided by it, is above 1 or is 1. *)
Lemma float_div_above (t d : float) :
  (0 <? d)%float = true -> (d <? t)%float = true ->
  (1 <? t / d)%float = true \/ (t / d)%float = 1%float.
Proof.
  intros Hd Ht. rewrite ltb_spec in Hd, Ht.
  change (Prim2SF 0%float) with (S754_zero false) in Hd.
  assert (A : at_least_one (Prim2SF (t / d)%float)).
  { rewrite div_spec.
    pose proof (Prim2SF_valid t) as Vt. pose proof (Prim2SF_valid d) as Vd.
    destruct (Prim2SF d) as [sd | sd | | sd md ed];
      try destruct sd; cbn in Hd; try discriminate Hd.
    - (* the divisor is +Infinity: nothing is above it *)
      destruct (Prim2SF t) as [st | st | | st mt et];
        try destruct st; cbn in Ht; discriminate Ht.
    - destruct (Prim2SF t) as [st | st | | st mt et];
        try destruct st; cbn in Ht; try discriminate Ht.
      + left. reflexivity.
      + apply SFdiv_at_least_one; assumption. }
  destruct A as [A | A].
  - left. rewrite ltb_spec.
    change (Prim2SF 1%float) with SF_one. unfold SFltb. now rewrite A.
  - right. apply Prim2SF_inj. rewrite A. reflexivity.
Qed.

End Binary64_Division.

#[export] Instance Binary64_Laws : NumberLaws float.
Proof.
  split.
  - intro a. change (((-1) * a * 1 * (-1))%float = a).
    rewrite float_mul_neg1_l, float_mul_1_r, float_mul_neg1_r.
    apply float_opp_involutive.
  - intro a. change ((a * 1)%float = a). apply float_mul_1_r.
  - exact float_div_zero_above_one.
  - intros t d. exact (@float_div_above t d).
  - intro a. change ((a <? 0 / 0)%float = false).
    rewrite ltb_spec, Prim2SF_nan.
    destruct (Prim2SF a) as [s | s | | s m e]; reflexivity.
  - intro a. change ((0 / 0 <? a)%float = false).
    rewrite ltb_spec, Prim2SF_nan. reflexivity.
  - intro a. change ((0 / 0 * a)%float = (0 / 0)%float).
    apply Prim2SF_inj. rewrite mul_spec, Prim2SF_nan. reflexivity.
  - intro a. change ((a * (0 / 0))%float = (0 / 0)%float).
    apply Prim2SF_inj. rewrite mul_spec, Prim2SF_nan.
    destruct (Prim2SF a) as [s | s | | s m e]; reflexivity.
  - intro a. change ((a + 0 / 0)%float = (0 / 0)%float).
    apply Prim2SF_inj. rewrite add_spec, Prim2SF_nan.
    destruct (Prim2SF a) as [s | s | | s m e]; reflexivity.
  - intro a. change ((a / (0 / 0))%float = (0 / 0)%float).
    apply Prim2SF_inj. rewrite div_spec, Prim2SF_nan.
    destruct (Prim2SF a) as [s | s | | s m e]; reflexivity.
Qed.

(** * Instances and counterexamples *)

(** The end-to-end example in binary64: triggered at 2000 ms and updated
    at 3100 ms, the tween ends exactly at (200, 300). *)
Lemma tween_completion_witness :
  (isAnimating (animationTween (fst tween_1s_b64)) = true
   /\ PrimFloat.ltb
        (animDuration (animationTween (fst tween_1s_b64)))
        (elapsed (ticks (snd tween_1s_b64) (reads (snd tween_1s_b64)))
                 (animStartTime (animationTween (fst tween_1s_b64))))
      = true
   /\ PrimFloat.ltb
        0%float (animDuration (animationTween (fst tween_1s_b64)))
      = true)
  /\ isAnimating (animationTween (fst (draw (fst tween_1s_b64)
                                            (snd tween_1s_b64)))) = false
  /\ shape_x (fst (draw (fst tween_1s_b64) (snd tween_1s_b64))) = 200%float
  /\ shape_y (fst (draw (fst tween_1s_b64) (snd tween_1s_b64))) = 300%float.
Proof.
  assert (R : isAnimating (animationTween (fst tween_1s_b64)) = true)
    by reflexivity.
  assert (G : num_gt
                (elapsed (ticks (snd tween_1s_b64) (reads (snd tween_1s_b64)))
                         (animStartTime (animationTween (fst tween_1s_b64))))
                (animDuration (animationTween (fst tween_1s_b64))) = true)
    by (vm_compute; reflexivity).
  assert (P : num_gt (animDuration (animationTween (fst tween_1s_b64)))
                     (num_of_Z 0) = true)
    by (vm_compute; reflexivity).
  split; [exact (conj R (conj G P)) | ].
  destruct (proj1 tween_completion float _ _ (fst tween_1s_b64)
              (snd tween_1s_b64) R G) as (F & _ & _ & _ & K).
  destruct (K (or_introl P)) as (X & Y).
  split; [exact F | split].
  - rewrite X. vm_compute. reflexivity.
  - rewrite Y. vm_compute. reflexivity.
Defined.

(** The claim of C5 fails in binary64.  With a duration of -1 the elapsed
    time 0 exceeds the duration, the flag is cleared and the shape stays at
    (100, 100): the percentage 0 / -1 is not clamped.  With a duration of
    -0 and an update 16 ms later the flag is cleared and the shape is at
    (-Infinity, -Infinity).  With a duration of 1 second, from 0.7 to 0.1,
    the update past the duration ends at 0.7 + (0.1 - 0.7), which is below
    0.1. *)
Lemma tween_not_at_destination_counterexample :
  (isAnimating (animationTween (fst tween_minus_1s_b64)) = true
   /\ PrimFloat.ltb
        (animDuration (animationTween (fst tween_minus_1s_b64)))
        (elapsed (ticks (snd tween_minus_1s_b64)
                        (reads (snd tween_minus_1s_b64)))
                 (animStartTime (animationTween (fst tween_minus_1s_b64))))
      = true
   /\ animDestinationX (animationTween (fst tween_minus_1s_b64)) = 200%float
   /\ animDestinationY (animationTween (fst tween_minus_1s_b64)) = 300%float
   /\ shape_x (fst (draw (fst tween_minus_1s_b64) (snd tween_minus_1s_b64)))
      = 100%float
   /\ shape_y (fst (draw (fst tween_minus_1s_b64) (snd tween_minus_1s_b64)))
      = 100%float
   /\ isAnimating
        (animationTween
           (fst (draw (fst tween_minus_1s_b64) (snd tween_minus_1s_b64))))
      = false)
  /\ (isAnimating (animationTween (fst tween_neg_zero_b64)) = true
      /\ PrimFloat.ltb
           (animDuration (animationTween (fst tween_neg_zero_b64)))
           (elapsed (ticks (snd tween_neg_zero_b64)
                           (reads (snd tween_neg_zero_b64)))
                    (animStartTime (animationTween (fst tween_neg_zero_b64))))
         = true
      /\ shape_x (fst (draw (fst tween_neg_zero_b64)
                            (snd tween_neg_zero_b64)))
         = neg_infinity
      /\ shape_y (fst (draw (fst tween_neg_zero_b64)
                            (snd tween_neg_zero_b64)))
         = neg_infinity
      /\ isAnimating
           (animationTween
              (fst (draw (fst tween_neg_zero_b64) (snd tween_neg_zero_b64))))
         = false)
  /\ (isAnimating (animationTween (fst tween_07_01_b64)) = true
      /\ PrimFloat.ltb
           (animDuration (animationTween (fst tween_07_01_b64)))
           (elapsed (ticks (snd tween_07_01_b64) (reads (snd tween_07_01_b64)))
                    (animStartTime (animationTween (fst tween_07_01_b64))))
         = true
      /\ animDestinationX (animationTween (fst tween_07_01_b64))
         = (1 / 10)%float
      /\ PrimFloat.ltb
           (shape_x (fst (draw (fst tween_07_01_b64) (snd tween_07_01_b64))))
           (1 / 10)%float
         = true
      /\ isAnimating
           (animationTween
              (fst (draw (fst tween_07_01_b64) (snd tween_07_01_b64))))
         = false).
Proof. repeat split. Qed.

(** A duration of zero in binary64: half a second into an animation of 0
    seconds from 5 over a distance of 10, both easings return 15. *)
Lemma easing_zero_duration_witness :
  PrimFloat.ltb 0%float 0.5%float = true
  /\ calculateEaseIn 0.5%float 0%float 10%float 5%float = 15%float
  /\ calculateEaseOut 0.5%float 0%float 10%float 5%float = 15%float.
Proof.
  assert (G : num_gt 0.5%float (num_of_Z 0) = true)
    by (vm_compute; reflexivity).
  split; [exact G | ].
  destruct (@easing_zero_duration float _ _ 0.5%float 10%float 5%float G)
    as (A & B & _).
  split.
  - etransitivity; [exact A | vm_compute; reflexivity].
  - etransitivity; [exact B | vm_compute; reflexivity].
Defined.

(** The claim of C6 fails in binary64.  With a negative duration the
    percentage is not clamped and the easings do not return
    start + distance = 15; with the duration -0 the quotient is -Infinity
    and the results are infinite; with a duration of 0 and no elapsed time
    the results are [NaN]. *)
Lemma easing_nonpositive_duration_counterexample :
  calculateEaseOut 1%float (-1)%float 10%float 5%float = (-25)%float
  /\ calculateEaseIn 1%float (-2)%float 10%float 5%float = 7.5%float
  /\ calculateEaseOut 0.5%float (-0)%float 10%float 5%float = neg_infinity
  /\ calculateEaseIn 0.5%float (-0)%float 10%float 5%float = infinity
  /\ PrimFloat.is_nan (calculateEaseOut 0%float 0%float 10%float 5%float)
     = true
  /\ PrimFloat.is_nan (calculateEaseIn 0%float 0%float 10%float 5%float)
     = true.
Proof. repeat split. Qed.

Lemma easing_boundary_values_witness :
  Q2Qc 0 < Q2Qc 2
  /\ calculateEaseOut (Fin (Q2Qc 0)) (Fin (Q2Qc 2)) (Fin (Q2Qc 100))
                      (Fin (Q2Qc 50)) = Fin (Q2Qc 50)
  /\ calculateEaseOut (Fin (Q2Qc 2)) (Fin (Q2Qc 2)) (Fin (Q2Qc 100))
                      (Fin (Q2Qc 50)) = Fin (Q2Qc 50 + Q2Qc 100)
  /\ calculateEaseIn (Fin (Q2Qc 0)) (Fin (Q2Qc 2)) (Fin (Q2Qc 100))
                     (Fin (Q2Qc 50)) = Fin (Q2Qc 50)
  /\ calculateEaseIn (Fin (Q2Qc 2)) (Fin (Q2Qc 2)) (Fin (Q2Qc 100))
                     (Fin (Q2Qc 50)) = Fin (Q2Qc 50 + Q2Qc 100).
Proof.
  split; [reflexivity | ].
  exact (@easing_boundary_values (Q2Qc 50) (Q2Qc 100) (Q2Qc 2) eq_refl).
Defined.





Lemma stretch_hand_off_witness :
  isAnimating (animationStretch (fst stretch_b64)) = true
  /\ isAnimating
       (animationStretch (fst (draw (fst stretch_b64) (snd stretch_b64))))
     = false
  /\ animStartTime
       (animationShrink (fst (draw (fst stretch_b64) (snd stretch_b64))))
     = 1000%float
  /\ isAnimating
       (animationShrink (fst (draw (fst stretch_b64) (snd stretch_b64))))
     = true.
Proof.
  split; [reflexivity | ].
  assert (Hgt : num_gt
                  (elapsed (ticks (snd stretch_b64)
                              (reads (snd (draw_tween (fst stretch_b64)
                                                      (snd stretch_b64)))))
                           (animStartTime (animationStretch (fst stretch_b64))))
                  (animDuration (animationStretch (fst stretch_b64))) = true)
    by (vm_compute; reflexivity).
  destruct (@stretch_hand_off float _ (fst stretch_b64) (snd stretch_b64)
                              eq_refl Hgt)
    as (_ & _ & _ & _ & A & B & C).
  exact (conj A (conj B C)).
Defined.

(** The claim of C3 fails in binary64 for the state the update returns.
    After [stretchIn(0.5, 1.0)] the shrink lasts 0 seconds.  In the update
    at 1001 ms the stretch is running and its elapsed time exceeds its
    duration; the hand-off stamps the shrink with 1001 ms and sets its
    flag, and the shrink block of the same update, reading 1002 ms,
    clears the flag again: the update returns with both flags false. *)
Lemma stretch_hand_off_counterexample :
  isAnimating (animationStretch (fst stretch_half_b64)) = true
  /\ PrimFloat.ltb
       (animDuration (animationStretch (fst stretch_half_b64)))
       (elapsed (ticks (snd stretch_half_b64)
                       (reads (snd (draw_tween (fst stretch_half_b64)
                                               (snd stretch_half_b64)))))
                (animStartTime (animationStretch (fst stretch_half_b64))))
     = true
  /\ animDuration (animationShrink (fst stretch_half_b64)) = 0%float
  /\ isAnimating
       (animationStretch
          (fst (draw (fst stretch_half_b64) (snd stretch_half_b64))))
     = false
  /\ animStartTime
       (animationShrink
          (fst (draw (fst stretch_half_b64) (snd stretch_half_b64))))
     = 1001%float
  /\ isAnimating
       (animationShrink
          (fst (draw (fst stretch_half_b64) (snd stretch_half_b64))))
     = false.
Proof. repeat split. Qed.

Lemma stretch_shrink_exclusive_witness :
  reachable (fst (draw (fst stretch_b64) (snd stretch_b64)))
  /\ isAnimating
       (animationStretch (fst (draw (fst stretch_b64) (snd stretch_b64))))
     && isAnimating
          (animationShrink (fst (draw (fst stretch_b64) (snd stretch_b64))))
     = false.
Proof.
  assert (R : reachable (fst (draw (fst stretch_b64) (snd stretch_b64)))).
  { apply reach_draw.
    exact (@reach_stretchIn float _
             (fst (shape_100_100 20 40 (clock_of stretch_readings)))
             (num_of_Z 3 / num_of_Z 2)%js (num_of_Z 1)
             (snd (shape_100_100 20 40 (clock_of stretch_readings)))
             (@reach_new float _ (num_of_Z 400) (num_of_Z 400)
                         (num_of_Z 100) (num_of_Z 100)
                         (num_of_Z 20) (num_of_Z 40)
                         (clock_of stretch_readings))). }
  split; [exact R | ].
  exact (stretch_shrink_exclusive R).
Defined.

(** ** Binary64 replays *)

(** [stretchIn(1.5, 1.0)] in binary64: 0.75 and 0.25 seconds. *)
Example binary64_stretchIn_durations :
  animDuration (animationStretch (fst stretch_b64)) = 0.75%float
  /\ animDuration (animationShrink (fst stretch_b64)) = 0.25%float
  /\ isAnimating (animationStretch (fst stretch_b64)) = true
  /\ isAnimating (animationShrink (fst stretch_b64)) = false.
Proof. repeat split. Qed.

(** Retriggering mid-flight in binary64: after half a second the shape is
    at (175, 250), and a new tween starts from there. *)
Example binary64_tween_retrigger :
  let mid := draw (fst (@tween_triggered float _ 1%float
                          (0 :: 0 :: 0 :: 2000 :: 2500 :: 2500 :: nil)%Z))
                  (snd (@tween_triggered float _ 1%float
                          (0 :: 0 :: 0 :: 2000 :: 2500 :: 2500 :: nil)%Z)) in
  let again := fst (tween (fst mid) 0%float 0%float 1%float (snd mid)) in
  shape_x (fst mid) = 175%float
  /\ shape_y (fst mid) = 250%float
  /\ isAnimating (animationTween (fst mid)) = true
  /\ animStartX (animationTween again) = 175%float
  /\ animStartY (animationTween again) = 250%float
  /\ animStartTime (animationTween again) = 2500%float.
Proof. repeat split. Qed.

(** Rounding in binary64: a tween from 0.7 to 0.1, updated past its
    duration, stops at 0.7 + (0.1 - 0.7), which is just below 0.1.  In the
    exact model the same run ends at 1/10. *)
Example binary64_tween_rounding :
  let x := shape_x (after_draws 1
             (@tween_between float _ (7 / 10)%float (1 / 10)%float
                             tween_readings)) in
  x = ((7 / 10) + ((1 / 10) - (7 / 10)))%float
  /\ PrimFloat.ltb x (1 / 10)%float = true
  /\ isAnimating (animationTween (after_draws 1
        (@tween_between float _ (7 / 10)%float (1 / 10)%float
                        tween_readings))) = false
  /\ shape_x (after_draws 1
        (@tween_between num _ (Fin (Q2Qc (7 # 10))) (Fin (Q2Qc (1 # 10)))
                        tween_readings)) = Fin (Q2Qc (1 # 10)).
Proof. repeat split. exact_eval. Qed.

(** The easing functions in binary64, for a duration of 2 seconds from 50
    over a distance of 100: the two ends, the middle, and the point
    reflection at a quarter. *)
Example binary64_easing_values :
  calculateEaseOut 0%float 2%float 100%float 50%float = 50%float
  /\ calculateEaseOut 2%float 2%float 100%float 50%float = 150%float
  /\ calculateEaseIn 0%float 2%float 100%float 50%float = 50%float
  /\ calculateEaseIn 2%float 2%float 100%float 50%float = 150%float
  /\ calculateEaseOut 1%float 2%float 100%float 50%float = 125%float
  /\ calculateEaseIn 1%float 2%float 100%float 50%float = 75%float
  /\ (calculateEaseOut 0.5%float 2%float 100%float 50%float
       + calculateEaseIn 1.5%float 2%float 100%float 50%float)%float
     = 200%float.
Proof. repeat split. Qed.

(** * Further properties of the update *)

Section Update.

Context {N : Type} {NumN : Number N}.
Local Open Scope js_scope.

Ltac run := unfold bind, millis, ret; cbn [fst snd].

Lemma draw_idle (this : AnimatableShape N) (c : Clock N) :
  idle this = true -> draw this c = (this, c).
Proof.
  unfold idle. rewrite !andb_true_iff, !negb_true_iff.
  intros [[T S] K].
  unfold draw, draw_tween, draw_stretch, draw_shrink, bind, ret.
  rewrite T. rewrite S. rewrite K. reflexivity.
Qed.

(** X1.  A shape none of whose animations is running is left as it is by
    any number of updates, and the updates do not read the clock. *)
Theorem draws_idle (this : AnimatableShape N) (n : nat) (c : Clock N) :
  idle this = true -> draws n this c = (this, c).
Proof.
  intro I. induction n as [ | n IH]; [reflexivity | ].
  cbn [draws]. unfold bind. rewrite (draw_idle _ _ I). exact IH.
Qed.

Lemma draw_tween_starts_nothing (this : AnimatableShape N) (c : Clock N) :
  isAnimating (animationTween (fst (draw_tween this c))) = true ->
  isAnimating (animationTween this) = true.
Proof.
  unfold draw_tween.
  destruct (isAnimating (animationTween this)) eqn:T; [reflexivity | ].
  run. now rewrite T.
Qed.

Lemma draw_stretch_starts_nothing (this : AnimatableShape N) (c : Clock N) :
  (isAnimating (animationStretch (fst (draw_stretch this c))) = true ->
   isAnimating (animationStretch this) = true)
  /\ (isAnimating (animationShrink (fst (draw_stretch this c))) = true ->
      isAnimating (animationShrink this) = true
      \/ isAnimating (animationStretch this) = true).
Proof.
  unfold draw_stretch.
  destruct (isAnimating (animationStretch this)) eqn:S.
  - split; [reflexivity | ]. intros _. right. reflexivity.
  - run. rewrite S. split; [trivial | ]. intro K. left. exact K.
Qed.

Lemma draw_shrink_starts_nothing (this : AnimatableShape N) (c : Clock N) :
  isAnimating (animationShrink (fst (draw_shrink this c))) = true ->
  isAnimating (animationShrink this) = true.
Proof.
  unfold draw_shrink.
  destruct (isAnimating (animationShrink this)) eqn:K; [reflexivity | ].
  run. now rewrite K.
Qed.

(** X2.  An update starts nothing: a tween or a stretch that runs after
    the update ran before it, and a shrink that runs after the update ran
    before it or was handed over by a running stretch. *)
Theorem draw_starts_nothing (this : AnimatableShape N) (c : Clock N) :
  (isAnimating (animationTween (fst (draw this c))) = true ->
   isAnimating (animationTween this) = true)
  /\ (isAnimating (animationStretch (fst (draw this c))) = true ->
      isAnimating (animationStretch this) = true)
  /\ (isAnimating (animationShrink (fst (draw this c))) = true ->
      isAnimating (animationShrink this) = true
      \/ isAnimating (animationStretch this) = true).
Proof.
  rewrite draw_unfold.
  destruct (draw_tween_frame this c) as (F1 & F2 & _).
  set (r1 := draw_tween this c) in *.
  destruct (draw_stretch_frame (fst r1) (snd r1)) as (T2 & _).
  destruct (draw_stretch_starts_nothing (fst r1) (snd r1)) as (S2 & K2).
  set (r2 := draw_stretch (fst r1) (snd r1)) in *.
  destruct (draw_shrink_frame (fst r2) (snd r2)) as (T3 & S3 & _).
  pose proof (draw_shrink_starts_nothing (fst r2) (snd r2)) as K3.
  rewrite T3, S3, T2. rewrite F1 in S2, K2. rewrite F2 in K2.
  split; [apply draw_tween_starts_nothing | ].
  split; [exact S2 | ].
  intro K. exact (K2 (K3 K)).
Qed.

Lemma draw_tween_only (this : AnimatableShape N) (c : Clock N) :
  isAnimating (animationStretch this) = false ->
  isAnimating (animationShrink this) = false ->
  draw this c = draw_tween this c.
Proof.
  intros S K. rewrite draw_unfold.
  destruct (draw_tween_frame this c) as (F1 & F2 & _).
  destruct (draw_tween this c) as [s1 c1]. cbn [fst snd] in *.
  unfold draw_stretch. rewrite F1, S. run.
  unfold draw_shrink. rewrite F2, K. reflexivity.
Qed.

(** X3.  The tween does not depend on the frames drawn so far: while no
    stretch or shrink runs, an update followed by a second update gives the
    shape that the second update alone would have given, as long as the
    first did not end the tween. *)
Theorem tween_frames_independent (this : AnimatableShape N)
        (c c' : Clock N) :
  isAnimating (animationStretch this) = false ->
  isAnimating (animationShrink this) = false ->
  (elapsed (ticks c (reads c)) (animStartTime (animationTween this))
   >? animDuration (animationTween this)) = false ->
  fst (draw (fst (draw this c)) c') = fst (draw this c').
Proof.
  intros S K E. unfold elapsed in E.
  rewrite (draw_tween_only this c S K), (draw_tween_only this c' S K).
  destruct (draw_tween_frame this c) as (F1 & F2 & _).
  rewrite draw_tween_only by (rewrite ?F1, ?F2; assumption).
  clear F1 F2. unfold draw_tween at 2.
  destruct (isAnimating (animationTween this)) eqn:T; run; [ | reflexivity].
  rewrite E. cbn [fst]. unfold draw_tween.
  cbn [animationTween set_x set_y]. rewrite T. run.
  match goal with
  | |- context [if ?b then _ else _] => destruct b
  end; reflexivity.
Qed.

Lemma draw_without_stretch (this : AnimatableShape N) (c : Clock N) :
  isAnimating (animationStretch this) = false ->
  draw this c = draw_shrink (fst (draw_tween this c)) (snd (draw_tween this c)).
Proof.
  intro S. rewrite draw_unfold.
  destruct (draw_tween_frame this c) as (F1 & _).
  destruct (draw_tween this c) as [s1 c1]. cbn [fst snd] in *.
  unfold draw_stretch. rewrite F1, S. reflexivity.
Qed.

(** The stretch block at the hand-off, as an equation. *)
Lemma draw_stretch_hands_off (this : AnimatableShape N) (c : Clock N) :
  let a := animationStretch this in
  let tp := elapsed (ticks c (reads c)) (animStartTime a) in
  isAnimating a = true ->
  (tp >? animDuration a) = true ->
  draw_stretch this c
  = (set_animationShrink
       (set_isAnimating true
          (set_animStartTime (ticks c (S (reads c))) (animationShrink this)))
       (set_animationStretch (set_isAnimating false a)
          (set_height (calculateEaseOut tp (animDuration a)
                         (animDistanceX a) (animStartX a))
             (set_width (calculateEaseOut tp (animDuration a)
                           (animDistanceY a) (animStartY a)) this))),
     mkClock (ticks c) (S (S (reads c)))).
Proof.
  intros a tp Hrun Hgt. unfold draw_stretch. fold a. rewrite Hrun. run.
  fold (elapsed (ticks c (reads c)) (animStartTime a)). fold tp.
  rewrite Hgt. reflexivity.
Qed.

End Update.

(** * Further properties that rest on the laws of the arithmetic *)

Section UpdateLaws.

Context {N : Type} {NumN : Number N} {LawsN : NumberLaws N}.
Local Open Scope js_scope.

(** X4.  The test that ends a tween is strict.  An update of a running
    tween whose elapsed time does not exceed the duration leaves the
    tween running, with its record untouched; when the quotient
    elapsed / duration is 1, as at an elapsed time equal to the duration,
    that update already puts the shape at start + distance, and the tween
    ends only at a later update. *)
Theorem tween_runs_at_duration (this : AnimatableShape N) (c : Clock N) :
  let a := animationTween this in
  let t := elapsed (ticks c (reads c)) (animStartTime a) in
  isAnimating a = true ->
  (t >? animDuration a) = false ->
  let this' := fst (draw this c) in
  animationTween this' = a
  /\ isAnimating (animationTween this') = true
  /\ (t / animDuration a = num_of_Z 1 ->
      shape_x this' = animStartX a + animDistanceX a
      /\ shape_y this' = animStartY a + animDistanceY a).
Proof.
  intros a t Hrun Hle this'.
  assert (XY : animationTween this' = a
               /\ shape_x this'
                  = calculateEaseOut t (animDuration a) (animDistanceX a)
                                     (animStartX a)
               /\ shape_y this'
                  = calculateEaseOut t (animDuration a) (animDistanceY a)
                                     (animStartY a)).
  { subst this'. rewrite draw_unfold.
    destruct (draw_shrink_frame
                (fst (draw_stretch (fst (draw_tween this c))
                                   (snd (draw_tween this c))))
                (snd (draw_stretch (fst (draw_tween this c))
                                   (snd (draw_tween this c)))))
      as (T3 & _ & X3 & Y3 & _).
    destruct (draw_stretch_frame (fst (draw_tween this c))
                                 (snd (draw_tween this c)))
      as (T2 & X2 & Y2 & _).
    rewrite T3, X3, Y3, T2, X2, Y2.
    unfold draw_tween. fold a. rewrite Hrun.
    unfold bind, millis, ret. cbn [fst snd].
    subst t. unfold elapsed in Hle |- *. rewrite Hle.
    cbn [fst snd shape_x shape_y animationTween set_x set_y].
    repeat split. }
  destruct XY as (T & X & Y).
  split; [exact T | ]. split; [rewrite T; exact Hrun | ].
  intro P. rewrite X, Y.
  split; apply easeOut_full; right; exact P.
Qed.

Lemma easeOut_NaN_duration (tp dist pos : N) :
  calculateEaseOut tp js_NaN dist pos = js_NaN.
Proof.
  unfold calculateEaseOut.
  rewrite (div_nan_r (NumberLaws := LawsN)),
          (nan_not_above (NumberLaws := LawsN)),
          (mul_nan_r (NumberLaws := LawsN)),
          (mul_nan_l (NumberLaws := LawsN)).
  apply (add_nan_r (NumberLaws := LawsN)).
Qed.

Lemma draw_tween_NaN_duration (this : AnimatableShape N) (c : Clock N) :
  isAnimating (animationTween this) = true ->
  animDuration (animationTween this) = js_NaN ->
  animationTween (fst (draw this c)) = animationTween this
  /\ shape_x (fst (draw this c)) = js_NaN
  /\ shape_y (fst (draw this c)) = js_NaN.
Proof.
  intros Hrun Hdur. rewrite draw_unfold.
  destruct (draw_shrink_frame
              (fst (draw_stretch (fst (draw_tween this c))
                                 (snd (draw_tween this c))))
              (snd (draw_stretch (fst (draw_tween this c))
                                 (snd (draw_tween this c)))))
    as (T3 & _ & X3 & Y3 & _).
  destruct (draw_stretch_frame (fst (draw_tween this c))
                               (snd (draw_tween this c)))
    as (T2 & X2 & Y2 & _).
  rewrite T3, X3, Y3, T2, X2, Y2.
  unfold draw_tween. rewrite Hrun.
  unfold bind, millis, ret. cbn [fst snd].
  rewrite Hdur, !easeOut_NaN_duration.
  rewrite (nan_not_below (NumberLaws := LawsN)).
  cbn [fst snd shape_x shape_y animationTween set_x set_y].
  repeat split.
Qed.

(** X5.  A tween whose duration is [NaN], as [parseFloat] gives it for a
    text that is no number, never ends: after one update or more it is
    still running and x and y are [NaN]. *)
Theorem tween_NaN_duration_never_ends (n : nat) (this : AnimatableShape N)
        (c : Clock N) :
  isAnimating (animationTween this) = true ->
  animDuration (animationTween this) = js_NaN ->
  isAnimating (animationTween (fst (draws (S n) this c))) = true
  /\ shape_x (fst (draws (S n) this c)) = js_NaN
  /\ shape_y (fst (draws (S n) this c)) = js_NaN.
Proof.
  revert this c. induction n as [ | n IH]; intros this c Hrun Hdur.
  - destruct (draw_tween_NaN_duration this c Hrun Hdur) as (T & X & Y).
    cbn [draws]. unfold bind, ret.
    destruct (draw this c) as [s1 c1]. cbn [fst] in *.
    rewrite T. repeat split; assumption.
  - destruct (draw_tween_NaN_duration this c Hrun Hdur) as (T & _).
    change (draws (S (S n)) this c)
      with (bind (draw this) (fun s => draws (S n) s) c).
    unfold bind. destruct (draw this c) as [s1 c1]. cbn [fst] in T.
    apply IH; rewrite T; assumption.
Qed.

(** ** The whole stretch and shrink cycle *)

Lemma draw_shrink_cases (this : AnimatableShape N) (c : Clock N) :
  let a := animationShrink this in
  let tp := elapsed (ticks c (reads c)) (animStartTime a) in
  let this' := fst (draw_shrink this c) in
  isAnimating a = true ->
  (animDuration a >? num_of_Z 0) = true \/ animDuration a = num_of_Z 0 ->
  ((tp >? animDuration a) = true
   /\ shape_width this' = animStartY a + animDistanceY a
   /\ shape_height this' = animStartX a + animDistanceX a
   /\ isAnimating (animationShrink this') = false)
  \/ ((tp >? animDuration a) = false /\ animationShrink this' = a).
Proof.
  intros a tp this' Hrun Hd. subst this'.
  unfold draw_shrink. fold a. rewrite Hrun.
  unfold bind, millis, ret. cbn [fst snd].
  fold (elapsed (ticks c (reads c)) (animStartTime a)). fold tp.
  destruct (tp >? animDuration a) eqn:E; [left | right].
  - cbn [fst shape_width shape_height animationShrink isAnimating
         set_animationShrink set_isAnimating set_width set_height].
    assert (P : (tp / animDuration a >? num_of_Z 1) = true
                \/ tp / animDuration a = num_of_Z 1)
      by (eapply past_duration_percentage; eassumption).
    rewrite !(@easeIn_full _ _ LawsN tp (animDuration a) _ _ P).
    repeat split.
  - split; reflexivity.
Qed.

Lemma ends_at_restamped (a : Animation N) (vx vy : N) (b : bool) (t : N) :
  ends_at a vx vy ->
  ends_at (set_isAnimating b (set_animStartTime t a)) vx vy.
Proof. intro H. exact H. Qed.

Lemma stretchIn_ends_at (this : AnimatableShape N) (maxScale duration : N)
      (c : Clock N) :
  let m := if maxScale <? num_of_Z 1 then num_of_Z 1 else maxScale in
  let s := fst (stretchIn this maxScale duration c) in
  (animDuration (animationShrink s) >? num_of_Z 0) = true
  \/ animDuration (animationShrink s) = num_of_Z 0 ->
  isAnimating (animationStretch s) = true
  /\ ends_at (animationShrink s)
             (m * shape_width this + (shape_width this - m * shape_width this))
             (m * shape_height this
              + (shape_height this - m * shape_height this)).
Proof.
  intros m s Hd. split; [reflexivity | ].
  split; [exact Hd | ]. split; reflexivity.
Qed.

Lemma draw_hand_off_outcome (s : AnimatableShape N) (c : Clock N)
      (vx vy : N) :
  let k := reads (snd (draw_tween s c)) in
  let s' := fst (draw s c) in
  isAnimating (animationStretch s) = true ->
  ends_at (animationShrink s) vx vy ->
  (elapsed (ticks c k) (animStartTime (animationStretch s))
   >? animDuration (animationStretch s)) = true ->
  isAnimating (animationStretch s') = false
  /\ ends_at (animationShrink s') vx vy
  /\ animStartTime (animationShrink s') = ticks c (S k)
  /\ (isAnimating (animationShrink s') = false ->
      shape_width s' = vy /\ shape_height s' = vx).
Proof.
  intros k s' Hrun Hret Hgt. subst s'. rewrite draw_unfold.
  destruct (draw_tween_frame s c) as (F1 & F2 & _ & _ & F3 & _).
  fold k. set (r1 := draw_tween s c) in *.
  assert (E : draw_stretch (fst r1) (snd r1) = _)
    by (apply draw_stretch_hands_off;
        [rewrite F1; exact Hrun | rewrite F1, F3; exact Hgt]).
  rewrite E. cbn [fst snd]. rewrite F1, F2, F3.
  set (tp := elapsed (ticks c k) (animStartTime (animationStretch s))) in *.
  set (a2 := set_isAnimating true
               (set_animStartTime (ticks c (S k)) (animationShrink s))).
  pose proof (ends_at_restamped true (ticks c (S k)) Hret) as Hret2.
  fold a2 in Hret2.
  match goal with
  | |- context [draw_shrink ?x ?y] => set (s2 := x); set (c2 := y)
  end.
  assert (A2 : animationShrink s2 = a2) by reflexivity.
  destruct (draw_shrink_frame s2 c2) as (_ & G1 & _ & _ & G2 & _).
  destruct Hret2 as (Hd & SX & SY).
  assert (Hret2 : ends_at a2 vx vy) by (split; [exact Hd | split; assumption]).
  destruct (draw_shrink_cases s2 c2) as [(_ & W & H & Fl) | (_ & Same)];
    rewrite ?A2; try assumption; try reflexivity.
  - rewrite A2 in W, H. rewrite SX in H. rewrite SY in W.
    split; [rewrite G1; reflexivity | ].
    split.
    + unfold draw_shrink. rewrite A2. cbn [isAnimating a2 set_isAnimating].
      unfold bind, millis, ret. cbn [fst snd].
      match goal with
      | |- context [if ?b then _ else _] => destruct b
      end; cbn [fst animationShrink set_animationShrink set_width
                set_height]; [ | rewrite A2]; exact Hret2.
    + split; [rewrite G2, A2; reflexivity | ].
      intros _. split; assumption.
  - split; [rewrite G1; reflexivity | ].
    rewrite Same. split; [exact Hret2 | ].
    split; [reflexivity | ].
    intro Off. discriminate Off.
Qed.

Lemma draw_shrinking_outcome (s : AnimatableShape N) (c : Clock N)
      (vx vy : N) :
  let k := reads (snd (draw_tween s c)) in
  let s' := fst (draw s c) in
  isAnimating (animationStretch s) = false ->
  ends_at (animationShrink s) vx vy ->
  (isAnimating (animationShrink s) = false ->
   shape_width s = vy /\ shape_height s = vx) ->
  (elapsed (ticks c k) (animStartTime (animationShrink s))
   >? animDuration (animationShrink s)) = true ->
  shape_width s' = vy /\ shape_height s' = vx
  /\ isAnimating (animationStretch s') = false
  /\ isAnimating (animationShrink s') = false.
Proof.
  intros k s' Hoff Hret Hdone Hgt. subst s'.
  rewrite (draw_without_stretch s c Hoff).
  destruct (draw_tween_frame s c) as (F1 & F2 & FW & FH & F3 & _).
  fold k. set (r1 := draw_tween s c) in *.
  destruct (draw_shrink_frame (fst r1) (snd r1)) as (_ & G1 & _).
  rewrite G1, F1.
  destruct (isAnimating (animationShrink s)) eqn:K.
  - destruct Hret as (Hd & SX & SY).
    destruct (draw_shrink_cases (fst r1) (snd r1))
      as [(_ & W & H & Fl) | (E & _)];
      rewrite ?F2; try assumption.
    + rewrite F2 in W, H. rewrite SY in W. rewrite SX in H.
      repeat split; assumption.
    + cbv zeta in E. rewrite F2, F3 in E. fold k in E. congruence.
  - destruct (Hdone eq_refl) as (W & H).
    unfold draw_shrink. rewrite F2, K. unfold ret. cbn [fst].
    rewrite FW, FH, F2. repeat split; assumption.
Qed.

(** X6.  The whole cycle ends crosswise.  After [stretchIn] with a shrink
    duration that is above zero or is the zero of the literal [0], one
    update past the stretch duration and one later update past the shrink
    duration leave both animations stopped, the width at
    [m * height + (height - m * height)] and the height at
    [m * width + (width - m * width)], where [width] and [height] are the
    size at the call and [m] is the scale, or 1 for a scale below 1: up to
    the rounding of these sums, the width ends at the old height and the
    height at the old width. *)
Theorem stretchIn_cycle_ends_crosswise (this : AnimatableShape N)
        (maxScale duration : N) (c0 cA cB : Clock N) :
  let m := if maxScale <? num_of_Z 1 then num_of_Z 1 else maxScale in
  let s1 := fst (stretchIn this maxScale duration c0) in
  let sA := fst (draw s1 cA) in
  let sB := fst (draw sA cB) in
  (animDuration (animationShrink s1) >? num_of_Z 0) = true
  \/ animDuration (animationShrink s1) = num_of_Z 0 ->
  (elapsed (ticks cA (reads (snd (draw_tween s1 cA))))
           (animStartTime (animationStretch s1))
   >? animDuration (animationStretch s1)) = true ->
  (elapsed (ticks cB (reads (snd (draw_tween sA cB))))
           (animStartTime (animationShrink sA))
   >? animDuration (animationShrink sA)) = true ->
  shape_width sB
  = m * shape_height this + (shape_height this - m * shape_height this)
  /\ shape_height sB
     = m * shape_width this + (shape_width this - m * shape_width this)
  /\ isAnimating (animationStretch sB) = false
  /\ isAnimating (animationShrink sB) = false.
Proof.
  intros m s1 sA sB HD HA HB.
  destruct (stretchIn_ends_at this maxScale duration c0 HD) as (Run & Ret).
  fold s1 in Run, Ret. fold m in Ret.
  destruct (draw_hand_off_outcome s1 cA Run Ret HA) as (Off & Ret' & _ & Done).
  fold sA in Off, Ret', Done.
  exact (draw_shrinking_outcome sA cB Off Ret' Done HB).
Qed.

End UpdateLaws.

(** * Further properties in exact arithmetic

    The statements of this part are about finite sizes, scales and
    durations and are proved in exact arithmetic. *)

Lemma stretch_share_Fin (m D : Qc) :
  let m' := if Qcltb m 1 then 1 else m in
  let M := if ltb (Fin m) (of_Z 1) then of_Z 1 else Fin m in
  mul (div M (sub (add M M) (of_Z 1))) (Fin D)
  = Fin (m' / (m' + m' - 1) * D)
  /\ 1 <= m'.
Proof.
  intros m' M.
  assert (L : 1 <= m').
  { subst m'. destruct (Qcltb m 1) eqn:E; [apply Qcle_refl | ].
    now apply Qcltb_false_iff in E. }
  split; [ | exact L].
  assert (P : 0 < m' + m' - 1) by (to_Q; lra).
  assert (E : M = Fin m').
  { subst M m'. cbn [ltb of_Z]. change (Q2Qc (inject_Z 1)) with 1.
    destruct (Qcltb m 1); reflexivity. }
  rewrite E. change (sub (add (Fin m') (Fin m')) (of_Z 1))
    with (Fin (m' + m' - 1)).
  now rewrite (div_Fin_pos _ P).
Qed.

Lemma stretchIn_durations_Fin (this : AnimatableShape num) (m D : Qc)
      (c : Clock num) :
  let m' := if Qcltb m 1 then 1 else m in
  animDuration (animationStretch (fst (stretchIn this (Fin m) (Fin D) c)))
  = Fin (m' / (m' + m' - 1) * D)
  /\ animDuration (animationShrink (fst (stretchIn this (Fin m) (Fin D) c)))
     = Fin (D - m' / (m' + m' - 1) * D)
  /\ 1 <= m'.
Proof.
  intro m'. destruct (stretch_share_Fin m D) as (E & M). fold m' in E, M.
  unfold stretchIn, bind, millis, ret.
  cbn [fst snd animDuration animationStretch animationShrink new_Animation
       set_animationShrink set_animationStretch set_isAnimating].
  js_ops. rewrite E. repeat split. exact M.
Qed.

Lemma stretch_ratio_bounds (m' : Qc) :
  1 <= m' ->
  Q2Qc (1 # 2) <= m' / (m' + m' - 1) /\ m' / (m' + m' - 1) <= 1.
Proof.
  intro M. assert (P : 0 < m' + m' - 1) by (to_Q; lra). split.
  - assert (L : m' - Q2Qc (1 # 2) <= m') by (to_Q; lra).
    pose proof (Qcdiv_le_mono P L) as X.
    replace ((m' - Q2Qc (1 # 2)) / (m' + m' - 1)) with (Q2Qc (1 # 2)) in X
      by (to_Q; field; intro; lra).
    exact X.
  - assert (L : m' <= m' + m' - 1) by (to_Q; lra).
    pose proof (Qcdiv_le_mono P L) as X.
    now rewrite (Qcdiv_self P) in X.
Qed.

(** X7.  For a finite scale and a duration [D >= 0] the stretch and the
    shrink share [D]: neither duration is negative and they add up to [D];
    with a scale of 1 or less the stretch takes all of [D] and the shrink
    lasts 0 seconds. *)
Theorem stretchIn_splits_duration (this : AnimatableShape num) (m D : Qc)
        (c : Clock num) :
  0 <= D ->
  exists ds dr : Qc,
    animDuration (animationStretch (fst (stretchIn this (Fin m) (Fin D) c)))
    = Fin ds
    /\ animDuration (animationShrink (fst (stretchIn this (Fin m) (Fin D) c)))
       = Fin dr
    /\ ds + dr = D
    /\ 0 <= ds /\ 0 <= dr
    /\ (m <= 1 -> ds = D /\ dr = 0).
Proof.
  intro HD.
  destruct (stretchIn_durations_Fin this m D c) as (A & B & M).
  set (m' := if Qcltb m 1 then 1 else m) in *.
  exists (m' / (m' + m' - 1) * D), (D - m' / (m' + m' - 1) * D).
  split; [exact A | split; [exact B | ]].
  assert (P : 0 < m' + m' - 1) by (to_Q; lra).
  destruct (stretch_ratio_bounds M) as [R2 R1].
  assert (R3 : m <= 1 -> m' / (m' + m' - 1) = 1).
  { intro L. assert (E : m' = 1).
    { subst m'. destruct (Qcltb m 1) eqn:E; trivial.
      apply Qcltb_false_iff in E. now apply Qcle_antisym. }
    rewrite E. to_Q. field. }
  set (r := m' / (m' + m' - 1)) in *. clearbody r.
  split; [to_Q; ring | ].
  split; [to_Q; nra | ].
  split; [to_Q; nra | ].
  intro L. rewrite (R3 L). split; to_Q; ring.
Qed.

(** ** The hand-off with a shrink of 0 seconds *)

Lemma stretchIn_records (this : AnimatableShape num) (w h m D : Qc)
      (c : Clock num) :
  shape_width this = Fin w -> shape_height this = Fin h ->
  let m' := if Qcltb m 1 then 1 else m in
  let s := fst (stretchIn this (Fin m) (Fin D) c) in
  isAnimating (animationStretch s) = true
  /\ isAnimating (animationShrink s) = false
  /\ animStartX (animationShrink s) = Fin (m' * w)
  /\ animStartY (animationShrink s) = Fin (m' * h)
  /\ animDistanceX (animationShrink s) = Fin (w - m' * w)
  /\ animDistanceY (animationShrink s) = Fin (h - m' * h).
Proof.
  intros Hw Hh m' s. subst s.
  unfold stretchIn, bind, millis, ret.
  cbn [fst snd isAnimating animStartX animStartY animDistanceX animDistanceY
       animationStretch animationShrink new_Animation shape_width
       shape_height set_animationShrink set_animationStretch
       set_isAnimating].
  js_ops. rewrite Hw, Hh.
  assert (E : (if ltb (Fin m) (of_Z 1) then of_Z 1 else Fin m) = Fin m').
  { subst m'. cbn [ltb of_Z]. change (Q2Qc (inject_Z 1)) with 1.
    destruct (Qcltb m 1); reflexivity. }
  rewrite E. repeat split.
Qed.

Lemma elapsed_same (tau : Qc) : elapsed (Fin tau) (Fin tau) = Fin 0.
Proof.
  unfold elapsed, MILLISECONDS_IN_SECOND. js_ops. unfold of_Z.
  rewrite div_Fin_pos by reflexivity.
  cbn [sub neg add]. f_equal. to_Q. ring.
Qed.

Lemma easeIn_0_0 (dist pos : num) :
  calculateEaseIn (Fin 0) (Fin 0) dist pos = NaN.
Proof.
  unfold calculateEaseIn, Math_pow2. js_ops. cbn.
  destruct dist; destruct pos; reflexivity.
Qed.

(** X8.  With a scale of 1 or less the shrink lasts 0 seconds.  In the
    update that hands over from the stretch, if the clock reads the same
    (finite) time for the stamp and for the shrink block, the elapsed time
    is 0, the percentage is [0 / 0], and the update leaves the width and
    the height at [NaN] with the shrink still running. *)
Theorem scale_one_hand_off_frame (this : AnimatableShape num)
        (w h m D tau : Qc) (c0 cA : Clock num) :
  let s1 := fst (stretchIn this (Fin m) (Fin D) c0) in
  let k := reads (snd (draw_tween s1 cA)) in
  let sA := fst (draw s1 cA) in
  shape_width this = Fin w -> shape_height this = Fin h -> m <= 1 ->
  gtb (elapsed (ticks cA k) (animStartTime (animationStretch s1)))
      (animDuration (animationStretch s1)) = true ->
  ticks cA (S k) = Fin tau -> ticks cA (S (S k)) = Fin tau ->
  shape_width sA = NaN /\ shape_height sA = NaN
  /\ isAnimating (animationShrink sA) = true
  /\ isAnimating (animationStretch sA) = false.
Proof.
  intros s1 k sA Hw Hh Hm HA T1 T2.
  destruct (stretchIn_records this m D c0 Hw Hh) as (Run & _).
  destruct (stretchIn_durations_Fin this m D c0) as (_ & Dur & _).
  fold s1 in Run, Dur.
  assert (Dur0 : animDuration (animationShrink s1) = Fin 0).
  { rewrite Dur. f_equal.
    assert (E : (if Qcltb m 1 then 1 else m) = 1).
    { destruct (Qcltb m 1) eqn:E; trivial.
      apply Qcltb_false_iff in E. now apply Qcle_antisym. }
    rewrite E. to_Q. field. }
  subst sA. rewrite draw_unfold.
  destruct (draw_tween_frame s1 cA) as (F1 & F2 & _ & _ & F3 & _).
  fold k. set (r1 := draw_tween s1 cA) in *.
  assert (E : draw_stretch (fst r1) (snd r1) = _)
    by (apply draw_stretch_hands_off;
        [rewrite F1; exact Run | rewrite F1, F3; exact HA]).
  rewrite E. cbn [fst snd]. rewrite F1, F2, F3. fold k. rewrite T1.
  unfold draw_shrink.
  cbn [animationShrink set_animationShrink isAnimating set_isAnimating].
  unfold bind, millis, ret.
  cbn [fst snd ticks reads animStartTime animDuration animDistanceX
       animDistanceY animStartX animStartY set_isAnimating
       set_animStartTime].
  rewrite T2, Dur0.
  fold (elapsed (Fin tau) (Fin tau)). rewrite elapsed_same, !easeIn_0_0.
  cbn. repeat split.
Qed.

(** ** Instances of the laws of the update *)

Lemma draws_idle_witness :
  idle idle_shape = true
  /\ draws 3 idle_shape (clock_of tween_readings)
     = (idle_shape, clock_of tween_readings).
Proof.
  split; [reflexivity | ].
  exact (@draws_idle num _ idle_shape 3 (clock_of tween_readings) eq_refl).
Defined.

Lemma tween_frames_independent_witness :
  (isAnimating (animationStretch (fst tween_mid)) = false
   /\ isAnimating (animationShrink (fst tween_mid)) = false
   /\ gtb (elapsed (ticks (snd tween_mid) (reads (snd tween_mid)))
                   (animStartTime (animationTween (fst tween_mid))))
          (animDuration (animationTween (fst tween_mid))) = false)
  /\ fst (draw (fst (draw (fst tween_mid) (snd tween_mid)))
               (snd (draw (fst tween_mid) (snd tween_mid))))
     = fst (draw (fst tween_mid)
                 (snd (draw (fst tween_mid) (snd tween_mid)))).
Proof.
  assert (G : gtb (elapsed (ticks (snd tween_mid) (reads (snd tween_mid)))
                           (animStartTime (animationTween (fst tween_mid))))
                  (animDuration (animationTween (fst tween_mid))) = false)
    by (vm_compute; reflexivity).
  split; [exact (conj eq_refl (conj eq_refl G)) | ].
  exact (@tween_frames_independent num _ (fst tween_mid) (snd tween_mid)
           (snd (draw (fst tween_mid) (snd tween_mid))) eq_refl eq_refl G).
Defined.

Lemma tween_runs_at_duration_witness :
  (isAnimating (animationTween (fst tween_at_duration_b64)) = true
   /\ PrimFloat.ltb
        (animDuration (animationTween (fst tween_at_duration_b64)))
        (elapsed (ticks (snd tween_at_duration_b64)
                        (reads (snd tween_at_duration_b64)))
                 (animStartTime (animationTween (fst tween_at_duration_b64))))
      = false
   /\ (elapsed (ticks (snd tween_at_duration_b64)
                      (reads (snd tween_at_duration_b64)))
               (animStartTime (animationTween (fst tween_at_duration_b64)))
       / animDuration (animationTween (fst tween_at_duration_b64)))%float
      = 1%float)
  /\ isAnimating
       (animationTween
          (fst (draw (fst tween_at_duration_b64) (snd tween_at_duration_b64))))
     = true
  /\ shape_x (fst (draw (fst tween_at_duration_b64)
                        (snd tween_at_duration_b64))) = 200%float
  /\ shape_y (fst (draw (fst tween_at_duration_b64)
                        (snd tween_at_duration_b64))) = 300%float.
Proof.
  assert (R : isAnimating (animationTween (fst tween_at_duration_b64)) = true)
    by reflexivity.
  assert (G : num_gt
                (elapsed (ticks (snd tween_at_duration_b64)
                                (reads (snd tween_at_duration_b64)))
                         (animStartTime
                            (animationTween (fst tween_at_duration_b64))))
                (animDuration (animationTween (fst tween_at_duration_b64)))
              = false)
    by (vm_compute; reflexivity).
  assert (P : num_div
                (elapsed (ticks (snd tween_at_duration_b64)
                                (reads (snd tween_at_duration_b64)))
                         (animStartTime
                            (animationTween (fst tween_at_duration_b64))))
                (animDuration (animationTween (fst tween_at_duration_b64)))
              = num_of_Z 1)
    by (vm_compute; reflexivity).
  split; [exact (conj R (conj G P)) | ].
  destruct (@tween_runs_at_duration float _ _ (fst tween_at_duration_b64)
              (snd tween_at_duration_b64) R G) as (_ & F & K).
  destruct (K P) as (X & Y).
  split; [exact F | split].
  - rewrite X. vm_compute. reflexivity.
  - rewrite Y. vm_compute. reflexivity.
Defined.

Lemma tween_NaN_duration_never_ends_witness :
  (isAnimating (animationTween (fst tween_NaN_b64)) = true
   /\ PrimFloat.is_nan (animDuration (animationTween (fst tween_NaN_b64)))
      = true)
  /\ isAnimating
       (animationTween (fst (draws 2 (fst tween_NaN_b64) (snd tween_NaN_b64))))
     = true
  /\ PrimFloat.is_nan
       (shape_x (fst (draws 2 (fst tween_NaN_b64) (snd tween_NaN_b64))))
     = true
  /\ PrimFloat.is_nan
       (shape_y (fst (draws 2 (fst tween_NaN_b64) (snd tween_NaN_b64))))
     = true.
Proof.
  assert (R : isAnimating (animationTween (fst tween_NaN_b64)) = true)
    by reflexivity.
  assert (D : animDuration (animationTween (fst tween_NaN_b64)) = js_NaN)
    by (vm_compute; reflexivity).
  split; [split; [exact R | rewrite D; vm_compute; reflexivity] | ].
  destruct (@tween_NaN_duration_never_ends float _ _ 1 (fst tween_NaN_b64)
              (snd tween_NaN_b64) R D) as (F & X & Y).
  split; [exact F | split].
  - rewrite X. vm_compute. reflexivity.
  - rewrite Y. vm_compute. reflexivity.
Defined.

Lemma stretchIn_splits_duration_witness :
  Q2Qc 0 <= Q2Qc 1
  /\ exists ds dr : Qc,
      animDuration
        (animationStretch
           (fst (stretchIn (fst cycle_start) (Fin (Q2Qc (3 # 2)))
                           (Fin (Q2Qc 1)) (snd cycle_start))))
      = Fin ds
      /\ animDuration
           (animationShrink
              (fst (stretchIn (fst cycle_start) (Fin (Q2Qc (3 # 2)))
                              (Fin (Q2Qc 1)) (snd cycle_start))))
         = Fin dr
      /\ ds + dr = Q2Qc 1
      /\ 0 <= ds /\ 0 <= dr
      /\ (Q2Qc (3 # 2) <= 1 -> ds = Q2Qc 1 /\ dr = 0).
Proof.
  assert (HD : Q2Qc 0 <= Q2Qc 1) by (vm_compute; discriminate).
  split; [exact HD | ].
  exact (@stretchIn_splits_duration (fst cycle_start) (Q2Qc (3 # 2))
           (Q2Qc 1) (snd cycle_start) HD).
Defined.

Lemma draw_starts_nothing_witness :
  isAnimating
    (animationShrink (fst (draw (fst cycle_stretched) (snd cycle_stretched))))
  = true
  /\ (isAnimating (animationShrink (fst cycle_stretched)) = true
      \/ isAnimating (animationStretch (fst cycle_stretched)) = true).
Proof.
  assert (A : isAnimating
                (animationShrink
                   (fst (draw (fst cycle_stretched) (snd cycle_stretched))))
              = true)
    by (vm_compute; reflexivity).
  split; [exact A | ].
  destruct (@draw_starts_nothing num _ (fst cycle_stretched)
              (snd cycle_stretched)) as (_ & _ & K).
  exact (K A).
Defined.

Lemma stretchIn_cycle_ends_crosswise_witness :
  (PrimFloat.ltb 0%float (animDuration (animationShrink (fst stretch_b64)))
   = true
   /\ PrimFloat.ltb
        (animDuration (animationStretch (fst stretch_b64)))
        (elapsed (ticks (snd stretch_b64)
                        (reads (snd (draw_tween (fst stretch_b64)
                                                (snd stretch_b64)))))
                 (animStartTime (animationStretch (fst stretch_b64))))
      = true
   /\ PrimFloat.ltb
        (animDuration (animationShrink (fst cycle_frame_b64)))
        (elapsed (ticks (snd cycle_frame_b64)
                        (reads (snd (draw_tween (fst cycle_frame_b64)
                                                (snd cycle_frame_b64)))))
                 (animStartTime (animationShrink (fst cycle_frame_b64))))
      = true)
  /\ shape_width (fst (draw (fst cycle_frame_b64) (snd cycle_frame_b64)))
     = 40%float
  /\ shape_height (fst (draw (fst cycle_frame_b64) (snd cycle_frame_b64)))
     = 20%float
  /\ isAnimating
       (animationStretch
          (fst (draw (fst cycle_frame_b64) (snd cycle_frame_b64)))) = false
  /\ isAnimating
       (animationShrink
          (fst (draw (fst cycle_frame_b64) (snd cycle_frame_b64)))) = false.
Proof.
  assert (D : num_gt (animDuration (animationShrink (fst stretch_b64)))
                     (num_of_Z 0) = true)
    by (vm_compute; reflexivity).
  assert (A : num_gt
                (elapsed (ticks (snd stretch_b64)
                                (reads (snd (draw_tween (fst stretch_b64)
                                                        (snd stretch_b64)))))
                         (animStartTime (animationStretch (fst stretch_b64))))
                (animDuration (animationStretch (fst stretch_b64))) = true)
    by (vm_compute; reflexivity).
  assert (B : num_gt
                (elapsed (ticks (snd cycle_frame_b64)
                                (reads (snd (draw_tween (fst cycle_frame_b64)
                                                        (snd cycle_frame_b64)))))
                         (animStartTime
                            (animationShrink (fst cycle_frame_b64))))
                (animDuration (animationShrink (fst cycle_frame_b64))) = true)
    by (vm_compute; reflexivity).
  split; [exact (conj D (conj A B)) | ].
  destruct (@stretchIn_cycle_ends_crosswise float _ _
              (fst cycle_start_b64) (3 / 2)%float 1%float
              (snd cycle_start_b64) (snd stretch_b64) (snd cycle_frame_b64)
              (or_introl D) A B) as (W & H & S1 & S2).
  split; [ | split; [ | split; [exact S1 | exact S2]]].
  - etransitivity; [exact W | vm_compute; reflexivity].
  - etransitivity; [exact H | vm_compute; reflexivity].
Defined.

Lemma scale_one_hand_off_frame_witness :
  (shape_width (fst hand_off_start) = Fin (Q2Qc 20)
   /\ shape_height (fst hand_off_start) = Fin (Q2Qc 40)
   /\ Q2Qc (1 # 2) <= 1
   /\ gtb (elapsed (ticks (snd hand_off_stretched)
                      (reads (snd (draw_tween (fst hand_off_stretched)
                                              (snd hand_off_stretched)))))
                   (animStartTime
                      (animationStretch (fst hand_off_stretched))))
          (animDuration (animationStretch (fst hand_off_stretched))) = true
   /\ ticks (snd hand_off_stretched)
        (S (reads (snd (draw_tween (fst hand_off_stretched)
                                   (snd hand_off_stretched)))))
      = Fin (Q2Qc 1500)
   /\ ticks (snd hand_off_stretched)
        (S (S (reads (snd (draw_tween (fst hand_off_stretched)
                                      (snd hand_off_stretched))))))
      = Fin (Q2Qc 1500))
  /\ shape_width (fst hand_off_frame) = NaN
  /\ shape_height (fst hand_off_frame) = NaN
  /\ isAnimating (animationShrink (fst hand_off_frame)) = true
  /\ isAnimating (animationStretch (fst hand_off_frame)) = false.
Proof.
  assert (Hm : Q2Qc (1 # 2) <= 1) by (vm_compute; discriminate).
  assert (GA : gtb (elapsed (ticks (snd hand_off_stretched)
                      (reads (snd (draw_tween (fst hand_off_stretched)
                                              (snd hand_off_stretched)))))
                   (animStartTime
                      (animationStretch (fst hand_off_stretched))))
          (animDuration (animationStretch (fst hand_off_stretched))) = true)
    by (vm_compute; reflexivity).
  split; [exact (conj eq_refl (conj eq_refl (conj Hm
                   (conj GA (conj eq_refl eq_refl))))) | ].
  exact (@scale_one_hand_off_frame (fst hand_off_start)
           (Q2Qc 20) (Q2Qc 40) (Q2Qc (1 # 2)) (Q2Qc 1) (Q2Qc 1500)
           (snd hand_off_start) (snd hand_off_stretched)
           eq_refl eq_refl Hm GA eq_refl eq_refl).
Defined.

(** * The widgets *)

Import String Ascii.

(** ** Strings as lists of characters *)

Lemma list_of_substring_0 (n : nat) (s : string) :
  list_ascii_of_string (substring 0 n s)
  = firstn n (list_ascii_of_string s).
Proof.
  revert s. induction n as [ | n IH]; intros [ | ch s]; cbn; trivial.
  now rewrite IH.
Qed.

Lemma list_of_append (s1 s2 : string) :
  list_ascii_of_string (s1 ++ s2)
  = (list_ascii_of_string s1 ++ list_ascii_of_string s2)%list.
Proof. induction s1 as [ | ch s1 IH]; cbn; [ | rewrite IH]; reflexivity. Qed.

Lemma length_list_of_string (s : string) :
  List.length (list_ascii_of_string s) = String.length s.
Proof. induction s as [ | ch s IH]; cbn; [ | rewrite IH]; reflexivity. Qed.

Lemma length_substring_0 (n : nat) (s : string) :
  String.length (substring 0 n s) = Nat.min n (String.length s).
Proof.
  rewrite <- !length_list_of_string, list_of_substring_0.
  apply length_firstn.
Qed.

Lemma length_append (s1 s2 : string) :
  String.length (s1 ++ s2) = (String.length s1 + String.length s2)%nat.
Proof.
  rewrite <- !length_list_of_string, list_of_append. apply length_app.
Qed.

Lemma substring_0_append_1 (s : string) (ch : ascii) :
  substring 0 (String.length s) (s ++ String ch EmptyString) = s.
Proof. induction s as [ | a s IH]; cbn; [ | rewrite IH]; reflexivity. Qed.

Lemma Forall_firstn_keeps {A : Type} (P : A -> Prop) (n : nat) (l : list A) :
  Forall P l -> Forall P (firstn n l).
Proof.
  intro H. revert n. induction H as [ | a l Ha Hl IH]; intros [ | n]; cbn;
    constructor; auto.
Qed.

Lemma typable_fromCharCode (key : Z) :
  (key >=? 46)%Z && (key <=? 57)%Z = true ->
  typed (fromCharCode key).
Proof.
  intro H. apply andb_true_iff in H. destruct H as [L U].
  apply Z.geb_le in L. apply Z.leb_le in U.
  unfold typed, fromCharCode. cbn. constructor; [ | constructor].
  unfold typable. rewrite N_ascii_embedding by lia.
  apply andb_true_iff. split; apply N.leb_le; lia.
Qed.

Lemma typed_substring_0 (n : nat) (s : string) :
  typed s -> typed (substring 0 n s).
Proof.
  unfold typed. rewrite list_of_substring_0. apply Forall_firstn_keeps.
Qed.

Lemma typed_append (s1 s2 : string) :
  typed s1 -> typed s2 -> typed (s1 ++ s2).
Proof.
  unfold typed. rewrite list_of_append. intros H1 H2.
  apply Forall_app. split; assumption.
Qed.

Section Fields.

Context {N : Type} {NumN : Number N} {TruthN : Truthy N}.
Variables (DELETE BACKSPACE : Z).

Lemma click_field_frame_gen (t : TextField N) (mx my : N) :
  let t' := TextField_handleMouseClick t mx my in
  tf_button t' = tf_button t /\ tf_value t' = tf_value t
  /\ tf_maxChar t' = tf_maxChar t /\ tf_numChar t' = tf_numChar t.
Proof.
  unfold TextField_handleMouseClick.
  destruct (isMouseInside (tf_button t) mx my
            && btn_isEnabled (tf_button t)); [repeat split | ].
  destruct (tf_isActive t); repeat split.
Qed.

Lemma draw_field_frame_gen (t : TextField N) (frameCount : Z) :
  let t' := TextField_draw t frameCount in
  tf_button t' = tf_button t /\ tf_isActive t' = tf_isActive t
  /\ tf_value t' = tf_value t
  /\ tf_maxChar t' = tf_maxChar t /\ tf_numChar t' = tf_numChar t.
Proof.
  unfold TextField_draw.
  destruct (tf_isActive t && (Z.rem frameCount (FRAME_RATE / 2) =? 0)%Z);
    [ | repeat split].
  destruct (tf_isBlack t); repeat split.
Qed.

Lemma key_keeps_counted (t : TextField N) (keyCode key : Z) :
  counted t ->
  counted (TextField_handleKeyPressed DELETE BACKSPACE t keyCode key).
Proof.
  unfold counted, TextField_handleKeyPressed. intro C.
  destruct (((keyCode =? DELETE)%Z || (keyCode =? BACKSPACE)%Z)
            && tf_isActive t && (tf_numChar t >? 0)%Z) eqn:B.
  - cbn. rewrite length_substring_0.
    apply andb_true_iff in B. destruct B as [_ P].
    apply Z.gtb_lt in P. lia.
  - destruct ((tf_numChar t <? tf_maxChar t)%Z && tf_isActive t
              && ((key >=? 46)%Z && (key <=? 57)%Z)); [ | exact C].
    cbn. rewrite length_append. cbn. lia.
Qed.

Lemma field_op_keeps_counted (t : TextField N) (op : FieldOp N) :
  counted t -> counted (field_op DELETE BACKSPACE t op).
Proof.
  destruct op as [keyCode key | mx my | frameCount]; cbn [field_op].
  - apply key_keeps_counted.
  - unfold counted, TextField_handleMouseClick. intro C.
    destruct (isMouseInside (tf_button t) mx my
              && btn_isEnabled (tf_button t)); [exact C | ].
    destruct (tf_isActive t); exact C.
  - unfold counted, TextField_draw. intro C.
    destruct (tf_isActive t && (Z.rem frameCount (FRAME_RATE / 2) =? 0)%Z);
      [ | exact C].
    destruct (tf_isBlack t); exact C.
Qed.

(** X9.  A text field built by its constructor and then driven by any
    sequence of key presses, clicks and frames keeps its character count
    equal to the length of its text. *)
Theorem text_field_counted (config : Config N) (ops : list (FieldOp N)) :
  counted (fold_left (field_op DELETE BACKSPACE) ops (new_TextField config)).
Proof.
  assert (G : forall t, counted t ->
                counted (fold_left (field_op DELETE BACKSPACE) ops t)).
  { induction ops as [ | op ops IH]; intros t C; cbn [fold_left]; trivial.
    apply IH. now apply field_op_keeps_counted. }
  apply G. reflexivity.
Qed.

Lemma field_op_keeps_bound (t : TextField N) (op : FieldOp N) (B : Z) :
  counted t ->
  (tf_maxChar t <= B)%Z -> (tf_numChar t <= B)%Z ->
  let t' := field_op DELETE BACKSPACE t op in
  tf_maxChar t' = tf_maxChar t /\ (tf_numChar t' <= B)%Z.
Proof.
  intros C HM HN.
  destruct op as [keyCode key | mx my | frameCount]; cbn [field_op].
  - unfold TextField_handleKeyPressed.
    destruct (((keyCode =? DELETE)%Z || (keyCode =? BACKSPACE)%Z)
              && tf_isActive t && (tf_numChar t >? 0)%Z).
    + cbn. split; [reflexivity | lia].
    + destruct ((tf_numChar t <? tf_maxChar t)%Z) eqn:L;
        cbn [andb]; [ | split; [reflexivity | exact HN]].
      apply Z.ltb_lt in L.
      destruct (tf_isActive t && ((key >=? 46)%Z && (key <=? 57)%Z));
        cbn; split; try reflexivity; lia.
  - destruct (click_field_frame_gen t mx my) as (_ & _ & E1 & E2).
    rewrite E1, E2. split; [reflexivity | exact HN].
  - destruct (draw_field_frame_gen t frameCount) as (_ & _ & _ & E1 & E2).
    rewrite E1, E2. split; [reflexivity | exact HN].
Qed.

Lemma field_op_keeps_typed (t : TextField N) (op : FieldOp N) :
  typed (tf_value t) -> typed (tf_value (field_op DELETE BACKSPACE t op)).
Proof.
  intro T.
  destruct op as [keyCode key | mx my | frameCount]; cbn [field_op].
  - unfold TextField_handleKeyPressed.
    destruct (((keyCode =? DELETE)%Z || (keyCode =? BACKSPACE)%Z)
              && tf_isActive t && (tf_numChar t >? 0)%Z).
    + cbn. now apply typed_substring_0.
    + destruct ((tf_numChar t <? tf_maxChar t)%Z && tf_isActive t);
        cbn [andb]; [ | exact T].
      destruct ((key >=? 46)%Z && (key <=? 57)%Z) eqn:K; [ | exact T].
      cbn. apply typed_append; [exact T | now apply typable_fromCharCode].
  - destruct (click_field_frame_gen t mx my) as (_ & E & _). now rewrite E.
  - destruct (draw_field_frame_gen t frameCount) as (_ & _ & E & _).
    now rewrite E.
Qed.

(** X10.  However a text field is driven, its text never grows beyond
    the larger of [maxChar] and the length it was built with, and if the
    text it was built with can be typed (['.'], ['/'] and digits only) so
    can every later text: no letter, sign or blank gets in. *)
Theorem text_field_text (config : Config N) (ops : list (FieldOp N)) :
  let t0 := new_TextField config in
  let t := fold_left (field_op DELETE BACKSPACE) ops t0 in
  (Z.of_nat (String.length (tf_value t))
   <= Z.max (tf_maxChar t0) (Z.of_nat (String.length (tf_value t0))))%Z
  /\ (typed (tf_value t0) -> typed (tf_value t)).
Proof.
  intros t0 t. subst t.
  set (B := Z.max (tf_maxChar t0) (Z.of_nat (String.length (tf_value t0)))).
  assert (G : forall l u, counted u -> (tf_maxChar u <= B)%Z ->
                (tf_numChar u <= B)%Z ->
                (typed (tf_value t0) -> typed (tf_value u)) ->
                let u' := fold_left (field_op DELETE BACKSPACE) l u in
                counted u' /\ (tf_numChar u' <= B)%Z
                /\ (typed (tf_value t0) -> typed (tf_value u'))).
  { induction l as [ | op l IH]; intros u C HM HN HT; cbn [fold_left].
    - repeat split; assumption.
    - destruct (@field_op_keeps_bound u op B C HM HN) as (E & HN').
      apply IH.
      + now apply field_op_keeps_counted.
      + now rewrite E.
      + exact HN'.
      + intro T0. apply field_op_keeps_typed. now apply HT. }
  destruct (G ops t0) as (C & HN & HT).
  - reflexivity.
  - subst B. lia.
  - subst B. subst t0. cbn [tf_numChar new_TextField tf_value]. lia.
  - trivial.
  - split; [ | exact HT].
    unfold counted in C. rewrite <- C. exact HN.
Qed.

(** X11.  Typing a character into an active field that has room and
    then pressing backspace or delete gives back the field as it was. *)
Theorem type_then_backspace (t : TextField N) (keyCode key keyCode' key' : Z) :
  tf_isActive t = true -> counted t ->
  (tf_numChar t < tf_maxChar t)%Z ->
  (46 <= key <= 57)%Z ->
  keyCode <> DELETE -> keyCode <> BACKSPACE ->
  keyCode' = DELETE \/ keyCode' = BACKSPACE ->
  TextField_handleKeyPressed DELETE BACKSPACE
    (TextField_handleKeyPressed DELETE BACKSPACE t keyCode key)
    keyCode' key'
  = t.
Proof.
  intros A C L K ND NB DB. unfold counted in C.
  assert (E1 : TextField_handleKeyPressed DELETE BACKSPACE t keyCode key
               = set_tf_value (tf_value t ++ fromCharCode key)
                   (set_tf_numChar (tf_numChar t + 1) t)).
  { unfold TextField_handleKeyPressed.
    apply Z.eqb_neq in ND. apply Z.eqb_neq in NB. rewrite ND, NB, A.
    cbn [orb andb].
    rewrite (proj2 (Z.ltb_lt _ _) L).
    rewrite (proj2 (Z.geb_le _ _) (proj1 K)), (proj2 (Z.leb_le _ _) (proj2 K)).
    reflexivity. }
  rewrite E1. unfold TextField_handleKeyPressed.
  cbn [tf_isActive tf_numChar tf_value tf_maxChar set_tf_value
       set_tf_numChar].
  assert (D : ((keyCode' =? DELETE)%Z || (keyCode' =? BACKSPACE)%Z) = true).
  { apply orb_true_iff. destruct DB as [E | E]; [left | right];
      now apply Z.eqb_eq. }
  rewrite D, A. cbn [andb].
  assert (P : (tf_numChar t + 1 >? 0)%Z = true) by (apply Z.gtb_lt; lia).
  rewrite P.
  cbn [tf_isActive tf_numChar tf_value tf_maxChar tf_button tf_isBlack
       set_tf_value set_tf_numChar].
  replace (tf_numChar t + 1 - 1)%Z with (tf_numChar t) by lia.
  rewrite C, Nat2Z.id. unfold fromCharCode.
  rewrite substring_0_append_1. rewrite <- C.
  destruct t; reflexivity.
Qed.

Lemma key_keeps_kept (t t0 : TextField N) (keyCode key : Z) :
  kept t t0 ->
  kept (TextField_handleKeyPressed DELETE BACKSPACE t keyCode key) t0.
Proof.
  unfold kept, TextField_handleKeyPressed. intros (P & M & T).
  destruct (((keyCode =? DELETE)%Z || (keyCode =? BACKSPACE)%Z)
            && tf_isActive t && (tf_numChar t >? 0)%Z).
  - cbn. split; [exact P | split; [exact M | ]].
    now apply typed_substring_0.
  - destruct ((tf_numChar t <? tf_maxChar t)%Z && tf_isActive t) eqn:A;
      cbn [andb]; [ | split; [exact P | split; [exact M | exact T]]].
    destruct ((key >=? 46)%Z && (key <=? 57)%Z) eqn:K;
      [ | split; [exact P | split; [exact M | exact T]]].
    cbn. split; [exact P | split; [exact M | ]].
    apply typed_append; [exact T | now apply typable_fromCharCode].
Qed.

Lemma click_keeps_kept (t t0 : TextField N) (mx my : N) :
  kept t t0 -> kept (TextField_handleMouseClick t mx my) t0.
Proof.
  unfold kept, TextField_handleMouseClick. intro K.
  destruct (isMouseInside (tf_button t) mx my
            && btn_isEnabled (tf_button t)); [exact K | ].
  destruct (tf_isActive t); exact K.
Qed.

Lemma draw_keeps_kept (t t0 : TextField N) (frameCount : Z) :
  kept t t0 -> kept (TextField_draw t frameCount) t0.
Proof.
  unfold kept, TextField_draw. intro K.
  destruct (tf_isActive t && (Z.rem frameCount (FRAME_RATE / 2) =? 0)%Z);
    [ | exact K].
  destruct (tf_isBlack t); exact K.
Qed.

Lemma click_field_frame (t : TextField N) (mx my : N) :
  let t' := TextField_handleMouseClick t mx my in
  tf_button t' = tf_button t /\ tf_value t' = tf_value t
  /\ tf_numChar t' = tf_numChar t /\ tf_maxChar t' = tf_maxChar t.
Proof.
  unfold TextField_handleMouseClick.
  destruct (isMouseInside (tf_button t) mx my
            && btn_isEnabled (tf_button t)); [repeat split | ].
  destruct (tf_isActive t); repeat split.
Qed.

Lemma key_field_frame (t : TextField N) (keyCode key : Z) :
  let t' := TextField_handleKeyPressed DELETE BACKSPACE t keyCode key in
  tf_button t' = tf_button t /\ tf_isActive t' = tf_isActive t.
Proof.
  unfold TextField_handleKeyPressed.
  destruct (((keyCode =? DELETE)%Z || (keyCode =? BACKSPACE)%Z)
            && tf_isActive t && (tf_numChar t >? 0)%Z); [repeat split | ].
  destruct ((tf_numChar t <? tf_maxChar t)%Z && tf_isActive t
            && ((key >=? 46)%Z && (key <=? 57)%Z)); repeat split.
Qed.

Lemma draw_field_frame (t : TextField N) (frameCount : Z) :
  let t' := TextField_draw t frameCount in
  tf_button t' = tf_button t /\ tf_isActive t' = tf_isActive t
  /\ tf_value t' = tf_value t /\ tf_numChar t' = tf_numChar t
  /\ tf_maxChar t' = tf_maxChar t.
Proof.
  unfold TextField_draw.
  destruct (tf_isActive t && (Z.rem frameCount (FRAME_RATE / 2) =? 0)%Z);
    [ | repeat split].
  destruct (tf_isBlack t); repeat split.
Qed.

End Fields.

(** ** The running sketch *)

Ltac fields :=
  cbn [fst snd
       animatingEllipse sceneNumber xTextField yTextField durationTextField
       scaleTextField resetButton tweenButton growthButton
       set_animatingEllipse set_sceneNumber set_xTextField set_yTextField
       set_durationTextField set_scaleTextField set_tweenButton
       set_growthButton
       tf_button tf_isActive tf_isBlack tf_maxChar tf_value tf_numChar
       set_tf_isEnabled set_tf_isActive set_tf_isBlack set_tf_value
       set_tf_numChar
       btn_x btn_y btn_width btn_height btn_radius btn_label btn_onClick
       btn_backgroundColour btn_textColour btn_strokeColour btn_isEnabled
       set_btn_isEnabled set_btn_textColour] in *.

Section Running.

Context {N : Type} {NumN : Number N} {TruthN : Truthy N}.
Variables (width height : N).
Variables (parseInt parseFloat : string -> N).
Variables (DELETE BACKSPACE : Z).

Local Abbreviation initAnimation := (initAnimation width height parseInt parseFloat).
Local Abbreviation setScene := (setScene width height parseInt parseFloat).
Local Abbreviation call := (call width height parseInt parseFloat).
Local Abbreviation Button_handleMouseClick :=
  (Button_handleMouseClick width height parseInt parseFloat).
Local Abbreviation mouseClicked := (mouseClicked width height parseInt parseFloat).
Local Abbreviation keyPressed := (keyPressed DELETE BACKSPACE).
Local Abbreviation handle :=
  (handle width height parseInt parseFloat DELETE BACKSPACE).
Local Abbreviation load := (load width height parseInt parseFloat).
Local Abbreviation running :=
  (running width height parseInt parseFloat DELETE BACKSPACE).
Local Abbreviation Settled := (settled width height).

Lemma typed_1 : typed "1".
Proof. repeat constructor. Qed.

Lemma initAnimation_settled (g : Sketch N) (c : Clock N) :
  Settled g -> Settled (fst (initAnimation g c)).
Proof.
  intro S. unfold Main.initAnimation.
  destruct (sceneNumber g =? 1)%Z.
  - unfold bind, tween, millis, ret. fields. exact S.
  - destruct (sceneNumber g =? 2)%Z; [ | exact S].
    unfold bind, stretchIn, millis, ret.
    destruct (parseFloat (tf_value (scaleTextField g)) <? num_of_Z 1)%js;
      fields; [ | exact S].
    unfold settled, kept in *. fields.
    pose proof typed_1. tauto.
Qed.

Lemma setScene_settled (scene : Z) (g : Sketch N) (c : Clock N) :
  scene = 1%Z \/ scene = 2%Z ->
  Settled g -> Settled (fst (setScene scene g c)).
Proof.
  intros [E | E] S; subst scene; unfold Main.setScene; cbn [Z.eqb Pos.eqb];
    apply initAnimation_settled;
    unfold settled, kept, placed, highlighted, counted in *; fields;
    cbn [Z.eqb Pos.eqb]; intuition auto.
Qed.

Lemma handleMouseClick_settled (b : Button N) (mx my : N) (g : Sketch N)
      (c : Clock N) :
  b = resetButton g \/ b = tweenButton g \/ b = growthButton g ->
  Settled g -> Settled (fst (Button_handleMouseClick b mx my g c)).
Proof.
  intros Hb S. unfold Main.Button_handleMouseClick.
  destruct (isMouseInside b mx my && btn_isEnabled b); [ | exact S].
  assert (A : btn_onClick b = CallInitAnimation
              \/ btn_onClick b = CallSetScene 1
              \/ btn_onClick b = CallSetScene 2).
  { destruct S as (_ & (_ & _ & _ & _ & R) & (_ & _ & _ & _ & T)
                   & (_ & _ & _ & _ & G) & _).
    destruct Hb as [E | [E | E]]; subst b;
      [left; exact R | right; left; exact T | right; right; exact G]. }
  destruct A as [A | [A | A]]; rewrite A; unfold Main.call.
  - now apply initAnimation_settled.
  - apply setScene_settled; auto.
  - apply setScene_settled; auto.
Qed.

Lemma mouseClicked_settled (mx my : N) (g : Sketch N) (c : Clock N) :
  Settled g -> Settled (fst (mouseClicked mx my g c)).
Proof.
  intro S. unfold Main.mouseClicked, bind.
  pose proof (@handleMouseClick_settled (resetButton g) mx my g c
                (or_introl eq_refl) S) as S1.
  destruct (Button_handleMouseClick (resetButton g) mx my g c) as [g1 c1].
  cbn [fst] in S1.
  pose proof (@handleMouseClick_settled (tweenButton g1) mx my g1 c1
                (or_intror (or_introl eq_refl)) S1) as S2.
  destruct (Button_handleMouseClick (tweenButton g1) mx my g1 c1) as [g2 c2].
  cbn [fst] in S2.
  pose proof (@handleMouseClick_settled (growthButton g2) mx my g2 c2
                (or_intror (or_intror eq_refl)) S2) as S3.
  destruct (Button_handleMouseClick (growthButton g2) mx my g2 c2) as [g3 c3].
  cbn [fst] in S3. unfold ret. cbn [fst].
  destruct (click_field_frame (xTextField g3) mx my) as (X1 & X2 & X3 & X4).
  destruct (click_field_frame (yTextField g3) mx my) as (Y1 & Y2 & Y3 & Y4).
  destruct (click_field_frame (durationTextField g3) mx my)
    as (D1 & D2 & D3 & D4).
  destruct (click_field_frame (scaleTextField g3) mx my)
    as (K1 & K2 & K3 & K4).
  unfold settled, kept, counted in *. fields.
  rewrite X1, X2, X3, X4, Y1, Y2, Y3, Y4, D1, D2, D3, D4, K1, K2, K4.
  exact S3.
Qed.

Lemma keyPressed_settled (keyCode key : Z) (g : Sketch N) :
  Settled g -> Settled (keyPressed keyCode key g).
Proof.
  intro S. unfold Main.keyPressed.
  destruct (key_field_frame DELETE BACKSPACE (xTextField g) keyCode key)
    as (X1 & _).
  destruct (key_field_frame DELETE BACKSPACE (yTextField g) keyCode key)
    as (Y1 & _).
  destruct (key_field_frame DELETE BACKSPACE (durationTextField g) keyCode key)
    as (D1 & _).
  destruct (key_field_frame DELETE BACKSPACE (scaleTextField g) keyCode key)
    as (K1 & _).
  unfold settled in *. fields. rewrite X1, Y1, D1, K1.
  destruct S as (S1 & S2 & S3 & S4 & S5 & S6 & S7 & S8 & S9 & KX & KY & KD
                 & KS & S14 & S15 & S16 & CX & CY & CD).
  repeat (split; [assumption | ]).
  split; [apply key_keeps_kept; exact KX | ].
  split; [apply key_keeps_kept; exact KY | ].
  split; [apply key_keeps_kept; exact KD | ].
  split; [apply key_keeps_kept; exact KS | ].
  repeat (split; [assumption | ]).
  split; [apply key_keeps_counted; exact CX | ].
  split; [apply key_keeps_counted; exact CY | ].
  apply key_keeps_counted; exact CD.
Qed.

Lemma drawUI_settled (frameCount : Z) (g : Sketch N) :
  Settled g -> Settled (drawUI frameCount g).
Proof.
  intro S. unfold Main.drawUI.
  destruct (draw_field_frame (xTextField g) frameCount)
    as (X1 & _ & X3 & X4 & X5).
  destruct (draw_field_frame (yTextField g) frameCount)
    as (Y1 & _ & Y3 & Y4 & Y5).
  destruct (draw_field_frame (durationTextField g) frameCount)
    as (D1 & _ & D3 & D4 & D5).
  destruct (draw_field_frame (scaleTextField g) frameCount)
    as (K1 & _ & K3 & K4 & K5).
  destruct S as (S1 & S).
  destruct S1 as [E | E]; rewrite E; cbn [Z.eqb Pos.eqb];
    unfold settled, kept, counted in *; fields;
    rewrite ?X1, ?X3, ?X4, ?X5, ?Y1, ?Y3, ?Y4, ?Y5, ?D1, ?D3, ?D4, ?D5,
            ?K1, ?K3, ?K4, ?K5;
    rewrite E in *; cbn [Z.eqb Pos.eqb andb] in *;
    intuition auto using andb_false_r.
Qed.

Lemma sketch_draw_settled (frameCount : Z) (g : Sketch N) (c : Clock N) :
  Settled g ->
  Settled (fst (sketch_draw frameCount g c)).
Proof.
  intro S. unfold sketch_draw, bind, ret.
  destruct (draw (animatingEllipse g) c) as [e c1]. cbn [fst].
  apply drawUI_settled. exact S.
Qed.

Lemma typed_initial_values : typed "200" /\ typed "0.5" /\ typed "1.5".
Proof. repeat split; repeat constructor. Qed.

Lemma load_settled (frameCount : Z) (c : Clock N) :
  Settled (fst (load frameCount c)).
Proof.
  unfold Main.load, bind, ret.
  destruct (new_AnimatableShape _ _ _ _ _ _ c) as [e c1].
  unfold Main.setScene. cbn [Z.eqb Pos.eqb]. fields.
  unfold Main.initAnimation. fields. cbn [Z.eqb Pos.eqb].
  unfold bind, ret.
  destruct (tween _ _ _ _ c1) as [e1 c2]. cbn [fst snd]. fields.
  unfold Main.drawUI. fields. cbn [Z.eqb Pos.eqb].
  destruct typed_initial_values as (T1 & T2 & T3).
  destruct (draw_field_frame (initial_xTextField width height) frameCount)
    as (X1 & _ & X3 & X4 & X5).
  destruct (draw_field_frame (initial_yTextField width height) frameCount)
    as (Y1 & _ & Y3 & Y4 & Y5).
  destruct (draw_field_frame (initial_durationTextField width height)
                             frameCount)
    as (D1 & _ & D3 & D4 & D5).
  unfold settled, kept, placed, highlighted, counted. fields.
  cbn [Z.eqb Pos.eqb andb].
  rewrite ?X1, ?X3, ?X4, ?X5, ?Y1, ?Y3, ?Y4, ?Y5, ?D1, ?D3, ?D4, ?D5.
  repeat split; try assumption; auto.
Qed.

Lemma running_settled (g : Sketch N) : running g -> Settled g.
Proof.
  induction 1 as [frameCount c | ev g c R IH].
  - apply load_settled.
  - destruct ev as [mx my | keyCode key | frameCount]; cbn [Main.handle].
    + now apply mouseClicked_settled.
    + unfold ret. cbn [fst]. now apply keyPressed_settled.
    + now apply sketch_draw_settled.
Qed.

(** X12.  In every state of the running sketch the scene number is 1 or
    2, the label of the Tween button is green exactly in scene 1 and the
    label of the Growth button is green exactly in scene 2; the other one
    is black. *)
Theorem sketch_scene_highlight (g : Sketch N) :
  running g ->
  (sceneNumber g = 1%Z \/ sceneNumber g = 2%Z)
  /\ highlighted (sceneNumber g =? 1)%Z (tweenButton g)
  /\ highlighted (sceneNumber g =? 2)%Z (growthButton g).
Proof.
  intro R. destruct (running_settled R)
    as (S1 & _ & _ & _ & _ & _ & _ & S8 & S9 & _).
  repeat split; assumption.
Qed.

(** X13.  In every state of the running sketch the y field and the
    duration field are enabled, in scene 2 as in scene 1: [drawUI]
    disables the x field twice in scene 2 and the y field never.  The x
    field and the scale field are never both enabled. *)
Theorem sketch_enabled_fields (g : Sketch N) :
  running g ->
  btn_isEnabled (tf_button (yTextField g)) = true
  /\ btn_isEnabled (tf_button (durationTextField g)) = true
  /\ btn_isEnabled (tf_button (xTextField g))
     && btn_isEnabled (tf_button (scaleTextField g)) = false.
Proof.
  intro R. destruct (running_settled R)
    as (_ & _ & _ & _ & _ & _ & _ & _ & _ & _ & _ & _ & _
        & S14 & S15 & S16 & _).
  repeat split; assumption.
Qed.

(** X14.  In every state of the running sketch the four text fields
    hold nothing but the characters ['.'], ['/'] and the digits, each
    takes five characters, and the character counts of the x, y and
    duration fields equal the lengths of their texts. *)
Theorem sketch_fields_typed (g : Sketch N) :
  running g ->
  typed (tf_value (xTextField g)) /\ typed (tf_value (yTextField g))
  /\ typed (tf_value (durationTextField g))
  /\ typed (tf_value (scaleTextField g))
  /\ tf_maxChar (xTextField g) = 5%Z /\ tf_maxChar (yTextField g) = 5%Z
  /\ tf_maxChar (durationTextField g) = 5%Z
  /\ tf_maxChar (scaleTextField g) = 5%Z
  /\ counted (xTextField g) /\ counted (yTextField g)
  /\ counted (durationTextField g).
Proof.
  intro R. destruct (running_settled R)
    as (_ & _ & _ & _ & _ & _ & _ & _ & _ & (_ & MX & TX) & (_ & MY & TY)
        & (_ & MD & TD) & (_ & MS & TS) & _ & _ & _ & CX & CY & CD).
  repeat split; assumption.
Qed.

Lemma substring_0_one (n : nat) (ch : ascii) :
  (1 <= n)%nat ->
  substring 0 n (String ch EmptyString) = String ch EmptyString.
Proof. destruct n as [ | [ | n]]; [lia | reflexivity | reflexivity]. Qed.

(** X15.  [initAnimation] in scene 2 with a scale that parses below 1
    writes ["1"] into the scale field and leaves the field's character
    count as it was.  If the field is active and held two characters or
    more, the next backspace or delete lowers the count and deletes
    nothing: the text is still ["1"]. *)
Theorem scale_clamp_keeps_count (g : Sketch N) (c : Clock N) :
  sceneNumber g = 2%Z ->
  (parseFloat (tf_value (scaleTextField g)) <? num_of_Z 1)%js = true ->
  let t' := scaleTextField (fst (initAnimation g c)) in
  tf_value t' = "1"%string
  /\ tf_numChar t' = tf_numChar (scaleTextField g)
  /\ (tf_isActive (scaleTextField g) = true ->
      (2 <= tf_numChar (scaleTextField g))%Z ->
      forall keyCode key : Z,
        keyCode = DELETE \/ keyCode = BACKSPACE ->
        tf_value (TextField_handleKeyPressed DELETE BACKSPACE t' keyCode key)
        = "1"%string
        /\ tf_numChar
             (TextField_handleKeyPressed DELETE BACKSPACE t' keyCode key)
           = (tf_numChar (scaleTextField g) - 1)%Z).
Proof.
  intros Sc Lt t'.
  assert (E : t' = set_tf_value "1" (scaleTextField g)).
  { subst t'. unfold Main.initAnimation. rewrite Sc. cbn [Z.eqb Pos.eqb].
    rewrite Lt. unfold bind, stretchIn, millis, ret. reflexivity. }
  rewrite E. cbn [tf_value tf_numChar set_tf_value].
  split; [reflexivity | split; [reflexivity | ]].
  intros A L keyCode key DB. unfold TextField_handleKeyPressed.
  cbn [tf_isActive tf_numChar tf_value tf_maxChar set_tf_value].
  assert (D : ((keyCode =? DELETE)%Z || (keyCode =? BACKSPACE)%Z) = true).
  { apply orb_true_iff. destruct DB as [H | H]; [left | right];
      now apply Z.eqb_eq. }
  rewrite D, A. cbn [andb].
  rewrite (proj2 (Z.gtb_lt _ _)) by lia.
  cbn [tf_value tf_numChar set_tf_value set_tf_numChar].
  split; [ | reflexivity].
  apply substring_0_one. lia.
Qed.

(** What a click leaves in the text fields: the three buttons are
    handled first, then each field handles the click. *)
Lemma mouseClicked_fields (mx my : N) (g : Sketch N) (c : Clock N) :
  Settled g ->
  exists g3 : Sketch N,
    Settled g3
    /\ xTextField (fst (mouseClicked mx my g c))
       = TextField_handleMouseClick (xTextField g3) mx my
    /\ yTextField (fst (mouseClicked mx my g c))
       = TextField_handleMouseClick (yTextField g3) mx my
    /\ durationTextField (fst (mouseClicked mx my g c))
       = TextField_handleMouseClick (durationTextField g3) mx my
    /\ scaleTextField (fst (mouseClicked mx my g c))
       = TextField_handleMouseClick (scaleTextField g3) mx my.
Proof.
  intro S. unfold Main.mouseClicked, bind.
  pose proof (@handleMouseClick_settled (resetButton g) mx my g c
                (or_introl eq_refl) S) as S1.
  destruct (Button_handleMouseClick (resetButton g) mx my g c) as [g1 c1].
  cbn [fst] in S1.
  pose proof (@handleMouseClick_settled (tweenButton g1) mx my g1 c1
                (or_intror (or_introl eq_refl)) S1) as S2.
  destruct (Button_handleMouseClick (tweenButton g1) mx my g1 c1) as [g2 c2].
  cbn [fst] in S2.
  pose proof (@handleMouseClick_settled (growthButton g2) mx my g2 c2
                (or_intror (or_intror eq_refl)) S2) as S3.
  destruct (Button_handleMouseClick (growthButton g2) mx my g2 c2) as [g3 c3].
  cbn [fst] in S3. exists g3. split; [exact S3 | ].
  unfold ret. fields. repeat split.
Qed.

Lemma click_sets_active (t : TextField N) (mx my : N) :
  tf_isActive (TextField_handleMouseClick t mx my)
  = isMouseInside (tf_button t) mx my && btn_isEnabled (tf_button t).
Proof.
  unfold TextField_handleMouseClick.
  destruct (isMouseInside (tf_button t) mx my
            && btn_isEnabled (tf_button t)); [reflexivity | ].
  destruct (tf_isActive t) eqn:A; [reflexivity | exact A].
Qed.

Lemma keyPressed_actives (keyCode key : Z) (g : Sketch N) :
  let g' := keyPressed keyCode key g in
  tf_isActive (xTextField g') = tf_isActive (xTextField g)
  /\ tf_isActive (yTextField g') = tf_isActive (yTextField g)
  /\ tf_isActive (durationTextField g') = tf_isActive (durationTextField g)
  /\ tf_isActive (scaleTextField g') = tf_isActive (scaleTextField g).
Proof.
  unfold Main.keyPressed. fields.
  repeat split; apply key_field_frame.
Qed.

Lemma drawUI_actives (frameCount : Z) (g : Sketch N) :
  let g' := drawUI frameCount g in
  tf_isActive (xTextField g') = tf_isActive (xTextField g)
  /\ tf_isActive (yTextField g') = tf_isActive (yTextField g)
  /\ tf_isActive (durationTextField g') = tf_isActive (durationTextField g)
  /\ tf_isActive (scaleTextField g') = tf_isActive (scaleTextField g).
Proof.
  unfold Main.drawUI.
  destruct (draw_field_frame (xTextField g) frameCount) as (_ & X & _).
  destruct (draw_field_frame (yTextField g) frameCount) as (_ & Y & _).
  destruct (draw_field_frame (durationTextField g) frameCount)
    as (_ & D & _).
  destruct (draw_field_frame (scaleTextField g) frameCount) as (_ & K & _).
  destruct (sceneNumber g =? 1)%Z; [fields; repeat split; assumption | ].
  destruct (sceneNumber g =? 2)%Z; fields; repeat split; assumption.
Qed.

Lemma load_actives (frameCount : Z) (c : Clock N) :
  let g := fst (load frameCount c) in
  tf_isActive (xTextField g) = false
  /\ tf_isActive (yTextField g) = false
  /\ tf_isActive (durationTextField g) = false
  /\ tf_isActive (scaleTextField g) = false.
Proof.
  unfold Main.load, bind, ret.
  destruct (new_AnimatableShape _ _ _ _ _ _ c) as [e c1].
  unfold Main.setScene. cbn [Z.eqb Pos.eqb]. fields.
  unfold Main.initAnimation. fields. cbn [Z.eqb Pos.eqb].
  unfold bind, ret.
  destruct (tween _ _ _ _ c1) as [e1 c2]. cbn [fst snd].
  match goal with
  | |- context [drawUI ?f ?g] => destruct (drawUI_actives f g) as (X & Y & D & K)
  end.
  rewrite X, Y, D, K. fields. repeat split.
Qed.

Lemma inactive_ignores_key (t : TextField N) (keyCode key : Z) :
  tf_isActive t = false ->
  TextField_handleKeyPressed DELETE BACKSPACE t keyCode key = t.
Proof.
  intro A. unfold TextField_handleKeyPressed. rewrite A.
  now rewrite !andb_false_r.
Qed.

End Running.

(** ** The running sketch in the exact model *)

Lemma or_number_Fin (q : Qc) : or_number (Some (Fin q)) (of_Z 0) = Fin q.
Proof.
  unfold or_number. cbn [num_truthy Exact_Truthy].
  destruct (Qeq_bool q 0) eqn:E; cbn [negb]; [ | reflexivity].
  apply Qeq_bool_iff in E. unfold of_Z. f_equal.
  apply Qc_is_canon. rewrite E. reflexivity.
Qed.

Lemma isMouseInside_finite (b : Button num) (mx my : num) (x y w h : Qc) :
  btn_x b = Fin x -> btn_y b = Fin y ->
  btn_width b = Fin w -> btn_height b = Fin h ->
  isMouseInside b mx my = true ->
  exists m n : Qc,
    mx = Fin m /\ my = Fin n
    /\ x < m /\ m < x + w /\ y < n /\ n < y + h.
Proof.
  intros Hx Hy Hw Hh. unfold isMouseInside. js_ops.
  rewrite Hx, Hy, Hw, Hh. rewrite !andb_true_iff.
  intros [[[A B] C] D].
  destruct mx as [m | | | ]; cbn in A, B; try discriminate.
  destruct my as [n | | | ]; cbn in C, D; try discriminate.
  exists m, n. rewrite Qcltb_true_iff in A, B, C, D.
  repeat split; assumption.
Qed.

Section RunningExact.

Variables (width height : num).
Variables (parseInt parseFloat : string -> num).
Variables (DELETE BACKSPACE : Z).

Local Abbreviation running :=
  (running width height parseInt parseFloat DELETE BACKSPACE).

Lemma placed_inside_rows (b b0 : Button num) (mx my : num) (y h : Qc) :
  placed b b0 -> btn_y b0 = Fin y -> btn_height b0 = Fin h ->
  isMouseInside b mx my = true ->
  exists n : Qc, my = Fin n /\ y < n /\ n < y + h.
Proof.
  intros (_ & Py & _ & Ph & _) Hy Hh. unfold isMouseInside. js_ops.
  rewrite Py, Ph, Hy, Hh. rewrite !andb_true_iff.
  intros [[_ C] D].
  destruct my as [n | | | ]; cbn in C, D; try discriminate.
  exists n. rewrite Qcltb_true_iff in C, D. split; [reflexivity | ].
  split; assumption.
Qed.

Lemma reset_row : btn_y (initial_resetButton width) = Fin (Q2Qc 10)
                  /\ btn_height (initial_resetButton width) = Fin (Q2Qc 30).
Proof. split; reflexivity. Qed.

Lemma tween_row : btn_y (initial_tweenButton width) = Fin (Q2Qc 100)
                  /\ btn_height (initial_tweenButton width) = Fin (Q2Qc 30).
Proof. split; reflexivity. Qed.

Lemma growth_row : btn_y (initial_growthButton width) = Fin (Q2Qc 140)
                   /\ btn_height (initial_growthButton width) = Fin (Q2Qc 30).
Proof.
  split; [ | reflexivity].
  unfold initial_growthButton, new_Button, button_config. cbn [btn_y cfg_y].
  destruct tween_row as (Y & H). rewrite Y, H.
  change BTTN_PADDING with (of_Z 10). js_ops. cbn [add of_Z].
  rewrite or_number_Fin; f_equal; try (apply Qc_is_canon; reflexivity).
Qed.

(** X16.  In every state of the running sketch no mouse position lies
    inside two of the three buttons, whatever the canvas size: one click
    runs the [onClick] of one button at most. *)
Theorem sketch_buttons_apart (g : Sketch num) (mx my : num) :
  running g ->
  isMouseInside (resetButton g) mx my && isMouseInside (tweenButton g) mx my
  = false
  /\ isMouseInside (resetButton g) mx my
     && isMouseInside (growthButton g) mx my = false
  /\ isMouseInside (tweenButton g) mx my
     && isMouseInside (growthButton g) mx my = false.
Proof.
  intro R. destruct (running_settled R) as (_ & PR & PT & PG & _).
  destruct reset_row as (RY & RH). destruct tween_row as (TY & TH).
  destruct growth_row as (GY & GH).
  pose proof (placed_inside_rows mx my PR RY RH) as IR.
  pose proof (placed_inside_rows mx my PT TY TH) as IT.
  pose proof (placed_inside_rows mx my PG GY GH) as IG.
  repeat split; apply andb_false_iff;
    destruct (isMouseInside (resetButton g) mx my);
    destruct (isMouseInside (tweenButton g) mx my);
    destruct (isMouseInside (growthButton g) mx my); auto;
    exfalso;
    repeat match goal with
           | H : true = true -> _ |- _ => specialize (H eq_refl)
           | H : false = true -> _ |- _ => clear H
           | H : exists n : Qc, _ |- _ =>
               let n := fresh "n" in
               let E := fresh "E" in
               destruct H as (n & E & ? & ?)
           end;
    repeat match goal with
           | H1 : my = Fin ?a, H2 : my = Fin ?b |- _ =>
               rewrite H1 in H2; injection H2 as H2; subst b
           end;
    to_Q; lra.
Qed.

End RunningExact.

Section FieldsApart.

Variables (w : Qc) (height : num).
Variables (parseInt parseFloat : string -> num).
Variables (DELETE BACKSPACE : Z).

Local Abbreviation running :=
  (running (Fin w) height parseInt parseFloat DELETE BACKSPACE).

Lemma quarter_Fin : div (Fin w) (of_Z 4) = Fin (w / Q2Qc 4).
Proof. unfold of_Z. now rewrite div_Fin_pos. Qed.

Lemma half_Fin : div (Fin w) (of_Z 2) = Fin (w / Q2Qc 2).
Proof. unfold of_Z. now rewrite div_Fin_pos. Qed.

Lemma field_half_width :
  div (@TEXT_FIELD_WIDTH num _) (of_Z 2) = Fin (Q2Qc 35).
Proof.
  unfold TEXT_FIELD_WIDTH. js_ops. unfold of_Z.
  rewrite div_Fin_pos by reflexivity. f_equal.
  apply Qc_is_canon. reflexivity.
Qed.

Lemma field_columns :
  btn_x (tf_button (initial_xTextField (Fin w) height))
  = Fin (w / Q2Qc 4 - Q2Qc 35)
  /\ btn_x (tf_button (initial_yTextField (Fin w) height))
     = Fin (w / Q2Qc 2 - Q2Qc 35)
  /\ btn_x (tf_button (initial_durationTextField (Fin w) height))
     = Fin (Q2Qc 3 * (w / Q2Qc 4) - Q2Qc 35)
  /\ btn_x (tf_button (initial_scaleTextField (Fin w) height))
     = Fin (Q2Qc 1 * (w / Q2Qc 4) - Q2Qc 35)
  /\ btn_width (tf_button (initial_xTextField (Fin w) height))
     = Fin (Q2Qc 70)
  /\ btn_width (tf_button (initial_yTextField (Fin w) height))
     = Fin (Q2Qc 70)
  /\ btn_width (tf_button (initial_durationTextField (Fin w) height))
     = Fin (Q2Qc 70)
  /\ btn_width (tf_button (initial_scaleTextField (Fin w) height))
     = Fin (Q2Qc 70).
Proof.
  unfold initial_xTextField, initial_yTextField, initial_durationTextField,
    initial_scaleTextField, new_TextField, new_Button, text_field_config.
  cbn [tf_button btn_x btn_width cfg_x cfg_width].
  js_ops. rewrite quarter_Fin, half_Fin.
  pose proof field_half_width as E. cbn [num_div Exact_Number] in E.
  rewrite E. cbn [sub neg add mul of_Z].
  rewrite !or_number_Fin. repeat split.
Qed.

Lemma placed_inside_columns (b b0 : Button num) (mx my : num) (x wd : Qc) :
  placed b b0 -> btn_x b0 = Fin x -> btn_width b0 = Fin wd ->
  isMouseInside b mx my = true ->
  exists m : Qc, mx = Fin m /\ x < m /\ m < x + wd.
Proof.
  intros (Px & _ & Pw & _) Hx Hw. unfold isMouseInside. js_ops.
  rewrite Px, Pw, Hx, Hw. rewrite !andb_true_iff.
  intros [[[A B] _] _].
  destruct mx as [m | | | ]; cbn in A, B; try discriminate.
  exists m. rewrite Qcltb_true_iff in A, B. split; [reflexivity | ].
  split; assumption.
Qed.

Hypothesis wide : Q2Qc 280 <= w.

Lemma click_one_active (g3 g' : Sketch num) (mx my : num) :
  settled (Fin w) height g3 ->
  xTextField g' = TextField_handleMouseClick (xTextField g3) mx my ->
  yTextField g' = TextField_handleMouseClick (yTextField g3) mx my ->
  durationTextField g'
  = TextField_handleMouseClick (durationTextField g3) mx my ->
  scaleTextField g' = TextField_handleMouseClick (scaleTextField g3) mx my ->
  one_active g'.
Proof.
  intros S EX EY ED ES.
  destruct S as (_ & _ & _ & _ & _ & _ & _ & _ & _ & (PX & _) & (PY & _)
                 & (PD & _) & (PS & _) & _ & _ & XS & _).
  destruct field_columns as (CX & CY & CD & CS & WX & WY & WD & WS).
  pose proof (placed_inside_columns mx my PX CX WX) as IX.
  pose proof (placed_inside_columns mx my PY CY WY) as IY.
  pose proof (placed_inside_columns mx my PD CD WD) as ID.
  pose proof (placed_inside_columns mx my PS CS WS) as IS.
  unfold one_active. rewrite EX, EY, ED, ES, !click_sets_active.
  destruct (isMouseInside (tf_button (xTextField g3)) mx my);
  destruct (isMouseInside (tf_button (yTextField g3)) mx my);
  destruct (isMouseInside (tf_button (durationTextField g3)) mx my);
  destruct (isMouseInside (tf_button (scaleTextField g3)) mx my);
  destruct (btn_isEnabled (tf_button (xTextField g3)));
  destruct (btn_isEnabled (tf_button (scaleTextField g3)));
  try discriminate XS; cbn [andb];
  repeat split; try reflexivity; try apply andb_false_r;
  exfalso;
  repeat match goal with
         | H : true = true -> _ |- _ => specialize (H eq_refl)
         | H : false = true -> _ |- _ => clear H
         | H : exists m : Qc, _ |- _ =>
             let m := fresh "m" in
             let E := fresh "E" in
             destruct H as (m & E & ? & ?)
         end;
  repeat match goal with
         | H1 : mx = Fin ?a, H2 : mx = Fin ?b |- _ =>
             rewrite H1 in H2; injection H2 as H2; subst b
         end;
  to_Q;
  assert (Q4 : (w / 4 == (1 # 4) * w)%Q) by field;
  assert (Q2 : (w / 2 == (1 # 2) * w)%Q) by field;
  rewrite ?Q4, ?Q2 in *; lra.
Qed.

(** X17.  On a canvas at least 280 wide, in every state of the running
    sketch at most one of the four text fields is active, and so a key
    press leaves three of the four fields as they are. *)
Theorem sketch_one_active_field (g : Sketch num) :
  running g ->
  one_active g
  /\ forall keyCode key : Z,
      let g' := keyPressed DELETE BACKSPACE keyCode key g in
      (xTextField g' = xTextField g /\ yTextField g' = yTextField g
       /\ durationTextField g' = durationTextField g)
      \/ (xTextField g' = xTextField g /\ yTextField g' = yTextField g
          /\ scaleTextField g' = scaleTextField g)
      \/ (xTextField g' = xTextField g
          /\ durationTextField g' = durationTextField g
          /\ scaleTextField g' = scaleTextField g)
      \/ (yTextField g' = yTextField g
          /\ durationTextField g' = durationTextField g
          /\ scaleTextField g' = scaleTextField g).
Proof.
  intro R.
  assert (A : one_active g).
  { induction R as [frameCount c | ev g c R IH].
    - destruct (load_actives (Fin w) height parseInt parseFloat frameCount c)
        as (X & Y & D & K).
      unfold one_active. rewrite X, Y, D. repeat split.
    - pose proof (running_settled R) as S.
      destruct ev as [mx my | keyCode key | frameCount]; cbn [Main.handle].
      + destruct (mouseClicked_fields parseInt parseFloat mx my c S)
          as (g3 & S3 & EX & EY & ED & ES).
        exact (@click_one_active g3 _ mx my S3 EX EY ED ES).
      + unfold ret. cbn [fst].
        destruct (keyPressed_actives DELETE BACKSPACE keyCode key g)
          as (X & Y & D & K).
        unfold one_active in *. rewrite X, Y, D, K. exact IH.
      + unfold sketch_draw, bind, ret.
        destruct (draw (animatingEllipse g) c) as [e c1]. cbn [fst].
        destruct (drawUI_actives frameCount (set_animatingEllipse e g))
          as (X & Y & D & K).
        unfold one_active in *. rewrite X, Y, D, K. exact IH. }
  split; [exact A | ].
  intros keyCode key g'. subst g'. unfold Main.keyPressed.
  cbn [xTextField yTextField durationTextField scaleTextField
       set_xTextField set_yTextField set_durationTextField
       set_scaleTextField].
  destruct A as (A1 & A2 & A3 & A4 & A5 & A6).
  destruct (tf_isActive (xTextField g)) eqn:X;
  destruct (tf_isActive (yTextField g)) eqn:Y;
  destruct (tf_isActive (durationTextField g)) eqn:D;
  destruct (tf_isActive (scaleTextField g)) eqn:K;
  try discriminate;
  try rewrite (@inactive_ignores_key _ DELETE BACKSPACE _ keyCode key X);
  try rewrite (@inactive_ignores_key _ DELETE BACKSPACE _ keyCode key Y);
  try rewrite (@inactive_ignores_key _ DELETE BACKSPACE _ keyCode key D);
  try rewrite (@inactive_ignores_key _ DELETE BACKSPACE _ keyCode key K);
  tauto.
Qed.

End FieldsApart.

Section TweenClick.

Context {N : Type} {NumN : Number N} {TruthN : Truthy N}.
Variables (width height : N).
Variables (parseInt parseFloat : string -> N).
Variables (DELETE BACKSPACE : Z).

Local Abbreviation running :=
  (running width height parseInt parseFloat DELETE BACKSPACE).

(** X18.  A click that the Tween button takes for its own and the other
    two buttons do not, in every state of the running sketch: the scene
    becomes 1, the ellipse is put at (width * 0.5, 0) and a tween starts
    from there to the parsed x and y fields with the parsed duration,
    stamped with the clock reading of the click.  The texts parsed are
    those before the click. *)
Theorem click_on_tween_button (g : Sketch N) (mx my : N) (c : Clock N) :
  running g ->
  isMouseInside (tweenButton g) mx my = true ->
  isMouseInside (resetButton g) mx my = false ->
  isMouseInside (growthButton g) mx my = false ->
  let g' := fst (mouseClicked width height parseInt parseFloat mx my g c) in
  let a := animationTween (animatingEllipse g') in
  sceneNumber g' = 1%Z
  /\ shape_x (animatingEllipse g') = (width * half)%js
  /\ shape_y (animatingEllipse g') = num_of_Z 0
  /\ isAnimating a = true
  /\ animStartX a = (width * half)%js /\ animStartY a = num_of_Z 0
  /\ animDestinationX a = parseInt (tf_value (xTextField g))
  /\ animDestinationY a = parseInt (tf_value (yTextField g))
  /\ animDuration a = parseFloat (tf_value (durationTextField g))
  /\ animStartTime a = ticks c (reads c).
Proof.
  intros R IT IR IG0 g' a.
  pose proof (running_settled R) as S.
  destruct S as (_ & _ & PT & _ & _ & ET & _).
  assert (E1 : Button_handleMouseClick width height parseInt parseFloat
                 (resetButton g) mx my g c = (g, c)).
  { unfold Main.Button_handleMouseClick. rewrite IR. reflexivity. }
  assert (E2 : Button_handleMouseClick width height parseInt parseFloat
                 (tweenButton g) mx my g c
               = setScene width height parseInt parseFloat 1 g c).
  { unfold Main.Button_handleMouseClick. rewrite IT, ET. cbn [andb].
    destruct PT as (_ & _ & _ & _ & OT). rewrite OT. reflexivity. }
  assert (Q : let g2 := fst (setScene width height parseInt parseFloat 1 g c)
              in
              sceneNumber g2 = 1%Z
              /\ animatingEllipse g2
                 = fst (tween (set_y (num_of_Z 0)
                                (set_x (width * half)%js
                                       (animatingEllipse g)))
                              (parseInt (tf_value (xTextField g)))
                              (parseInt (tf_value (yTextField g)))
                              (parseFloat (tf_value (durationTextField g)))
                              c)
              /\ isMouseInside (growthButton g2) mx my
                 = isMouseInside (growthButton g) mx my).
  { unfold Main.setScene. cbn [Z.eqb Pos.eqb].
    unfold Main.initAnimation.
    cbn [sceneNumber set_sceneNumber set_tweenButton set_growthButton
         Z.eqb Pos.eqb xTextField yTextField durationTextField
         animatingEllipse].
    unfold bind, ret.
    destruct (tween _ _ _ _ c) as [e c1]. cbn [fst].
    split; [reflexivity | split; reflexivity]. }
  subst a g'. unfold Main.mouseClicked, bind.
  rewrite E1. cbv beta iota. rewrite E2.
  destruct (setScene width height parseInt parseFloat 1 g c) as [g2 c2].
  cbn [fst] in Q. destruct Q as (Q1 & Q2 & Q3).
  unfold Main.Button_handleMouseClick. rewrite Q3, IG0. cbn [andb].
  unfold ret. fields. rewrite Q1, Q2. unfold tween, bind, millis, ret.
  cbn. repeat split.
Qed.

End TweenClick.

(** ** Instances of the laws of the widgets and of the sketch *)

Lemma running_sketch_scale_active :
  running (Fin (Q2Qc 400)) (Fin (Q2Qc 400))
          (parse_const (of_Z 0)) (parse_const (of_Z 0)) 127 8
          (fst sketch_scale_active).
Proof.
  unfold sketch_scale_active, sketch_growth_drawn, sketch_growth,
         sketch_event, sketch_loaded.
  repeat apply run_event. apply run_load.
Qed.

Lemma text_field_text_witness :
  typed (tf_value (new_TextField
                     (text_field_config (Fin (Q2Qc 400)) (Fin (Q2Qc 65))
                                        "Final x" "200")))
  /\ typed (tf_value
             (fold_left (field_op 127 8)
                (OpClick (Fin (Q2Qc 100)) (Fin (Q2Qc 375))
                 :: OpKey 53 53 :: nil)
                (new_TextField
                   (text_field_config (Fin (Q2Qc 400)) (Fin (Q2Qc 65))
                                      "Final x" "200")))).
Proof.
  assert (T : typed (tf_value (new_TextField
                     (text_field_config (Fin (Q2Qc 400)) (Fin (Q2Qc 65))
                                        "Final x" "200"))))
    by exact (proj1 typed_initial_values).
  split; [exact T | ].
  exact (proj2 (@text_field_text num _ _ 127%Z 8%Z
                  (text_field_config (Fin (Q2Qc 400)) (Fin (Q2Qc 65))
                                     "Final x" "200")
                  (OpClick (Fin (Q2Qc 100)) (Fin (Q2Qc 375))
                   :: OpKey 53 53 :: nil)) T).
Defined.

Lemma type_then_backspace_witness :
  (tf_isActive x_field_active = true /\ counted x_field_active
   /\ (tf_numChar x_field_active < tf_maxChar x_field_active)%Z
   /\ (46 <= 53 <= 57)%Z /\ 53%Z <> 127%Z /\ 53%Z <> 8%Z
   /\ (8%Z = 127%Z \/ 8%Z = 8%Z))
  /\ TextField_handleKeyPressed 127 8
       (TextField_handleKeyPressed 127 8 x_field_active 53 53) 8 8
     = x_field_active.
Proof.
  assert (A : tf_isActive x_field_active = true) by (vm_compute; reflexivity).
  assert (C : counted x_field_active) by (vm_compute; reflexivity).
  assert (L : (tf_numChar x_field_active < tf_maxChar x_field_active)%Z)
    by (vm_compute; reflexivity).
  assert (K : (46 <= 53 <= 57)%Z) by lia.
  assert (D : 53%Z <> 127%Z) by discriminate.
  assert (B : 53%Z <> 8%Z) by discriminate.
  assert (E : 8%Z = 127%Z \/ 8%Z = 8%Z) by (right; reflexivity).
  split; [exact (conj A (conj C (conj L (conj K (conj D (conj B E)))))) | ].
  exact (@type_then_backspace num 127%Z 8%Z x_field_active 53%Z 53%Z 8%Z 8%Z
           A C L K D B E).
Defined.

Lemma sketch_scene_highlight_witness :
  running (Fin (Q2Qc 400)) (Fin (Q2Qc 400))
          (parse_const (of_Z 0)) (parse_const (of_Z 0)) 127 8
          (fst sketch_scale_active)
  /\ (sceneNumber (fst sketch_scale_active) = 1%Z
      \/ sceneNumber (fst sketch_scale_active) = 2%Z)
  /\ highlighted (sceneNumber (fst sketch_scale_active) =? 1)%Z
                 (tweenButton (fst sketch_scale_active))
  /\ highlighted (sceneNumber (fst sketch_scale_active) =? 2)%Z
                 (growthButton (fst sketch_scale_active)).
Proof.
  split; [exact running_sketch_scale_active | ].
  exact (sketch_scene_highlight running_sketch_scale_active).
Defined.

Lemma sketch_enabled_fields_witness :
  running (Fin (Q2Qc 400)) (Fin (Q2Qc 400))
          (parse_const (of_Z 0)) (parse_const (of_Z 0)) 127 8
          (fst sketch_scale_active)
  /\ btn_isEnabled (tf_button (yTextField (fst sketch_scale_active))) = true
  /\ btn_isEnabled (tf_button (durationTextField (fst sketch_scale_active)))
     = true
  /\ btn_isEnabled (tf_button (xTextField (fst sketch_scale_active)))
     && btn_isEnabled (tf_button (scaleTextField (fst sketch_scale_active)))
     = false.
Proof.
  split; [exact running_sketch_scale_active | ].
  exact (sketch_enabled_fields running_sketch_scale_active).
Defined.

Lemma sketch_fields_typed_witness :
  running (Fin (Q2Qc 400)) (Fin (Q2Qc 400))
          (parse_const (of_Z 0)) (parse_const (of_Z 0)) 127 8
          (fst sketch_scale_active)
  /\ typed (tf_value (xTextField (fst sketch_scale_active)))
  /\ typed (tf_value (scaleTextField (fst sketch_scale_active)))
  /\ counted (durationTextField (fst sketch_scale_active)).
Proof.
  split; [exact running_sketch_scale_active | ].
  destruct (sketch_fields_typed running_sketch_scale_active)
    as (X & _ & _ & K & _ & _ & _ & _ & _ & _ & D).
  exact (conj X (conj K D)).
Defined.

Lemma scale_clamp_keeps_count_witness :
  (sceneNumber (fst sketch_scale_active) = 2%Z
   /\ Exact.ltb
        (parse_const (of_Z 0)
                     (tf_value (scaleTextField (fst sketch_scale_active))))
        (of_Z 1) = true
   /\ tf_isActive (scaleTextField (fst sketch_scale_active)) = true
   /\ (2 <= tf_numChar (scaleTextField (fst sketch_scale_active)))%Z
   /\ (8%Z = 127%Z \/ 8%Z = 8%Z))
  /\ tf_value
       (TextField_handleKeyPressed 127 8
          (scaleTextField
             (fst (initAnimation (Fin (Q2Qc 400)) (Fin (Q2Qc 400))
                     (parse_const (of_Z 0)) (parse_const (of_Z 0))
                     (fst sketch_scale_active) (snd sketch_scale_active))))
          8 8)
     = "1"%string
  /\ tf_numChar
       (TextField_handleKeyPressed 127 8
          (scaleTextField
             (fst (initAnimation (Fin (Q2Qc 400)) (Fin (Q2Qc 400))
                     (parse_const (of_Z 0)) (parse_const (of_Z 0))
                     (fst sketch_scale_active) (snd sketch_scale_active))))
          8 8)
     = (tf_numChar (scaleTextField (fst sketch_scale_active)) - 1)%Z.
Proof.
  assert (S2 : sceneNumber (fst sketch_scale_active) = 2%Z)
    by (vm_compute; reflexivity).
  assert (P : Exact.ltb
                (parse_const (of_Z 0)
                   (tf_value (scaleTextField (fst sketch_scale_active))))
                (of_Z 1) = true)
    by reflexivity.
  assert (A : tf_isActive (scaleTextField (fst sketch_scale_active)) = true)
    by (vm_compute; reflexivity).
  assert (L : (2 <= tf_numChar (scaleTextField (fst sketch_scale_active)))%Z)
    by (vm_compute; discriminate).
  assert (E : 8%Z = 127%Z \/ 8%Z = 8%Z) by (right; reflexivity).
  split; [exact (conj S2 (conj P (conj A (conj L E)))) | ].
  destruct (@scale_clamp_keeps_count num Exact_Number (Fin (Q2Qc 400)) (Fin (Q2Qc 400))
              (parse_const (of_Z 0)) (parse_const (of_Z 0)) 127%Z 8%Z
              (fst sketch_scale_active) (snd sketch_scale_active) S2 P)
    as (_ & _ & K).
  exact (K A L 8%Z 8%Z E).
Defined.

Lemma sketch_buttons_apart_witness :
  running (Fin (Q2Qc 400)) (Fin (Q2Qc 400))
          (parse_const (of_Z 0)) (parse_const (of_Z 0)) 127 8
          (fst sketch_scale_active)
  /\ isMouseInside (resetButton (fst sketch_scale_active))
                   (Fin (Q2Qc 350)) (Fin (Q2Qc 115))
     && isMouseInside (tweenButton (fst sketch_scale_active))
                      (Fin (Q2Qc 350)) (Fin (Q2Qc 115)) = false
  /\ isMouseInside (resetButton (fst sketch_scale_active))
                   (Fin (Q2Qc 350)) (Fin (Q2Qc 115))
     && isMouseInside (growthButton (fst sketch_scale_active))
                      (Fin (Q2Qc 350)) (Fin (Q2Qc 115)) = false
  /\ isMouseInside (tweenButton (fst sketch_scale_active))
                   (Fin (Q2Qc 350)) (Fin (Q2Qc 115))
     && isMouseInside (growthButton (fst sketch_scale_active))
                      (Fin (Q2Qc 350)) (Fin (Q2Qc 115)) = false.
Proof.
  split; [exact running_sketch_scale_active | ].
  exact (@sketch_buttons_apart _ _ _ _ _ _ _ (Fin (Q2Qc 350))
           (Fin (Q2Qc 115)) running_sketch_scale_active).
Defined.

Lemma sketch_one_active_field_witness :
  (Q2Qc 280 <= Q2Qc 400
   /\ running (Fin (Q2Qc 400)) (Fin (Q2Qc 400))
              (parse_const (of_Z 0)) (parse_const (of_Z 0)) 127 8
              (fst sketch_scale_active))
  /\ one_active (fst sketch_scale_active).
Proof.
  assert (W : Q2Qc 280 <= Q2Qc 400) by (vm_compute; discriminate).
  split; [exact (conj W running_sketch_scale_active) | ].
  exact (proj1 (@sketch_one_active_field _ _ _ _ _ _ W _
                  running_sketch_scale_active)).
Defined.

Lemma click_on_tween_button_witness :
  (running (Fin (Q2Qc 400)) (Fin (Q2Qc 400))
           (parse_const (of_Z 0)) (parse_const (of_Z 0)) 127 8
           (fst sketch_scale_active)
   /\ isMouseInside (tweenButton (fst sketch_scale_active))
                     (Fin (Q2Qc 350)) (Fin (Q2Qc 115)) = true
   /\ isMouseInside (resetButton (fst sketch_scale_active))
                     (Fin (Q2Qc 350)) (Fin (Q2Qc 115)) = false
   /\ isMouseInside (growthButton (fst sketch_scale_active))
                     (Fin (Q2Qc 350)) (Fin (Q2Qc 115)) = false)
  /\ sceneNumber
       (fst (mouseClicked (Fin (Q2Qc 400)) (Fin (Q2Qc 400))
               (parse_const (of_Z 0)) (parse_const (of_Z 0))
               (Fin (Q2Qc 350)) (Fin (Q2Qc 115))
               (fst sketch_scale_active) (snd sketch_scale_active)))
     = 1%Z
  /\ isAnimating
       (animationTween
          (animatingEllipse
             (fst (mouseClicked (Fin (Q2Qc 400)) (Fin (Q2Qc 400))
                     (parse_const (of_Z 0)) (parse_const (of_Z 0))
                     (Fin (Q2Qc 350)) (Fin (Q2Qc 115))
                     (fst sketch_scale_active) (snd sketch_scale_active)))))
     = true.
Proof.
  assert (IT : isMouseInside (tweenButton (fst sketch_scale_active))
                             (Fin (Q2Qc 350)) (Fin (Q2Qc 115)) = true)
    by (vm_compute; reflexivity).
  assert (IR : isMouseInside (resetButton (fst sketch_scale_active))
                             (Fin (Q2Qc 350)) (Fin (Q2Qc 115)) = false)
    by (vm_compute; reflexivity).
  assert (IG : isMouseInside (growthButton (fst sketch_scale_active))
                             (Fin (Q2Qc 350)) (Fin (Q2Qc 115)) = false)
    by (vm_compute; reflexivity).
  split; [exact (conj running_sketch_scale_active
                   (conj IT (conj IR IG))) | ].
  destruct (@click_on_tween_button num _ _ _ _ _ _ _ _ _ _ _
              (snd sketch_scale_active) running_sketch_scale_active
              IT IR IG) as (S1 & _ & _ & A & _).
  exact (conj S1 A).
Defined.
